(** * Mouse interaction of the ray-optics matplotlib figures

    A shallow embedding of the two figure classes of the repository,

    - [gui/mpl/paraxdgnfigure.py]: [EditableLine] and [ParaxialDesignFigure]
      (module [ParaxDgn], properties in [ParaxDgnFacts]);
    - [src/rayoptics/mpl/interactivefigure.py]: [InteractiveFigure],
      [PanAction] and [ZoomBoxAction] (module [IFig], properties in
      [IFigFacts]).

    Python objects become records, attribute assignment becomes explicit
    state passing in a small state-and-exception monad [Py], and the
    plotting toolkit and the optical model (neither is part of the
    repository's sources) are the methods of a type class each,
    [ParaxDgn.Collaborators] and [IFig.Toolkit].  Python floats are
    modelled by exact rationals [Q]: order comparisons are exact, and
    arithmetic identities are stated up to [==]. *)

From Stdlib Require Import QArith Lqa Sorted.
From stdpp Require Import base option list strings gmap.

(** ** Python exceptions and the state monad of a handler *)

Inductive exn := IndexError | TypeError | AttributeError | KeyError | ValueError.

Inductive outcome (A : Type) :=
  | Returned (a : A)
  | Raised (e : exn).
Arguments Returned {A} a.
Arguments Raised {A} e.

#[global] Instance outcome_ret : MRet outcome := λ A a, Returned a.
#[global] Instance outcome_bind : MBind outcome :=
  λ A B f m, match m with Returned a => f a | Raised e => Raised e end.

(** A method running on a mutable object of type [S]: it returns the
    object as the method left it, also when it raised. *)
Definition Py (S A : Type) : Type := S → S * outcome A.

#[global] Instance Py_ret {S} : MRet (Py S) := λ A a s, (s, Returned a).
#[global] Instance Py_bind {S} : MBind (Py S) :=
  λ A B f m s,
    match m s with
    | (s', Returned a) => f a s'
    | (s', Raised e) => (s', Raised e)
    end.

Definition get {S} : Py S S := λ s, (s, Returned s).
Definition gets {S A} (f : S → A) : Py S A := λ s, (s, Returned (f s)).
Definition modify {S} (f : S → S) : Py S unit := λ s, (f s, Returned ()).
Definition lift {S A} (o : outcome A) : Py S A := λ s, (s, o).

(** [l[i]] and [l[i] = v] for a non-negative index. *)
Definition getitem {A} (l : list A) (i : nat) : outcome A :=
  match l !! i with
  | Some a => Returned a
  | None => Raised IndexError
  end.

Definition setitem {A} (l : list A) (i : nat) (v : A) : outcome (list A) :=
  if decide (i < length l) then Returned (<[i:=v]> l) else Raised IndexError.

Fixpoint mapM_outcome {A B} (f : A → outcome B) (l : list A) : outcome (list B) :=
  match l with
  | [] => Returned []
  | a :: l' => b ← f a; bs ← mapM_outcome f l'; Returned (b :: bs)
  end.

(** An attribute that may not exist yet, may hold [None], or holds a value. *)
Inductive attr (A : Type) :=
  | Missing
  | PyNone
  | Has (a : A).
Arguments Missing {A}.
Arguments PyNone {A}.
Arguments Has {A} a.

Definition is_Has {A} (x : attr A) : Prop :=
  match x with
  | Has _ => True
  | _ => False
  end.

(** ** Mouse events *)

Definition Point : Type := Q * Q.

(** [x], [y] are display pixels, [xdata], [ydata] data coordinates;
    [inaxes] tells whether the cursor is inside the figure's axes. *)
Record MouseEvent := {
  ev_x : Q;
  ev_y : Q;
  ev_xdata : Q;
  ev_ydata : Q;
  ev_button : nat;
  ev_key : option string;
  ev_inaxes : bool
}.

(** * gui/mpl/paraxdgnfigure.py *)

Module ParaxDgn.

(** [lens[ray][type][i]]: the paraxial lens is a nested sequence. *)
Definition Lens : Type := list (list (list Q)).

(** [slice(start, stop)] with a non-negative [start]. *)
Record slice := { start : nat; stop : option Z }.

Definition getslice {A} (s : slice) (l : list A) : list A :=
  let n := length l in
  let hi := match stop s with
            | None => n
            | Some z => if (z <? 0)%Z then Z.to_nat (Z.of_nat n + z)
                        else Nat.min (Z.to_nat z) n
            end in
  let lo := Nat.min (start s) n in
  take (hi - lo) (drop lo l).

Record Line2D := { xdata : list Q; ydata : list Q; pickradius : Q }.

Definition get_data (l : Line2D) : list Q * list Q := (xdata l, ydata l).

(** [ht_dgm, slp_dgm = range(2)] *)
Inductive dgm_type := ht_dgm | slp_dgm.

(** What [process_hit_location] hands to the markers: a coordinate or a
    slice of coordinates. *)
Inductive py_data :=
  | Scalar (q : Q)
  | Arr (l : list Q).

Record Markers := {
  m_xdata : py_data;
  m_ydata : py_data;
  m_marker : string;
  m_linestyle : string
}.

Record EditableLine := {
  e_line : Line2D;
  press : option (py_data * py_data * Q * Q);
  is_hilited : bool;
  markers : Markers;
  pick_radius_sqr : Q
}.

(** Calls that leave the figure, in the order they were made. *)
Inductive Call :=
  | CallApplyData (vertex : nat) (opt_inv : Q)
  | CallLensToSeqModel
  | CallRefreshGui.

Definition min_hit_dist0 : Q := 1e10.

(** *** ParaxialDesignFigure *)

Record Figure {SeqModel : Type} := {
  seq_model : SeqModel;
  lens : Lens;
  type_sel : nat;
  data_slice : slice;
  apply_data : Lens → nat → Q → Lens;
  line : Line2D;
  vertex : option nat
}.

(** The figure together with the calls it has made to its collaborators. *)
Record World {SeqModel : Type} := {
  fig : Figure (SeqModel := SeqModel);
  trace : list Call
}.

(** What the figure is given and what it calls: the constants of
    optical.model_constants (the rows [ax], [pr] of the lens and [ht],
    [slp] of a ray), [distance_sqr_2d] of util.misc_math, the axes'
    data-to-display transform and the line's hit test, the functions of
    optical.paraxialdesign, the sequential model, and the [refresh_gui]
    callback handed to the constructor. *)
Class Collaborators (SeqModel : Type) := {
  ax : nat;
  pr : nat;
  ht : nat;
  slp : nat;
  distance_sqr_2d : Point → Point → Q;
  transData : Point → Point;
  contains : Line2D → MouseEvent → bool * list nat;
  ht_to_slope : Lens → nat → Q → Lens;
  slope_to_ht : Lens → nat → Q → Lens;
  build_lens : SeqModel → Lens;
  paraxial_lens_to_seq_model : SeqModel → Lens → SeqModel;
  opt_inv_of : SeqModel → Q;
  refresh_gui : Figure (SeqModel := SeqModel) → Figure (SeqModel := SeqModel)
}.

Section figure.
Context {SeqModel : Type} `{!Collaborators SeqModel}.
Local Abbreviation Figure := (Figure (SeqModel := SeqModel)).
Local Abbreviation World := (World (SeqModel := SeqModel)).

(** The loop shared by [EditableLine.process_hit_location] and
    [ParaxialDesignFigure.on_press]: [hits] pairs [hit_list[i]] with
    [dsp_hits[i]]. *)
Fixpoint hit_loop (hit_pt : Point) (pick_radius_sqr : Q)
    (hits : list (nat * Point)) (hit_vertex : option nat) (min_hit_dist : Q)
    : option nat * Q :=
  match hits with
  | [] => (hit_vertex, min_hit_dist)
  | (h, pt) :: rest =>
      let hit_dist := distance_sqr_2d pt hit_pt in
      if Qlt_le_dec hit_dist min_hit_dist then
        hit_loop hit_pt pick_radius_sqr rest
          (if Qlt_le_dec hit_dist pick_radius_sqr then Some h else hit_vertex)
          hit_dist
      else hit_loop hit_pt pick_radius_sqr rest hit_vertex min_hit_dist
  end.

(** [[[x_data[i], y_data[i]] for i in hit_list]] *)
Definition line_hits (x_data y_data : list Q) (hit_list : list nat)
    : outcome (list Point) :=
  mapM_outcome (λ i, x ← getitem x_data i; y ← getitem y_data i; Returned (x, y))
    hit_list.

Definition find_hit_vertex (x_data y_data : list Q) (event : MouseEvent)
    (pick_radius_sqr : Q) (hit_list : list nat) : outcome (option nat) :=
  lh ← line_hits x_data y_data hit_list;
  let dsp_hits := map transData lh in
  let hit_pt := (ev_x event, ev_y event) in
  Returned (hit_loop hit_pt pick_radius_sqr (zip hit_list dsp_hits)
              None min_hit_dist0).1.

(** *** EditableLine *)

Definition process_hit_location (el : EditableLine) (event : MouseEvent)
    (hit_list : list nat) : outcome (py_data * py_data * string) :=
  let '(xd, yd) := get_data (e_line el) in
  hit_vertex ← find_hit_vertex xd yd event (pick_radius_sqr el) hit_list;
  match hit_vertex with
  | None =>
      h ← getitem hit_list 0;
      Returned (Arr (take 2 (drop h xd)), Arr (take 2 (drop h yd)), "")
  | Some v =>
      x ← getitem xd v; y ← getitem yd v;
      Returned (Scalar x, Scalar y, "s")
  end.

Definition EditableLine_init (l : Line2D) : EditableLine :=
  {| e_line := l; press := None; is_hilited := false;
     markers := {| m_xdata := Arr []; m_ydata := Arr [];
                   m_marker := "s"; m_linestyle := "" |};
     pick_radius_sqr := (pickradius l ^ 2)%Q |}.

Definition set_press (p : option (py_data * py_data * Q * Q))
    (el : EditableLine) : EditableLine :=
  {| e_line := e_line el; press := p; is_hilited := is_hilited el;
     markers := markers el; pick_radius_sqr := pick_radius_sqr el |}.

Definition set_markers (m : Markers) (el : EditableLine) : EditableLine :=
  {| e_line := e_line el; press := press el; is_hilited := is_hilited el;
     markers := m; pick_radius_sqr := pick_radius_sqr el |}.

Definition EditableLine_on_press (event : MouseEvent) : Py EditableLine unit :=
  el ← get;
  if negb (ev_inaxes event) then mret ()
  else
    let '(hit, hit_list) := contains (e_line el) event in
    if negb hit then mret ()
    else
      '(xd, yd, mkr) ← lift (process_hit_location el event hit_list);
      modify (set_press (Some (xd, yd, ev_xdata event, ev_ydata event))).

Definition EditableLine_on_motion (event : MouseEvent) : Py EditableLine unit :=
  el ← get;
  if negb (ev_inaxes event) then mret ()
  else
    let '(hit, hit_list) := contains (e_line el) event in
    if negb hit then
      modify (set_markers {| m_xdata := Arr []; m_ydata := Arr [];
                             m_marker := m_marker (markers el);
                             m_linestyle := m_linestyle (markers el) |})
    else
      '(xd, yd, mkr) ← lift (process_hit_location el event hit_list);
      modify (set_markers {| m_xdata := xd; m_ydata := yd;
                             m_marker := mkr; m_linestyle := "solid" |}).

Definition EditableLine_on_release (event : MouseEvent) : Py EditableLine unit :=
  modify (set_press None).

Definition set_vertex (v : option nat) (f : Figure) : Figure :=
  {| seq_model := seq_model f; lens := lens f; type_sel := type_sel f;
     data_slice := data_slice f; apply_data := apply_data f;
     line := line f; vertex := v |}.

Definition set_lens (l : Lens) (f : Figure) : Figure :=
  {| seq_model := seq_model f; lens := l; type_sel := type_sel f;
     data_slice := data_slice f; apply_data := apply_data f;
     line := line f; vertex := vertex f |}.

Definition set_seq_model (m : SeqModel) (f : Figure) : Figure :=
  {| seq_model := m; lens := lens f; type_sel := type_sel f;
     data_slice := data_slice f; apply_data := apply_data f;
     line := line f; vertex := vertex f |}.

Definition setup_dgm_type (d : dgm_type) (f : Figure) : Figure :=
  match d with
  | ht_dgm =>
      {| seq_model := seq_model f; lens := lens f; type_sel := ht;
         data_slice := {| start := 1; stop := None |};
         apply_data := ht_to_slope; line := line f; vertex := vertex f |}
  | slp_dgm =>
      {| seq_model := seq_model f; lens := lens f; type_sel := slp;
         data_slice := {| start := 0; stop := Some (-1)%Z |};
         apply_data := slope_to_ht; line := line f; vertex := vertex f |}
  end.

Definition on_fig (g : Figure → Figure) : Py World unit :=
  modify (λ w, {| fig := g (fig w); trace := trace w |}).

Definition call (c : Call) : Py World unit :=
  modify (λ w, {| fig := fig w; trace := trace w ++ [c] |}).

(** [self.lens[ray][self.type_sel][self.data_slice]] *)
Definition lens_data (f : Figure) (ray : nat) : outcome (list Q) :=
  row ← getitem (lens f) ray;
  arr ← getitem row (type_sel f);
  Returned (getslice (data_slice f) arr).

(** [self.lens[ray][self.type_sel][i] = v], in place. *)
Definition lens_setitem (ray i : nat) (v : Q) : Py World unit :=
  w ← get;
  l ← lift (row ← getitem (lens (fig w)) ray;
            arr ← getitem row (type_sel (fig w));
            arr' ← setitem arr i v;
            Returned (<[ray := <[type_sel (fig w) := arr']> row]> (lens (fig w))));
  on_fig (set_lens l).

Definition on_press (event : MouseEvent) : Py World unit :=
  w ← get;
  let '(hit, hit_list) := contains (line (fig w)) event in
  if hit then
    x_data ← lift (lens_data (fig w) pr);
    y_data ← lift (lens_data (fig w) ax);
    let pick_radius_sqr := (pickradius (line (fig w)) ^ 2)%Q in
    hit_vertex ← lift (find_hit_vertex x_data y_data event pick_radius_sqr hit_list);
    match hit_vertex with
    | None => mret ()
    | Some hv => on_fig (set_vertex (Some (hv + start (data_slice (fig w)))%nat))
    end
  else mret ().

(** [if self.vertex:] is false for [None] and for the index [0]. *)
Definition truthy (v : option nat) : bool :=
  match v with
  | Some (S _) => true
  | _ => false
  end.

Definition on_release (event : MouseEvent) : Py World unit :=
  w ← get;
  match vertex (fig w) with
  | Some (S n) =>
      let v := S n in
      lens_setitem pr v (ev_xdata event);;
      lens_setitem ax v (ev_ydata event);;
      opt_inv ← gets (λ w, opt_inv_of (seq_model (fig w)));
      on_fig (λ f, set_lens (apply_data f (lens f) v opt_inv) f);;
      call (CallApplyData v opt_inv);;
      on_fig (λ f, set_seq_model (paraxial_lens_to_seq_model (seq_model f) (lens f)) f);;
      call CallLensToSeqModel;;
      on_fig refresh_gui;;
      call CallRefreshGui;;
      on_fig (set_vertex None)
  | _ => mret ()
  end.

Definition update_data (f : Figure) : Figure := set_lens (build_lens (seq_model f)) f.

Definition ParaxialDesignFigure_init (m : SeqModel) (d : dgm_type) : World :=
  {| fig := update_data
              (set_vertex None
                 (setup_dgm_type d
                    {| seq_model := m; lens := []; type_sel := 0;
                       data_slice := {| start := 0; stop := None |};
                       apply_data := ht_to_slope;
                       line := {| xdata := []; ydata := []; pickradius := 0 |};
                       vertex := None |}));
     trace := [] |}.

(** [plot]: the line shows the sliced lens data; [picker=6] is its pick
    radius. *)
Definition plot : Py World unit :=
  w ← get;
  x_data ← lift (lens_data (fig w) pr);
  y_data ← lift (lens_data (fig w) ax);
  on_fig (λ f, {| seq_model := seq_model f; lens := lens f; type_sel := type_sel f;
                  data_slice := data_slice f; apply_data := apply_data f;
                  line := {| xdata := x_data; ydata := y_data; pickradius := 6 |};
                  vertex := vertex f |}).

(** A press followed by its release. *)
Definition press_release (p r : MouseEvent) : Py World unit :=
  on_press p;; on_release r.

(** *** The hit test *)

(** Squared display distance from the cursor to vertex [i] of the data. *)
Definition vertex_dist (x_data y_data : list Q) (event : MouseEvent) (i : nat)
    : option Q :=
  x ← x_data !! i; y ← y_data !! i;
  Some (distance_sqr_2d (transData (x, y)) (ev_x event, ev_y event)).

(** Every candidate index is an index of the data. *)
Definition valid_hits (x_data y_data : list Q) (hit_list : list nat) : Prop :=
  ∀ i, i ∈ hit_list → (i < length x_data)%nat ∧ (i < length y_data)%nat.

(** What the loop computes: a candidate of least distance, taken when that
    distance is below the pick radius squared and below the initial
    [min_hit_dist]. *)
Definition selects (x_data y_data : list Q) (event : MouseEvent) (r2 : Q)
    (hit_list : list nat) (hit_vertex : option nat) : Prop :=
  match hit_vertex with
  | Some v =>
      v ∈ hit_list ∧
      ∃ dv, vertex_dist x_data y_data event v = Some dv ∧
            (dv < r2)%Q ∧ (dv < min_hit_dist0)%Q ∧
            ∀ u du, u ∈ hit_list → vertex_dist x_data y_data event u = Some du →
                    (dv <= du)%Q
  | None =>
      ∀ u du, u ∈ hit_list → vertex_dist x_data y_data event u = Some du →
              (r2 <= du)%Q ∨ (min_hit_dist0 <= du)%Q
  end.

(** [dsp_hits[i]] is the display position of vertex [hit_list[i]]. *)
Definition shown_at (x_data y_data : list Q) (h : nat) (pt : Point) : Prop :=
  ∃ x y, x_data !! h = Some x ∧ y_data !! h = Some y ∧ pt = transData (x, y).

(** The lens after [lens[pr][type_sel][v] = x; lens[ax][type_sel][v] = y]. *)
Definition written (l : Lens) (ts v : nat) (x y : Q) (l2 : Lens) : Prop :=
  ∃ rowp arrp rowa arra,
    l !! pr = Some rowp ∧ rowp !! ts = Some arrp ∧ (v < length arrp)%nat ∧
    <[pr := <[ts := <[v := x]> arrp]> rowp]> l !! ax = Some rowa ∧
    rowa !! ts = Some arra ∧ (v < length arra)%nat ∧
    l2 = <[ax := <[ts := <[v := y]> arra]> rowa]>
           (<[pr := <[ts := <[v := x]> arrp]> rowp]> l).

(** [lens[ray][ts][i]] *)
Definition lens_at (l : Lens) (ray ts i : nat) : option Q :=
  row ← l !! ray; arr ← row !! ts; arr !! i.

(** The press hits nothing: the line does not contain the cursor, or it
    does and no candidate vertex lies within the pick radius. *)
Definition hits_no_vertex (w : World) (p : MouseEvent) : Prop :=
  (∃ hit_list, contains (line (fig w)) p = (false, hit_list))
  ∨ (∃ hit_list x_data y_data,
       contains (line (fig w)) p = (true, hit_list) ∧
       lens_data (fig w) pr = Returned x_data ∧
       lens_data (fig w) ax = Returned y_data ∧
       valid_hits x_data y_data hit_list ∧
       ∀ u du, u ∈ hit_list → vertex_dist x_data y_data p u = Some du →
               (pickradius (line (fig w)) ^ 2 <= du)%Q).

End figure.

(** ** A small diagram to run the handlers on

    Display coordinates are the data coordinates, the distance is the
    Euclidean one, the line contains the cursor when a vertex lies within
    its pick radius, and the sequential model is the lens it was built
    from. *)

Definition sample_distance_sqr_2d (p q : Point) : Q :=
  ((p.1 - q.1) ^ 2 + (p.2 - q.2) ^ 2)%Q.

(** The hit test of a line drawn with segments, as the toolkit's
    [segment_hits] does it: the vertices within the pick radius, then the
    segments the cursor projects onto and lies within the pick radius of,
    unless one of their ends is a hit already. *)
Definition point_hit (l : Line2D) (e : MouseEvent) (i : nat) : bool :=
  match xdata l !! i, ydata l !! i with
  | Some x, Some y =>
      Qle_bool (sample_distance_sqr_2d (x, y) (ev_x e, ev_y e)) (pickradius l ^ 2)
  | _, _ => false
  end.

Definition segment_hit (l : Line2D) (e : MouseEvent) (i : nat) : bool :=
  match xdata l !! i, ydata l !! i, xdata l !! S i, ydata l !! S i with
  | Some x1, Some y1, Some x2, Some y2 =>
      let dx := (x2 - x1)%Q in
      let dy := (y2 - y1)%Q in
      let u := (((ev_x e - x1) * dx + (ev_y e - y1) * dy) / (dx ^ 2 + dy ^ 2))%Q in
      Qle_bool 0 u && Qle_bool u 1
      && negb (point_hit l e i || point_hit l e (S i))
      && Qle_bool (sample_distance_sqr_2d (x1 + u * dx, y1 + u * dy)%Q (ev_x e, ev_y e))
                  (pickradius l ^ 2)
  | _, _, _, _ => false
  end.

Definition sample_contains (l : Line2D) (e : MouseEvent) : bool * list nat :=
  let n := length (xdata l) in
  let ind := List.filter (point_hit l e) (seq 0 n)
             ++ List.filter (segment_hit l e) (seq 0 (n - 1)) in
  (match ind with [] => false | _ => true end, ind).

Definition sample_apply_data (l : Lens) (v : nat) (opt_inv : Q) : Lens := l.

(** A lens with rows [ax = 0], [pr = 1], each a ray with rows [ht = 0],
    [slp = 1]. *)
Definition sample_lens : Lens :=
  [ [ [0; 0; 3; 0]; [1; 2; 3; 4] ];
    [ [0; 0; 4; 60]; [0; 10; 20; 30] ] ]%Q.

Definition cursor (x y : Q) : MouseEvent :=
  {| ev_x := x; ev_y := y; ev_xdata := x; ev_ydata := y;
     ev_button := 1; ev_key := None; ev_inaxes := true |}.

(** The sequential model is the lens; [apply_data] and [refresh_gui] leave
    things as they are, and the optical invariant is 1. *)
Definition sample_collaborators : Collaborators Lens :=
  {| ax := 0; pr := 1; ht := 0; slp := 1;
     distance_sqr_2d := sample_distance_sqr_2d; transData := id;
     contains := sample_contains;
     ht_to_slope := sample_apply_data; slope_to_ht := sample_apply_data;
     build_lens := id; paraxial_lens_to_seq_model := λ _ l, l;
     opt_inv_of := λ _, 1%Q; refresh_gui := id |}.

#[local] Existing Instance sample_collaborators.

(** The height and the slope diagram of the sample lens, plotted. *)
Definition sample_ht_world : World (SeqModel := Lens) :=
  (plot (ParaxialDesignFigure_init sample_lens ht_dgm)).1.

Definition sample_slp_world : World (SeqModel := Lens) :=
  (plot (ParaxialDesignFigure_init sample_lens slp_dgm)).1.

(** A line with a very large pick radius, and a cursor 150000 pixels from
    its only vertex. *)
Definition far_line : Line2D :=
  {| xdata := [0%Q]; ydata := [0%Q]; pickradius := 200000 |}.

Definition far_world : World (SeqModel := Lens) :=
  {| fig := {| seq_model := []; lens := [ [ [9; 0]%Q ]; [ [9; 0]%Q ] ];
               type_sel := 0; data_slice := {| start := 1; stop := None |};
               apply_data := sample_apply_data; line := far_line;
               vertex := None |};
     trace := [] |}.

(** The world after a press on the vertex at (4, 3) of the height diagram. *)
Definition sample_pressed : World (SeqModel := Lens) :=
  (on_press (cursor 3 3) sample_ht_world).1.

End ParaxDgn.

(** * src/rayoptics/mpl/interactivefigure.py *)

Module IFig.

(** [[[x0, y0], [x1, y1]]] *)
Definition BBox : Type := Point * Point.

(** ** Artists

    The style of an artist is what its getters return and its setters
    store.  A polygon has a face colour, an edge colour and a line width; a
    polyline or a vertex has a colour and a line width. *)

Definition RGBA : Type := Q * Q * Q * Q.

Inductive Color :=
  | Named (name : string)
  | Rgba (c : RGBA).

(** The tuple kept in [p.unhilite] while the artist is highlighted. *)
Inductive Saved :=
  | SavedPolygon (fc ec : RGBA) (lw : Q)
  | SavedLine (c : Color) (lw : Q).

(** Which of [create_polygon], [create_polyline], [create_vertex] made the
    artist, and so which pair of closures it carries. *)
Inductive ArtistKind := Polygon | Polyline | Vertex.

Record Artist := {
  kind : ArtistKind;
  facecolor : RGBA;
  edgecolor : RGBA;
  color : Color;
  a_linewidth : Q;
  hilite_color : Color;
  unhilite : attr Saved;
  zorder : Q;
  shape : option (nat * string);
  picker : option Q
}.

Definition set_unhilite (u : attr Saved) (p : Artist) : Artist :=
  {| kind := kind p; facecolor := facecolor p; edgecolor := edgecolor p;
     color := color p; a_linewidth := a_linewidth p;
     hilite_color := hilite_color p; unhilite := u; zorder := zorder p;
     shape := shape p; picker := picker p |}.

Definition set_facecolor (c : RGBA) (p : Artist) : Artist :=
  {| kind := kind p; facecolor := c; edgecolor := edgecolor p;
     color := color p; a_linewidth := a_linewidth p;
     hilite_color := hilite_color p; unhilite := unhilite p; zorder := zorder p;
     shape := shape p; picker := picker p |}.

Definition set_edgecolor (c : RGBA) (p : Artist) : Artist :=
  {| kind := kind p; facecolor := facecolor p; edgecolor := c;
     color := color p; a_linewidth := a_linewidth p;
     hilite_color := hilite_color p; unhilite := unhilite p; zorder := zorder p;
     shape := shape p; picker := picker p |}.

Definition set_color (c : Color) (p : Artist) : Artist :=
  {| kind := kind p; facecolor := facecolor p; edgecolor := edgecolor p;
     color := c; a_linewidth := a_linewidth p;
     hilite_color := hilite_color p; unhilite := unhilite p; zorder := zorder p;
     shape := shape p; picker := picker p |}.

Definition set_linewidth (lw : Q) (p : Artist) : Artist :=
  {| kind := kind p; facecolor := facecolor p; edgecolor := edgecolor p;
     color := color p; a_linewidth := lw;
     hilite_color := hilite_color p; unhilite := unhilite p; zorder := zorder p;
     shape := shape p; picker := picker p |}.

Definition set_picker (r : Q) (p : Artist) : Artist :=
  {| kind := kind p; facecolor := facecolor p; edgecolor := edgecolor p;
     color := color p; a_linewidth := a_linewidth p;
     hilite_color := hilite_color p; unhilite := unhilite p; zorder := zorder p;
     shape := shape p; picker := Some r |}.

Definition black : RGBA := (0, 0, 0, 1)%Q.

(** *** create_polygon *)

Definition polygon_highlight (p : Artist) : Artist :=
  let fc := facecolor p in
  let ec := edgecolor p in
  let lw := a_linewidth p in
  let p := set_unhilite (Has (SavedPolygon fc ec lw)) p in
  let '(r, g, b, a) := fc in
  let alpha := (a + 0.5)%Q in
  let alpha := if Qlt_le_dec 1.0 alpha then (alpha - 1.0)%Q else alpha in
  set_facecolor (r, g, b, alpha) p.

Definition polygon_unhighlight (p : Artist) : outcome Artist :=
  match unhilite p with
  | Has (SavedPolygon fc ec lw) =>
      Returned (set_unhilite PyNone (set_linewidth lw (set_edgecolor ec (set_facecolor fc p))))
  | Has (SavedLine _ _) => Raised ValueError
  | PyNone => Raised TypeError
  | Missing => Raised AttributeError
  end.

(** [fill_color] is the colour after [rgb2mpl]; [kw_linewidth] and
    [kw_zorder] are the keyword arguments of that name, if given. *)
Definition create_polygon (fig_linewidth : Q) (fill_color : RGBA)
    (kw_linewidth kw_zorder : option Q) : Artist :=
  {| kind := Polygon; facecolor := fill_color; edgecolor := black;
     color := Rgba fill_color;
     a_linewidth := default fig_linewidth kw_linewidth;
     hilite_color := Named "red"; unhilite := Missing;
     zorder := default 1%Q kw_zorder; shape := None; picker := None |}.

(** *** create_polyline and create_vertex *)

Definition line_highlight (p : Artist) : Artist :=
  let lw := a_linewidth p in
  let c := color p in
  let p := set_unhilite (Has (SavedLine c lw)) p in
  set_color (hilite_color p) (set_linewidth 2 p).

Definition line_unhighlight (p : Artist) : outcome Artist :=
  match unhilite p with
  | Has (SavedLine c lw) =>
      Returned (set_unhilite PyNone (set_color c (set_linewidth lw p)))
  | Has (SavedPolygon _ _ _) => Raised ValueError
  | PyNone => Raised TypeError
  | Missing => Raised AttributeError
  end.

(** [kw_hilite] is the keyword argument [hilite], [kw_color] the colour of
    the line. *)
Definition create_line (k : ArtistKind) (fig_linewidth : Q) (kw_color : Color)
    (kw_hilite : option Color) (kw_linewidth kw_zorder : option Q) : Artist :=
  {| kind := k; facecolor := black; edgecolor := black; color := kw_color;
     a_linewidth := default fig_linewidth kw_linewidth;
     hilite_color := default (Named "red") kw_hilite; unhilite := Missing;
     zorder := default 2%Q kw_zorder; shape := None; picker := None |}.

Definition create_polyline := create_line Polyline.
Definition create_vertex := create_line Vertex.

(** [p.highlight(p)] and [p.unhighlight(p)] *)
Definition highlight (p : Artist) : Artist :=
  match kind p with
  | Polygon => polygon_highlight p
  | Polyline | Vertex => line_highlight p
  end.

Definition unhighlight (p : Artist) : outcome Artist :=
  match kind p with
  | Polygon => polygon_unhighlight p
  | Polyline | Vertex => line_unhighlight p
  end.

(** ** Axes, canvas and figure *)

(** The axes: their limits and, in order, the artists that the figure has
    added to them.  (What the toolkit adds of its own, such as the spines
    and the axis lines, carries no [shape], and
    [find_artists_at_location] passes over it.) *)
Record Axes := { xlim : Q * Q; ylim : Q * Q; children : list nat }.

(** [get_xbound], [get_ybound]: the limits in increasing order. *)
Definition get_bound (lim : Q * Q) : Q * Q :=
  if Qlt_le_dec lim.1 lim.2 then lim else (lim.2, lim.1).

(** [set_xlim], [set_ylim] keep the pair they are given.  This idealises
    the toolkit for a degenerate box: matplotlib widens a pair of equal
    limits before it keeps them. *)
Definition set_xlim (l r : Q) (a : Axes) : Axes :=
  {| xlim := (l, r); ylim := ylim a; children := children a |}.

Definition set_ylim (b t : Q) (a : Axes) : Axes :=
  {| xlim := xlim a; ylim := (b, t); children := children a |}.

Definition cla (a : Axes) : Axes :=
  {| xlim := (0, 1)%Q; ylim := (0, 1)%Q; children := [] |}.

Definition add_artist (id : nat) (a : Axes) : Axes :=
  {| xlim := xlim a; ylim := ylim a; children := children a ++ [id] |}.

Definition add_subplot : Axes :=
  {| xlim := (0, 1)%Q; ylim := (0, 1)%Q; children := [] |}.

Inductive Handler :=
  | FigOnPress
  | FigOnRelease
  | FigOnMotion
  | Callback (n : nat).

(** The canvas keeps what [mpl_connect] registered, by connection id. *)
Record Canvas := { next_cid : nat; callbacks : gmap nat (string * Handler) }.

Definition mpl_connect (event : string) (action : Handler) (c : Canvas)
    : Canvas * nat :=
  ({| next_cid := S (next_cid c);
      callbacks := <[next_cid c := (event, action)]> (callbacks c) |},
   next_cid c).

Definition mpl_disconnect (cid : nat) (c : Canvas) : Canvas :=
  {| next_cid := next_cid c; callbacks := delete cid (callbacks c) |}.

(** The [info] dictionary of [contains]: its ['ind'] entry, if any. *)
Definition Info : Type := option (list nat).

Record SelectInfo := { artist : nat; info : Info }.

Inductive EventKey := Press | Drag | Release.

(** [PanAction]: its three actions are fixed, its state is the button. *)
Record PanAction := { button_pressed : attr nat }.

(** The values [self.do_action] takes: the bound [do_shape_action], the
    [do_command_action] of [register_action] closing over an action
    object, and the empty [do_command_action] of [register_zoom_box]. *)
Inductive Action :=
  | DoShapeAction
  | DoCommandAction (action_obj : PanAction)
  | DoNothing.

Record ZoomBoxAction := { saved_events : gmap string Handler }.

(** ** The aspect of the figure

    [self.aspect] is ['equal'], ['auto'] or a number;
    [is_unit_aspect_ratio] is a property over it. *)

Inductive Aspect :=
  | AspectName (name : string)
  | AspectRatio (ratio : Q).

(** The getter: [self.aspect == 'equal']. *)
Definition is_unit_aspect_ratio (aspect : Aspect) : bool :=
  match aspect with
  | AspectName name => bool_decide (name = "equal")
  | AspectRatio _ => false
  end.

(** The setter: [self.aspect = 'equal' if value else 'auto']. *)
Definition set_is_unit_aspect_ratio (value : bool) : Aspect :=
  AspectName (if value then "equal" else "auto").

(** ** What else [plot] asks of the axes

    Besides clearing the axes, adding the artists and setting the limits,
    [plot] sets the aspect, draws or hides the frame (laying the figure out
    tightly when it is hidden), colours the background and draws the grid,
    the axis lines and the labels.  None of these calls adds an artist that
    carries a [shape], so the [children] that [find_artists_at_location]
    looks at stay as they are; what the calls do to the limits of the axes
    is the toolkit's: with [adjustable='datalim'] it fits the limits to the
    aspect when it lays the axes out. *)

Inductive AxesCall :=
  | SetAspect (aspect : Aspect)
  | SetAxisOn
  | SetAxisOff
  | TightLayout
  | SetFacecolor
  | Grid (b : bool)
  | Axvline
  | Axhline
  | SetTitle (label : string)
  | SetXlabel (label : string)
  | SetYlabel (label : string).

(** The x and the y limits of the axes. *)
Definition Limits : Type := (Q * Q) * (Q * Q).

Definition with_limits (l : Limits) (a : Axes) : Axes :=
  {| xlim := l.1; ylim := l.2; children := children a |}.

(** Artists are objects shared between [self.artists], the axes and the
    [SelectInfo] tuples: [store] maps an object to its state. *)
Record Fig := {
  linewidth : Q;
  oversize_factor : Q;
  hilited : option SelectInfo;
  selected : option SelectInfo;
  do_scale_bounds : bool;
  save_do_scale_bounds : attr bool;
  do_action : Action;
  event_dict : gmap string Handler;
  callback_ids : attr (list nat);
  on_finished : option nat;
  view_bbox : option BBox;
  sys_bbox : option BBox;
  artists : list nat;
  store : gmap nat Artist;
  ax : option Axes;
  canvas : Canvas;
  zoom_box_action : option ZoomBoxAction;
  aspect : Aspect;
  do_draw_frame : bool;
  do_draw_axes : bool;
  header : option string;
  x_label : option string;
  y_label : option string
}.

Definition set_hilited (v : option SelectInfo) (f : Fig) : Fig :=
  {| linewidth := linewidth f; oversize_factor := oversize_factor f;
     hilited := v; selected := selected f;
     do_scale_bounds := do_scale_bounds f;
     save_do_scale_bounds := save_do_scale_bounds f;
     do_action := do_action f; event_dict := event_dict f;
     callback_ids := callback_ids f; on_finished := on_finished f;
     view_bbox := view_bbox f; sys_bbox := sys_bbox f; artists := artists f;
     store := store f; ax := ax f; canvas := canvas f;
     zoom_box_action := zoom_box_action f;
     aspect := aspect f; do_draw_frame := do_draw_frame f;
     do_draw_axes := do_draw_axes f; header := header f;
     x_label := x_label f; y_label := y_label f |}.

Definition set_selected (v : option SelectInfo) (f : Fig) : Fig :=
  {| linewidth := linewidth f; oversize_factor := oversize_factor f;
     hilited := hilited f; selected := v;
     do_scale_bounds := do_scale_bounds f;
     save_do_scale_bounds := save_do_scale_bounds f;
     do_action := do_action f; event_dict := event_dict f;
     callback_ids := callback_ids f; on_finished := on_finished f;
     view_bbox := view_bbox f; sys_bbox := sys_bbox f; artists := artists f;
     store := store f; ax := ax f; canvas := canvas f;
     zoom_box_action := zoom_box_action f;
     aspect := aspect f; do_draw_frame := do_draw_frame f;
     do_draw_axes := do_draw_axes f; header := header f;
     x_label := x_label f; y_label := y_label f |}.

Definition set_do_scale_bounds (v : bool) (f : Fig) : Fig :=
  {| linewidth := linewidth f; oversize_factor := oversize_factor f;
     hilited := hilited f; selected := selected f; do_scale_bounds := v;
     save_do_scale_bounds := save_do_scale_bounds f;
     do_action := do_action f; event_dict := event_dict f;
     callback_ids := callback_ids f; on_finished := on_finished f;
     view_bbox := view_bbox f; sys_bbox := sys_bbox f; artists := artists f;
     store := store f; ax := ax f; canvas := canvas f;
     zoom_box_action := zoom_box_action f;
     aspect := aspect f; do_draw_frame := do_draw_frame f;
     do_draw_axes := do_draw_axes f; header := header f;
     x_label := x_label f; y_label := y_label f |}.

Definition set_save_do_scale_bounds (v : attr bool) (f : Fig) : Fig :=
  {| linewidth := linewidth f; oversize_factor := oversize_factor f;
     hilited := hilited f; selected := selected f;
     do_scale_bounds := do_scale_bounds f; save_do_scale_bounds := v;
     do_action := do_action f; event_dict := event_dict f;
     callback_ids := callback_ids f; on_finished := on_finished f;
     view_bbox := view_bbox f; sys_bbox := sys_bbox f; artists := artists f;
     store := store f; ax := ax f; canvas := canvas f;
     zoom_box_action := zoom_box_action f;
     aspect := aspect f; do_draw_frame := do_draw_frame f;
     do_draw_axes := do_draw_axes f; header := header f;
     x_label := x_label f; y_label := y_label f |}.

Definition set_do_action (v : Action) (f : Fig) : Fig :=
  {| linewidth := linewidth f; oversize_factor := oversize_factor f;
     hilited := hilited f; selected := selected f;
     do_scale_bounds := do_scale_bounds f;
     save_do_scale_bounds := save_do_scale_bounds f; do_action := v;
     event_dict := event_dict f; callback_ids := callback_ids f;
     on_finished := on_finished f; view_bbox := view_bbox f;
     sys_bbox := sys_bbox f; artists := artists f; store := store f;
     ax := ax f; canvas := canvas f; zoom_box_action := zoom_box_action f;
     aspect := aspect f; do_draw_frame := do_draw_frame f;
     do_draw_axes := do_draw_axes f; header := header f;
     x_label := x_label f; y_label := y_label f |}.

Definition set_event_dict (v : gmap string Handler) (f : Fig) : Fig :=
  {| linewidth := linewidth f; oversize_factor := oversize_factor f;
     hilited := hilited f; selected := selected f;
     do_scale_bounds := do_scale_bounds f;
     save_do_scale_bounds := save_do_scale_bounds f;
     do_action := do_action f; event_dict := v;
     callback_ids := callback_ids f; on_finished := on_finished f;
     view_bbox := view_bbox f; sys_bbox := sys_bbox f; artists := artists f;
     store := store f; ax := ax f; canvas := canvas f;
     zoom_box_action := zoom_box_action f;
     aspect := aspect f; do_draw_frame := do_draw_frame f;
     do_draw_axes := do_draw_axes f; header := header f;
     x_label := x_label f; y_label := y_label f |}.

Definition set_callback_ids (v : attr (list nat)) (f : Fig) : Fig :=
  {| linewidth := linewidth f; oversize_factor := oversize_factor f;
     hilited := hilited f; selected := selected f;
     do_scale_bounds := do_scale_bounds f;
     save_do_scale_bounds := save_do_scale_bounds f;
     do_action := do_action f; event_dict := event_dict f;
     callback_ids := v; on_finished := on_finished f;
     view_bbox := view_bbox f; sys_bbox := sys_bbox f; artists := artists f;
     store := store f; ax := ax f; canvas := canvas f;
     zoom_box_action := zoom_box_action f;
     aspect := aspect f; do_draw_frame := do_draw_frame f;
     do_draw_axes := do_draw_axes f; header := header f;
     x_label := x_label f; y_label := y_label f |}.

Definition set_on_finished (v : option nat) (f : Fig) : Fig :=
  {| linewidth := linewidth f; oversize_factor := oversize_factor f;
     hilited := hilited f; selected := selected f;
     do_scale_bounds := do_scale_bounds f;
     save_do_scale_bounds := save_do_scale_bounds f;
     do_action := do_action f; event_dict := event_dict f;
     callback_ids := callback_ids f; on_finished := v;
     view_bbox := view_bbox f; sys_bbox := sys_bbox f; artists := artists f;
     store := store f; ax := ax f; canvas := canvas f;
     zoom_box_action := zoom_box_action f;
     aspect := aspect f; do_draw_frame := do_draw_frame f;
     do_draw_axes := do_draw_axes f; header := header f;
     x_label := x_label f; y_label := y_label f |}.

Definition set_view_bbox_field (v : option BBox) (f : Fig) : Fig :=
  {| linewidth := linewidth f; oversize_factor := oversize_factor f;
     hilited := hilited f; selected := selected f;
     do_scale_bounds := do_scale_bounds f;
     save_do_scale_bounds := save_do_scale_bounds f;
     do_action := do_action f; event_dict := event_dict f;
     callback_ids := callback_ids f; on_finished := on_finished f;
     view_bbox := v; sys_bbox := sys_bbox f; artists := artists f;
     store := store f; ax := ax f; canvas := canvas f;
     zoom_box_action := zoom_box_action f;
     aspect := aspect f; do_draw_frame := do_draw_frame f;
     do_draw_axes := do_draw_axes f; header := header f;
     x_label := x_label f; y_label := y_label f |}.

Definition set_store (v : gmap nat Artist) (f : Fig) : Fig :=
  {| linewidth := linewidth f; oversize_factor := oversize_factor f;
     hilited := hilited f; selected := selected f;
     do_scale_bounds := do_scale_bounds f;
     save_do_scale_bounds := save_do_scale_bounds f;
     do_action := do_action f; event_dict := event_dict f;
     callback_ids := callback_ids f; on_finished := on_finished f;
     view_bbox := view_bbox f; sys_bbox := sys_bbox f; artists := artists f;
     store := v; ax := ax f; canvas := canvas f;
     zoom_box_action := zoom_box_action f;
     aspect := aspect f; do_draw_frame := do_draw_frame f;
     do_draw_axes := do_draw_axes f; header := header f;
     x_label := x_label f; y_label := y_label f |}.

Definition set_ax (v : option Axes) (f : Fig) : Fig :=
  {| linewidth := linewidth f; oversize_factor := oversize_factor f;
     hilited := hilited f; selected := selected f;
     do_scale_bounds := do_scale_bounds f;
     save_do_scale_bounds := save_do_scale_bounds f;
     do_action := do_action f; event_dict := event_dict f;
     callback_ids := callback_ids f; on_finished := on_finished f;
     view_bbox := view_bbox f; sys_bbox := sys_bbox f; artists := artists f;
     store := store f; ax := v; canvas := canvas f;
     zoom_box_action := zoom_box_action f;
     aspect := aspect f; do_draw_frame := do_draw_frame f;
     do_draw_axes := do_draw_axes f; header := header f;
     x_label := x_label f; y_label := y_label f |}.

Definition set_canvas (v : Canvas) (f : Fig) : Fig :=
  {| linewidth := linewidth f; oversize_factor := oversize_factor f;
     hilited := hilited f; selected := selected f;
     do_scale_bounds := do_scale_bounds f;
     save_do_scale_bounds := save_do_scale_bounds f;
     do_action := do_action f; event_dict := event_dict f;
     callback_ids := callback_ids f; on_finished := on_finished f;
     view_bbox := view_bbox f; sys_bbox := sys_bbox f; artists := artists f;
     store := store f; ax := ax f; canvas := v;
     zoom_box_action := zoom_box_action f;
     aspect := aspect f; do_draw_frame := do_draw_frame f;
     do_draw_axes := do_draw_axes f; header := header f;
     x_label := x_label f; y_label := y_label f |}.

Definition set_zoom_box_action (v : option ZoomBoxAction) (f : Fig) : Fig :=
  {| linewidth := linewidth f; oversize_factor := oversize_factor f;
     hilited := hilited f; selected := selected f;
     do_scale_bounds := do_scale_bounds f;
     save_do_scale_bounds := save_do_scale_bounds f;
     do_action := do_action f; event_dict := event_dict f;
     callback_ids := callback_ids f; on_finished := on_finished f;
     view_bbox := view_bbox f; sys_bbox := sys_bbox f; artists := artists f;
     store := store f; ax := ax f; canvas := canvas f; zoom_box_action := v;
     aspect := aspect f; do_draw_frame := do_draw_frame f;
     do_draw_axes := do_draw_axes f; header := header f;
     x_label := x_label f; y_label := y_label f |}.

Definition InteractiveFigure_init (do_draw_frame do_draw_axes : bool)
    (oversize : Q) (aspect : Aspect) (bbox : option BBox)
    (scale : bool) (c : Canvas) : Fig :=
  {| linewidth := 0.5; oversize_factor := oversize; hilited := None;
     selected := None; do_scale_bounds := scale;
     save_do_scale_bounds := Missing; do_action := DoShapeAction;
     event_dict := ∅; callback_ids := Missing; on_finished := None;
     view_bbox := bbox; sys_bbox := None; artists := []; store := ∅;
     ax := None; canvas := c; zoom_box_action := None;
     aspect := aspect; do_draw_frame := do_draw_frame;
     do_draw_axes := do_draw_axes; header := None; x_label := None;
     y_label := None |}.

(** [sorted(artists, key=zorder, reverse=True)]: a stable sort, so an
    artist stays ahead of the later ones of the same z-order. *)
Fixpoint insert_desc {A} (key : A → Q) (x : A) (l : list A) : list A :=
  match l with
  | [] => [x]
  | y :: l' =>
      if Qlt_le_dec (key x) (key y) then y :: insert_desc key x l'
      else x :: y :: l'
  end.

Definition sorted_desc {A} (key : A → Q) (l : list A) : list A :=
  foldr (insert_desc key) [] l.

(** The toolkit and the callbacks: an artist's hit test, the limits the
    axes have after one of the calls of [AxesCall], the panning of the
    axes, the rubber-band widget, [scale_bounds] of rayoptics.gui.util,
    the action [shape.actions[event_key]] of the shape an artist belongs to
    (if it has one), and the [on_finished] callbacks. *)
Class Toolkit := {
  contains : Axes → nat → Artist → MouseEvent → bool * Info;
  axes_call : AxesCall → Axes → Limits;
  start_pan : Q → Q → nat → Axes → Axes;
  drag_pan : nat → option string → Q → Q → Axes → Axes;
  end_pan : Axes → Axes;
  rubber_box_connect : Canvas → Canvas;
  rubber_box_disconnect : Canvas → Canvas;
  scale_bounds : BBox → Q → BBox;
  shape_action : nat → EventKey → option (string → MouseEvent → Info → Fig → Fig);
  run_on_finished : nat → Fig → Fig
}.

Section figure.
Context `{!Toolkit}.

(** *** Events *)

Definition default_action_dict : gmap string Handler :=
  {[ "button_press_event" := FigOnPress;
     "button_release_event" := FigOnRelease;
     "motion_notify_event" := FigOnMotion ]}.

(** One turn of the loop of [connect_events]. *)
Definition connect_event (f : Fig) (ea : string * Handler) : Fig :=
  let '(event, action) := ea in
  let f := set_event_dict (<[event := action]> (event_dict f)) f in
  let '(c, cid) := mpl_connect event action (canvas f) in
  let f := set_canvas c f in
  match callback_ids f with
  | Has ids => set_callback_ids (Has (ids ++ [cid])) f
  | _ => f
  end.

Definition connect_events (action_dict : option (gmap string Handler))
    (f : Fig) : Fig :=
  let action_dict := default default_action_dict action_dict in
  foldl connect_event (set_callback_ids (Has []) f) (map_to_list action_dict).

Definition disconnect_events : Py Fig (gmap string Handler) :=
  f ← get;
  match callback_ids f with
  | Has ids =>
      modify (set_canvas (foldl (λ c clbk, mpl_disconnect clbk c) (canvas f) ids));;
      modify (set_callback_ids PyNone);;
      modify (set_event_dict ∅);;
      mret (event_dict f)
  | PyNone => lift (Raised TypeError)
  | Missing => lift (Raised AttributeError)
  end.

Definition action_complete (f : Fig) : Fig :=
  match on_finished f with
  | Some cb => set_on_finished None (run_on_finished cb f)
  | None => f
  end.

Definition register_pan (cb : nat) (f : Fig) : Fig :=
  set_on_finished (Some cb)
    (set_do_action (DoCommandAction {| button_pressed := Missing |}) f).

(** *** View *)

Definition update_axis_limits (bbox : option BBox) : Py Fig unit :=
  f ← get;
  match ax f with
  | None => lift (Raised AttributeError)
  | Some a =>
      match bbox with
      | None => lift (Raised TypeError)
      | Some b =>
          modify (set_ax (Some (set_ylim b.1.2 b.2.2 (set_xlim b.1.1 b.2.1 a))))
      end
  end.

Definition set_view_bbox (bbox : option BBox) : Py Fig unit :=
  modify (set_view_bbox_field bbox);;
  update_axis_limits bbox.

(** [self.ax.<call>(...)] for a call of [AxesCall]: the axes keep their
    children and get the limits the toolkit answers. *)
Definition called (c : AxesCall) (a : Axes) : Axes :=
  with_limits (axes_call c a) a.

Definition call_axes (c : AxesCall) : Py Fig unit :=
  f ← get;
  match ax f with
  | None => lift (Raised AttributeError)
  | Some a => modify (set_ax (Some (called c a)))
  end.

(** [self.tight_layout(pad=0.)], a method of the figure: it lays out the
    axes the figure has. *)
Definition tight_layout : Py Fig unit :=
  modify (λ f, set_ax (called TightLayout <$> ax f) f).

Definition draw_frame (do_draw_frame : bool) : Py Fig unit :=
  if do_draw_frame then call_axes SetAxisOn
  else
    call_axes SetAxisOff;;
    tight_layout.

(** [if hasattr(self, label): self.ax.<call>(self.<label>)] *)
Definition draw_label (label : option string) (c : string → AxesCall)
    : Py Fig unit :=
  match label with
  | Some l => call_axes (c l)
  | None => mret ()
  end.

Definition draw_axes (do_draw_axes : bool) : Py Fig unit :=
  if do_draw_axes then
    call_axes (Grid true);;
    call_axes Axvline;;
    call_axes Axhline;;
    f ← get;
    draw_label (header f) SetTitle;;
    draw_label (x_label f) SetXlabel;;
    draw_label (y_label f) SetYlabel
  else call_axes (Grid false).

(** What [draw_frame], [set_facecolor] and [draw_axes] make of the axes
    that [update_axis_limits] left. *)
Definition frame_drawn (do_draw_frame : bool) (a : Axes) : Axes :=
  if do_draw_frame then called SetAxisOn a
  else called TightLayout (called SetAxisOff a).

Definition label_drawn (label : option string) (c : string → AxesCall)
    (a : Axes) : Axes :=
  match label with
  | Some l => called (c l) a
  | None => a
  end.

Definition axes_drawn (f : Fig) (a : Axes) : Axes :=
  if do_draw_axes f then
    label_drawn (y_label f) SetYlabel
      (label_drawn (x_label f) SetXlabel
         (label_drawn (header f) SetTitle
            (called Axhline (called Axvline (called (Grid true) a)))))
  else called (Grid false) a.

Definition finished (f : Fig) (a : Axes) : Axes :=
  axes_drawn f (called SetFacecolor (frame_drawn (do_draw_frame f) a)).


(** [plot]: the axes are cleared (or made), the artists made pickable and
    added, the view box rescaled if [do_scale_bounds] says so, the aspect
    set, the axis limits set from the view box, the frame, the background
    and the axes drawn and the events connected.  [canvas.draw_idle()]
    asks for a redraw once control is back in the event loop; it changes
    nothing here. *)
Definition plot : Py Fig unit :=
  modify (λ f, set_ax (Some (match ax f with Some a => cla a | None => add_subplot end)) f);;
  modify (λ f, foldl (λ f a,
                    set_ax (add_artist a <$> ax f)
                      (set_store (alter (set_picker 5) a (store f)) f))
                 f (artists f));;
  f ← get;
  (if do_scale_bounds f then
     match sys_bbox f with
     | Some sb => modify (set_view_bbox_field (Some (scale_bounds sb (oversize_factor f))))
     | None => lift (Raised AttributeError)
     end
   else mret ());;
  f ← get;
  call_axes (SetAspect (aspect f));;
  f ← get;
  update_axis_limits (view_bbox f);;
  f ← get;
  draw_frame (do_draw_frame f);;
  call_axes SetFacecolor;;
  f ← get;
  draw_axes (do_draw_axes f);;
  modify (connect_events None).

Definition zoom (factor : Q) : Py Fig unit :=
  f ← get;
  match view_bbox f with
  | None => lift (Raised TypeError)
  | Some bbox =>
      let hlf_x := ((bbox.2.1 - bbox.1.1) / 2)%Q in
      let hlf_y := ((bbox.2.2 - bbox.1.2) / 2)%Q in
      let cen_x := ((bbox.2.1 + bbox.1.1) / 2)%Q in
      let cen_y := ((bbox.2.2 + bbox.1.2) / 2)%Q in
      let hlf_x := (hlf_x * factor)%Q in
      let hlf_y := (hlf_y * factor)%Q in
      let view_bbox := ((cen_x - hlf_x, cen_y - hlf_y),
                        (cen_x + hlf_x, cen_y + hlf_y))%Q in
      set_view_bbox (Some view_bbox);;
      plot
  end.

Definition zoom_in : Py Fig unit := zoom 0.8.
Definition zoom_out : Py Fig unit := zoom 1.2.

(** *** Picking *)

Definition zorder_of (st : gmap nat Artist) (s : SelectInfo) : Q :=
  match st !! artist s with
  | Some p => zorder p
  | None => 0
  end.

(** The [SelectInfo] of a child of the axes, when it carries a [shape]
    and contains the event. *)
Definition select_info (f : Fig) (a : Axes) (event : MouseEvent) (id : nat)
    : option SelectInfo :=
  match store f !! id with
  | Some p =>
      match shape p with
      | Some _ =>
          let '(inside, i) := contains a id p event in
          if inside then Some {| artist := id; info := i |} else None
      | None => None
      end
  | None => None
  end.

Definition find_artists_at_location (event : MouseEvent)
    : Py Fig (list SelectInfo) :=
  f ← get;
  match ax f with
  | None => lift (Raised AttributeError)
  | Some a =>
      let artists := omap (select_info f a event) (children a) in
      mret (sorted_desc (zorder_of (store f)) artists)
  end.

(** [artist.highlight(artist)], [artist.unhighlight(artist)] on the
    shared object. *)
Definition artist_highlight (id : nat) : Py Fig unit :=
  f ← get;
  match store f !! id with
  | Some p => modify (set_store (<[id := highlight p]> (store f)))
  | None => lift (Raised AttributeError)
  end.

Definition artist_unhighlight (id : nat) : Py Fig unit :=
  f ← get;
  match store f !! id with
  | Some p =>
      p' ← lift (unhighlight p);
      modify (set_store (<[id := p']> (store f)))
  | None => lift (Raised AttributeError)
  end.

(** *** Actions *)

Definition do_shape_action (event : MouseEvent) (target : option SelectInfo)
    (event_key : EventKey) : Py Fig unit :=
  match target with
  | None => mret ()
  | Some t =>
      f ← get;
      match store f !! artist t ≫= shape with
      | None => lift (Raised AttributeError)
      | Some (shp, handle) =>
          match shape_action shp event_key with
          | Some action => modify (action handle event (info t))
          | None => mret ()
          end
      end
  end.

Definition PanAction_on_press (self : PanAction) (event : MouseEvent)
    : Py Fig unit :=
  modify (set_do_action (DoCommandAction {| button_pressed := Has (ev_button event) |}));;
  f ← get;
  match ax f with
  | None => lift (Raised AttributeError)
  | Some a =>
      modify (set_ax (Some (start_pan (ev_x event) (ev_y event) (ev_button event) a)))
  end.

Definition PanAction_on_drag (self : PanAction) (event : MouseEvent)
    : Py Fig unit :=
  f ← get;
  match ax f with
  | None => lift (Raised AttributeError)
  | Some a =>
      match button_pressed self with
      | Has b =>
          modify (set_ax (Some (drag_pan b (ev_key event) (ev_x event) (ev_y event) a)))
      | _ => lift (Raised AttributeError)
      end
  end.

Definition PanAction_on_release (self : PanAction) (event : MouseEvent)
    : Py Fig unit :=
  f ← get;
  match ax f with
  | None => lift (Raised AttributeError)
  | Some a =>
      modify (set_ax (Some (end_pan a)));;
      f ← get;
      match ax f with
      | None => lift (Raised AttributeError)
      | Some a =>
          let '(x_min, x_max) := get_bound (xlim a) in
          let '(y_min, y_max) := get_bound (ylim a) in
          modify (set_view_bbox_field (Some ((x_min, y_min), (x_max, y_max))))
      end
  end.

Definition PanAction_actions (self : PanAction) (event_key : EventKey)
    : MouseEvent → Py Fig unit :=
  match event_key with
  | Press => PanAction_on_press self
  | Drag => PanAction_on_drag self
  | Release => PanAction_on_release self
  end.

(** [self.do_action(event, target, event_key)] *)
Definition call_do_action (event : MouseEvent) (target : option SelectInfo)
    (event_key : EventKey) : Py Fig unit :=
  f ← get;
  match do_action f with
  | DoShapeAction => do_shape_action event target event_key
  | DoCommandAction action_obj => PanAction_actions action_obj event_key event
  | DoNothing => mret ()
  end.

(** *** The mouse handlers *)

Definition on_press (event : MouseEvent) : Py Fig unit :=
  modify (λ f, set_save_do_scale_bounds (Has (do_scale_bounds f)) f);;
  modify (set_do_scale_bounds false);;
  modify (λ f, set_selected (hilited f) f);;
  target_artist ← gets selected;
  call_do_action event target_artist Press.

Definition on_motion (event : MouseEvent) : Py Fig unit :=
  f ← get;
  match selected f with
  | None =>
      artists ← find_artists_at_location event;
      let next_hilited := head artists in
      let cur_art := artist <$> hilited f in
      let nxt_art := artist <$> next_hilited in
      if decide (nxt_art = cur_art) then mret ()
      else
        match hilited f with
        | Some h => artist_unhighlight (artist h)
        | None => mret ()
        end;;
        match next_hilited with
        | Some n => artist_highlight (artist n)
        | None => mret ()
        end;;
        modify (set_hilited next_hilited)
  | Some sel =>
      call_do_action event (Some sel) Drag;;
      f ← get;
      match selected f with
      | Some s =>
          match store f !! artist s ≫= shape with
          | Some _ => mret ()
          | None => lift (Raised AttributeError)
          end
      | None => lift (Raised AttributeError)
      end
  end.

Definition on_release (event : MouseEvent) : Py Fig unit :=
  sel ← gets selected;
  call_do_action event sel Release;;
  f ← get;
  match save_do_scale_bounds f with
  | Has b =>
      modify (set_do_scale_bounds b);;
      modify (set_selected None);;
      modify action_complete
  | _ => lift (Raised AttributeError)
  end.

(** *** ZoomBoxAction *)

Definition ZoomBoxAction_init : Py Fig ZoomBoxAction :=
  saved ← disconnect_events;
  f ← get;
  match ax f with
  | None => lift (Raised AttributeError)
  | Some _ =>
      modify (λ f, set_canvas (rubber_box_connect (canvas f)) f);;
      mret {| saved_events := saved |}
  end.

Definition ZoomBoxAction_on_release (self : ZoomBoxAction)
    (press_event release_event : MouseEvent) : Py Fig unit :=
  let bbox := ((ev_xdata press_event, ev_ydata press_event),
               (ev_xdata release_event, ev_ydata release_event)) in
  set_view_bbox (Some bbox);;
  modify (λ f, set_canvas (rubber_box_disconnect (canvas f)) f);;
  modify (connect_events (Some (saved_events self)));;
  modify action_complete.

Definition register_zoom_box (cb : nat) : Py Fig unit :=
  z ← ZoomBoxAction_init;
  modify (set_zoom_box_action (Some z));;
  modify (set_do_action DoNothing);;
  modify (set_on_finished (Some cb)).

(** The toolkit delivers an event to its handler and carries on with the
    figure as the handler left it, also when the handler raised. *)
Inductive GuiEvent :=
  | ButtonPress (e : MouseEvent)
  | MotionNotify (e : MouseEvent)
  | ButtonRelease (e : MouseEvent).

Definition dispatch (f : Fig) (g : GuiEvent) : Fig :=
  match g with
  | ButtonPress e => (on_press e f).1
  | MotionNotify e => (on_motion e f).1
  | ButtonRelease e => (on_release e f).1
  end.

Definition run_events (f : Fig) (l : list GuiEvent) : Fig := foldl dispatch f l.

(** The box [plot] takes the axis limits from. *)
Definition plotted_bbox (f : Fig) : option BBox :=
  if do_scale_bounds f then
    sb ← sys_bbox f; Some (scale_bounds sb (oversize_factor f))
  else view_bbox f.

(** The axes [plot] leaves when it takes the limits from the box [b]: the
    fresh axes with the artists, after [set_aspect], [set_xlim],
    [set_ylim] and the drawing of the frame and the axes. *)
Definition plotted_axes (f : Fig) (b : BBox) : Axes :=
  finished f
    (set_ylim b.1.2 b.2.2
       (set_xlim b.1.1 b.2.1
          (called (SetAspect (aspect f))
             {| xlim := (0, 1)%Q; ylim := (0, 1)%Q; children := artists f |}))).

(** The centre and the half-widths of a box, as [zoom] computes them. *)
Definition cen_x (b : BBox) : Q := ((b.2.1 + b.1.1) / 2)%Q.
Definition cen_y (b : BBox) : Q := ((b.2.2 + b.1.2) / 2)%Q.
Definition hlf_x (b : BBox) : Q := ((b.2.1 - b.1.1) / 2)%Q.
Definition hlf_y (b : BBox) : Q := ((b.2.2 - b.1.2) / 2)%Q.

Definition zoomed (factor : Q) (bbox : BBox) : BBox :=
  ((cen_x bbox - hlf_x bbox * factor, cen_y bbox - hlf_y bbox * factor),
   (cen_x bbox + hlf_x bbox * factor, cen_y bbox + hlf_y bbox * factor))%Q.

(** *** Highlighted artists *)

Definition highlighted (p : Artist) : Prop := is_Has (unhilite p).

(** The saved tuple is the one the artist's own [highlight] writes. *)
Definition well_saved (p : Artist) : Prop :=
  match unhilite p with
  | Has (SavedPolygon _ _ _) => kind p = Polygon
  | Has (SavedLine _ _) => kind p ≠ Polygon
  | _ => True
  end.

(** At most one artist is highlighted, the one [self.hilited] refers to;
    it exists, and every saved tuple fits its artist. *)
Record hilite_inv (f : Fig) : Prop := {
  inv_hilited : ∀ id p, store f !! id = Some p →
                        (highlighted p ↔ artist <$> hilited f = Some id);
  inv_present : ∀ h, hilited f = Some h → is_Some (store f !! artist h);
  inv_saved : ∀ id p, store f !! id = Some p → well_saved p
}.

(** The artists at the cursor: the children of the axes that carry a shape
    and contain the event. *)
Definition at_cursor (f : Fig) (a : Axes) (event : MouseEvent) (id : nat) : Prop :=
  id ∈ children a ∧
  ∃ p, store f !! id = Some p ∧ is_Some (shape p) ∧ (contains a id p event).1 = true.

(** The artist [on_motion] turns to: the first of the sorted hits. *)
Definition next_hilited (f : Fig) (a : Axes) (event : MouseEvent) : option SelectInfo :=
  head (sorted_desc (zorder_of (store f))
          (omap (select_info f a event) (children a))).

(** *** Panning *)

(** A pan is under way or may start: the action is a [PanAction], the axes
    exist, and a press has saved [do_scale_bounds]. *)
Definition pan_registered (f : Fig) : Prop :=
  (∃ action_obj, do_action f = DoCommandAction action_obj) ∧ is_Some (ax f).

Definition pan_started (f : Fig) : Prop :=
  pan_registered f ∧ is_Has (save_do_scale_bounds f).

(** *** Fitting

    [fit_axis_limits] is for the subclasses to supply; the one of
    [InteractiveFigure] itself returns [None]. *)



(** *** The figure in use

    Between the mouse events the application calls the figure's methods;
    the rubber band calls [ZoomBoxAction]'s [on_release] when there is
    one.  As with the events, the figure carries on as a call left it. *)

Inductive Command :=
  | Gui (g : GuiEvent)
  | Plot
  | Zoom (factor : Q)
  | SetViewBBox (bbox : option BBox)
  | RegisterPan (cb : nat)
  | RegisterZoomBox (cb : nat)
  | ZoomBoxRelease (press_event release_event : MouseEvent).

Definition execute (f : Fig) (c : Command) : Fig :=
  match c with
  | Gui g => dispatch f g
  | Plot => (plot f).1
  | Zoom factor => (zoom factor f).1
  | SetViewBBox bbox => (set_view_bbox bbox f).1
  | RegisterPan cb => register_pan cb f
  | RegisterZoomBox cb => (register_zoom_box cb f).1
  | ZoomBoxRelease press_event release_event =>
      match zoom_box_action f with
      | Some z => (ZoomBoxAction_on_release z press_event release_event f).1
      | None => f
      end
  end.

Definition run_commands (f : Fig) (l : list Command) : Fig := foldl execute f l.

(** The pan of the axes by a list of drag events with [button] pressed. *)
Definition dragged (button : nat) (a : Axes) (drags : list MouseEvent) : Axes :=
  foldl (λ a e, drag_pan button (ev_key e) (ev_x e) (ev_y e) a) a drags.

(** What [do_shape_action] does with a shape and a handle: the action of
    the shape for the key, if it has one. *)
Definition run_shape_action (shp : nat) (handle : string) (event_key : EventKey)
    (event : MouseEvent) (i : Info) (f : Fig) : Fig :=
  match shape_action shp event_key with
  | Some action => action handle event i f
  | None => f
  end.

End figure.

(** ** A small layout to run the handlers on

    Three artists over one another along x: a polygon over [0, 10], a
    polyline over [5, 15] and a vertex at [12, 13], each belonging to a
    shape.  Dragging shifts the limits of the axes by the cursor position;
    the shapes move the view box when their handle is released; the
    [on_finished] callback gives the figure its shape action back.  The
    system box is oversized by its larger side times the factor. *)

Definition sample_regions : list (Q * Q) := [(0, 10); (5, 15); (12, 13)]%Q.

Definition sample_contains (a : Axes) (id : nat) (p : Artist) (e : MouseEvent)
    : bool * Info :=
  match sample_regions !! id with
  | Some (lo, hi) => (Qle_bool lo (ev_x e) && Qle_bool (ev_x e) hi, None)
  | None => (false, None)
  end.

Definition sample_start_pan (x y : Q) (button : nat) (a : Axes) : Axes := a.

Definition sample_drag_pan (button : nat) (key : option string) (x y : Q)
    (a : Axes) : Axes :=
  {| xlim := ((xlim a).1 - x, (xlim a).2 - x)%Q;
     ylim := ((ylim a).1 - y, (ylim a).2 - y)%Q;
     children := children a |}.

Definition sample_end_pan (a : Axes) : Axes := a.

Definition sample_scale_bounds (bbox : BBox) (oversize_factor : Q) : BBox :=
  let inc_x := (oversize_factor * (bbox.2.1 - bbox.1.1))%Q in
  let inc_y := (oversize_factor * (bbox.2.2 - bbox.1.2))%Q in
  let incr := if Qlt_le_dec inc_x inc_y then inc_y else inc_x in
  ((bbox.1.1 - incr, bbox.1.2 - incr), (bbox.2.1 + incr, bbox.2.2 + incr))%Q.

Definition sample_shape_action (shp : nat) (key : EventKey)
    : option (string → MouseEvent → Info → Fig → Fig) :=
  match key with
  | Release =>
      Some (λ handle e i f,
              set_view_bbox_field (Some ((0, 0), (ev_xdata e, ev_ydata e))%Q) f)
  | _ => None
  end.

Definition sample_on_finished (cb : nat) (f : Fig) : Fig :=
  set_do_action DoShapeAction f.

Definition with_shape (shp : nat) (p : Artist) : Artist :=
  {| kind := kind p; facecolor := facecolor p; edgecolor := edgecolor p;
     color := color p; a_linewidth := a_linewidth p;
     hilite_color := hilite_color p; unhilite := unhilite p; zorder := zorder p;
     shape := Some (shp, "shape"); picker := picker p |}.

Definition sample_store : gmap nat Artist :=
  {[ 0%nat := with_shape 0 (create_polygon 0.5 (1, 0, 0, 0.25)%Q None None);
     1%nat := with_shape 1 (create_polyline 0.5 (Named "blue") None None None);
     2%nat := with_shape 2 (create_vertex 0.5 (Named "blue") (Some (Named "green"))
                              None (Some 3%Q)) ]}.

Definition sample_new (scale : bool) : Fig :=
  {| linewidth := 0.5; oversize_factor := 0.05; hilited := None;
     selected := None; do_scale_bounds := scale;
     save_do_scale_bounds := Missing; do_action := DoShapeAction;
     event_dict := ∅; callback_ids := Missing; on_finished := None;
     view_bbox := Some ((0, 0), (20, 10))%Q;
     sys_bbox := Some ((0, 0), (10, 10))%Q;
     artists := [0; 1; 2]%nat; store := sample_store;
     ax := None; canvas := {| next_cid := 0; callbacks := ∅ |};
     zoom_box_action := None; aspect := AspectName "auto";
     do_draw_frame := false; do_draw_axes := false; header := None;
     x_label := None; y_label := None |}.

(** The sample toolkit leaves the limits as they were set. *)
Definition sample_axes_call (c : AxesCall) (a : Axes) : Limits :=
  (xlim a, ylim a).

Definition sample_toolkit : Toolkit :=
  {| contains := sample_contains; axes_call := sample_axes_call;
     start_pan := sample_start_pan;
     drag_pan := sample_drag_pan; end_pan := sample_end_pan;
     rubber_box_connect := id; rubber_box_disconnect := id;
     scale_bounds := sample_scale_bounds; shape_action := sample_shape_action;
     run_on_finished := sample_on_finished |}.

#[local] Existing Instance sample_toolkit.

(** The layout plotted, without and with [do_scale_bounds]. *)
Definition sample_fig : Fig := (plot (sample_new false)).1.
Definition sample_scaled_fig : Fig := (plot (sample_new true)).1.

Definition at_pixel (x y : Q) : MouseEvent :=
  {| ev_x := x; ev_y := y; ev_xdata := x; ev_ydata := y;
     ev_button := 1; ev_key := None; ev_inaxes := true |}.

Definition sample_axes : Axes :=
  {| xlim := (0, 20)%Q; ylim := (0, 10)%Q; children := [0; 1; 2]%nat |}.

(** The figure with the vertex under the cursor hilited and a pan registered. *)
Definition sample_pan_fig : Fig :=
  register_pan 7 (run_events sample_fig [MotionNotify (at_pixel 12 1)]).

Definition sample_events : list GuiEvent :=
  [MotionNotify (at_pixel 7 1); MotionNotify (at_pixel 12 1);
   ButtonRelease (at_pixel 12 1); ButtonPress (at_pixel 12 1);
   MotionNotify (at_pixel 1 1); ButtonRelease (at_pixel 1 1);
   MotionNotify (at_pixel 1 1)].

(** A pan registered while nothing is hilited. *)
Definition sample_idle_pan_fig : Fig := register_pan 7 sample_fig.

(** The layout in use: hovering, zooming, a pan and a zoom box. *)
Definition sample_commands : list Command :=
  [Gui (MotionNotify (at_pixel 7 1)); Zoom 0.5; RegisterPan 7;
   Gui (ButtonPress (at_pixel 7 1)); Gui (MotionNotify (at_pixel 8 2));
   Gui (ButtonRelease (at_pixel 8 2)); Plot; RegisterZoomBox 8;
   ZoomBoxRelease (at_pixel 2 2) (at_pixel 6 4);
   Gui (MotionNotify (at_pixel 12 1)); SetViewBBox None].

(** Two polylines of the same z-order that overlap over [5, 10], and the
    vertex. *)
Definition sample_tie_store : gmap nat Artist :=
  {[ 0%nat := with_shape 0 (create_polyline 0.5 (Named "blue") None None None);
     1%nat := with_shape 1 (create_polyline 0.5 (Named "black") None None None);
     2%nat := with_shape 2 (create_vertex 0.5 (Named "blue") (Some (Named "green"))
                              None (Some 3%Q)) ]}.

Definition sample_tie_fig : Fig :=
  (plot (set_store sample_tie_store (sample_new false))).1.

(** A translucent red polygon. *)
Definition sample_polygon : Artist := create_polygon 0.5 (1, 0, 0, 0.25)%Q None None.

(** A pan registered on the layout that scales its bounds. *)
Definition sample_scaled_pan_fig : Fig := register_pan 7 sample_scaled_fig.

(** The layout with the polyline under the cursor hilited. *)
Definition sample_hover_fig : Fig :=
  run_events sample_fig [MotionNotify (at_pixel 7 1)].

End IFig.

(** * Properties of gui/mpl/paraxdgnfigure.py *)

Module ParaxDgnFacts.
Import ParaxDgn.

Lemma getitem_Some {A} (l : list A) i a : l !! i = Some a → getitem l i = Returned a.
Proof. unfold getitem. by intros ->. Qed.

Lemma getitem_Returned {A} (l : list A) i a :
  getitem l i = Returned a → l !! i = Some a.
Proof. unfold getitem. destruct (l !! i); by intros [= <-]. Qed.

Section figure.
Context {SeqModel : Type} `{!Collaborators SeqModel}.
Local Abbreviation Figure := (Figure (SeqModel := SeqModel)).
Local Abbreviation World := (World (SeqModel := SeqModel)).

Lemma hit_loop_spec hit_pt r2 hits hv m :
  let res := hit_loop hit_pt r2 hits hv m in
  (res = (hv, m) ∧ ∀ h pt, (h, pt) ∈ hits → (m <= distance_sqr_2d pt hit_pt)%Q)
  ∨ (∃ h pt, (h, pt) ∈ hits ∧
       res.2 = distance_sqr_2d pt hit_pt ∧
       (distance_sqr_2d pt hit_pt < m)%Q ∧
       (∀ h' pt', (h', pt') ∈ hits →
          (distance_sqr_2d pt hit_pt <= distance_sqr_2d pt' hit_pt)%Q) ∧
       res.1 = if Qlt_le_dec (distance_sqr_2d pt hit_pt) r2 then Some h else hv).
Proof.
  revert hv m. induction hits as [|[h pt] rest IH]; intros hv m; simpl.
  { left. split; [done|]. intros h pt Hin. by apply elem_of_nil in Hin. }
  destruct (Qlt_le_dec (distance_sqr_2d pt hit_pt) m) as [Hlt|Hge].
  - right.
    destruct (IH (if Qlt_le_dec (distance_sqr_2d pt hit_pt) r2
                  then Some h else hv) (distance_sqr_2d pt hit_pt))
      as [[Heq Hall]|(h' & pt' & Hin & Hd & Hlt' & Hall & Hsel)].
    + exists h, pt. rewrite Heq. simpl. split_and!; [left|done|done| |done].
      intros h' pt' [Hhd|Htl]%elem_of_cons;
        [injection Hhd as -> ->; lra | by eapply Hall].
    + exists h', pt'. split_and!; [by right|done|lra| |].
      * intros h'' pt'' [Hhd|Htl]%elem_of_cons;
          [injection Hhd as -> ->; lra | by eapply Hall].
      * rewrite Hsel.
        destruct (Qlt_le_dec (distance_sqr_2d pt' hit_pt) r2); [done|].
        destruct (Qlt_le_dec (distance_sqr_2d pt hit_pt) r2); [lra|done].
  - destruct (IH hv m)
      as [[Heq Hall]|(h' & pt' & Hin & Hd & Hlt' & Hall & Hsel)].
    + left. split; [done|].
      intros h' pt' [Hhd|Htl]%elem_of_cons;
        [injection Hhd as -> ->; done | by eapply Hall].
    + right. exists h', pt'. split_and!; [by right|done|done| |done].
      intros h'' pt'' [Hhd|Htl]%elem_of_cons;
        [injection Hhd as -> ->; lra | by eapply Hall].
Qed.

Lemma line_hits_valid x_data y_data hit_list :
  valid_hits x_data y_data hit_list →
  ∃ lh, line_hits x_data y_data hit_list = Returned lh ∧
        Forall2 (shown_at x_data y_data) hit_list (map transData lh).
Proof.
  unfold line_hits. induction hit_list as [|i hl IH]; intros Hv; simpl.
  { exists []. split; [done|constructor]. }
  destruct (Hv i) as [Hx Hy]; [by left|].
  apply lookup_lt_is_Some_2 in Hx as [x Hx].
  apply lookup_lt_is_Some_2 in Hy as [y Hy].
  destruct IH as (lh & Hlh & Hall).
  { intros j Hj. apply Hv. by right. }
  exists ((x, y) :: lh).
  rewrite (getitem_Some _ _ _ Hx), (getitem_Some _ _ _ Hy). simpl.
  rewrite Hlh. simpl. split; [done|].
  constructor; [|done]. by exists x, y.
Qed.

Lemma shown_at_zip x_data y_data hit_list dsp_hits :
  Forall2 (shown_at x_data y_data) hit_list dsp_hits →
  (∀ h pt, (h, pt) ∈ zip hit_list dsp_hits → h ∈ hit_list ∧ shown_at x_data y_data h pt)
  ∧ (∀ h, h ∈ hit_list → ∃ pt, (h, pt) ∈ zip hit_list dsp_hits ∧ shown_at x_data y_data h pt).
Proof.
  induction 1 as [|h pt hl dl Hs _ [IH1 IH2]]; simpl.
  { split; [intros h pt Hin|intros h Hin]; by apply elem_of_nil in Hin. }
  split.
  - intros h' pt' [Hhd|Htl]%elem_of_cons.
    + injection Hhd as -> ->. split; [by left|done].
    + destruct (IH1 _ _ Htl). split; [by right|done].
  - intros h' [->|Htl]%elem_of_cons.
    + exists pt. split; [by left|done].
    + destruct (IH2 _ Htl) as (pt' & Hin & Hs'). exists pt'. split; [by right|done].
Qed.

Lemma shown_at_dist x_data y_data event h pt :
  shown_at x_data y_data h pt →
  vertex_dist x_data y_data event h
  = Some (distance_sqr_2d pt (ev_x event, ev_y event)).
Proof.
  intros (x & y & Hx & Hy & ->). unfold vertex_dist. by rewrite Hx, Hy.
Qed.

Lemma find_hit_vertex_spec x_data y_data event r2 hit_list :
  valid_hits x_data y_data hit_list →
  ∃ hv, find_hit_vertex x_data y_data event r2 hit_list = Returned hv ∧
        selects x_data y_data event r2 hit_list hv.
Proof.
  intros Hv. destruct (line_hits_valid _ _ _ Hv) as (lh & Hlh & Hall).
  apply shown_at_zip in Hall as [Hzip Hmem].
  unfold find_hit_vertex. rewrite Hlh. simpl.
  set (hit_pt := (ev_x event, ev_y event)).
  destruct (hit_loop_spec hit_pt r2 (zip hit_list (map transData lh)) None min_hit_dist0)
    as [[Heq Hge]|(h & pt & Hin & Hd & Hlt & Hmin & Hsel)].
  - rewrite Heq. exists None. split; [done|]. simpl.
    intros u du Hu Hdu. right.
    destruct (Hmem u Hu) as (pt & Hin & Hs).
    rewrite (shown_at_dist _ _ event _ _ Hs) in Hdu. injection Hdu as <-.
    by eapply Hge.
  - eexists. split; [done|]. rewrite Hsel.
    destruct (Hzip _ _ Hin) as [Hh Hs].
    destruct (Qlt_le_dec (distance_sqr_2d pt hit_pt) r2) as [Hr|Hr]; simpl.
    + split; [done|]. exists (distance_sqr_2d pt hit_pt).
      split_and!; [by apply shown_at_dist|done|done|].
      intros u du Hu Hdu. destruct (Hmem u Hu) as (pt' & Hin' & Hs').
      rewrite (shown_at_dist _ _ event _ _ Hs') in Hdu. injection Hdu as <-.
      by eapply Hmin.
    + intros u du Hu Hdu. left. destruct (Hmem u Hu) as (pt' & Hin' & Hs').
      rewrite (shown_at_dist _ _ event _ _ Hs') in Hdu. injection Hdu as <-.
      specialize (Hmin _ _ Hin'). fold hit_pt. lra.
Qed.

(** Under a squared pick radius of at most 1e10 the initial [min_hit_dist]
    never decides: a vertex is taken exactly when a candidate lies within
    the pick radius. *)
Lemma selects_small_radius x_data y_data event r2 hit_list hv :
  (r2 <= min_hit_dist0)%Q →
  selects x_data y_data event r2 hit_list hv →
  match hv with
  | Some v =>
      v ∈ hit_list ∧
      ∃ dv, vertex_dist x_data y_data event v = Some dv ∧ (dv < r2)%Q ∧
            ∀ u du, u ∈ hit_list → vertex_dist x_data y_data event u = Some du →
                    (dv <= du)%Q
  | None =>
      ∀ u du, u ∈ hit_list → vertex_dist x_data y_data event u = Some du →
              (r2 <= du)%Q
  end.
Proof.
  intros Hr. destruct hv as [v|]; simpl.
  - intros (Hin & dv & Hd & Hlt & _ & Hmin). split; [done|]. by exists dv.
  - intros Hall u du Hu Hdu. destruct (Hall u du Hu Hdu); lra.
Qed.

(** No candidate within the pick radius: no vertex. *)
Lemma find_hit_vertex_none x_data y_data event r2 hit_list :
  valid_hits x_data y_data hit_list →
  (∀ u du, u ∈ hit_list → vertex_dist x_data y_data event u = Some du → (r2 <= du)%Q) →
  find_hit_vertex x_data y_data event r2 hit_list = Returned None.
Proof.
  intros Hv Hfar.
  destruct (find_hit_vertex_spec _ _ event r2 _ Hv) as ([v|] & Hf & Hsel); [|done].
  destruct Hsel as (Hin & dv & Hd & Hlt & _). specialize (Hfar _ _ Hin Hd). lra.
Qed.

(** C1.  For a press or motion event that the line contains, with hit
    list [hit_list] (non-empty, indices of the data), both
    [EditableLine.process_hit_location] and [ParaxialDesignFigure.on_press]
    return normally, and their hit vertex [hv] is as [selects] says: if a
    vertex is selected, it is a candidate whose squared display distance to
    the cursor is least among the candidates, and that distance is strictly
    below the squared pick radius; if no candidate lies within the pick
    radius, no vertex is selected.  (No vertex is selected exactly when
    every candidate is at least the pick radius, or at least the initial
    [min_hit_dist] of 1e10, away.)  With a vertex,
    [process_hit_location] reports its coordinates with marker ['s'] and
    [on_press] stores its index shifted by the start of the data slice;
    without one, [process_hit_location] reports the edge starting at
    [hit_list[0]] with marker [''] and [on_press] changes nothing. *)
Theorem hit_test_selects_nearest_vertex
    (el : EditableLine) (w : World) (event : MouseEvent)
    (hit_list : list nat) (x_data y_data : list Q) :
  hit_list ≠ [] →
  valid_hits (xdata (e_line el)) (ydata (e_line el)) hit_list →
  contains (line (fig w)) event = (true, hit_list) →
  lens_data (fig w) pr = Returned x_data →
  lens_data (fig w) ax = Returned y_data →
  valid_hits x_data y_data hit_list →
  (∃ hv,
     selects (xdata (e_line el)) (ydata (e_line el)) event
       (pick_radius_sqr el) hit_list hv ∧
     ((∀ u du, u ∈ hit_list →
               vertex_dist (xdata (e_line el)) (ydata (e_line el)) event u = Some du →
               (pick_radius_sqr el <= du)%Q) → hv = None) ∧
     match hv with
     | Some v =>
         ∃ x y, xdata (e_line el) !! v = Some x ∧ ydata (e_line el) !! v = Some y ∧
                process_hit_location el event hit_list
                = Returned (Scalar x, Scalar y, "s")
     | None =>
         ∃ h, head hit_list = Some h ∧
              process_hit_location el event hit_list
              = Returned (Arr (take 2 (drop h (xdata (e_line el)))),
                          Arr (take 2 (drop h (ydata (e_line el)))), "")
     end)
  ∧ (∃ hv,
       selects x_data y_data event (pickradius (line (fig w)) ^ 2)%Q hit_list hv ∧
       ((∀ u du, u ∈ hit_list → vertex_dist x_data y_data event u = Some du →
                 (pickradius (line (fig w)) ^ 2 <= du)%Q) → hv = None) ∧
       on_press event w
       = (match hv with
          | Some v =>
              {| fig := set_vertex (Some (v + start (data_slice (fig w)))%nat) (fig w);
                 trace := trace w |}
          | None => w
          end, Returned ())).
Proof.
  intros Hne Hvl Hc Hx Hy Hvd. split.
  - destruct (find_hit_vertex_spec _ _ event (pick_radius_sqr el) _ Hvl)
      as (hv & Hf & Hsel).
    exists hv. split; [done|]. split.
    { intros Hfar. rewrite (find_hit_vertex_none _ _ _ _ _ Hvl Hfar) in Hf.
      by injection Hf. }
    unfold process_hit_location, get_data. rewrite Hf. simpl.
    destruct hv as [v|].
    + destruct Hsel as [Hin _]. destruct (Hvl v Hin) as [Hlx Hly].
      apply lookup_lt_is_Some_2 in Hlx as [x Hlx].
      apply lookup_lt_is_Some_2 in Hly as [y Hly].
      exists x, y. split_and!; [done|done|].
      by rewrite (getitem_Some _ _ _ Hlx), (getitem_Some _ _ _ Hly).
    + destruct hit_list as [|h hl]; [done|]. by exists h.
  - destruct (find_hit_vertex_spec _ _ event (pickradius (line (fig w)) ^ 2)%Q _ Hvd)
      as (hv & Hf & Hsel).
    exists hv. split; [done|]. split.
    { intros Hfar. rewrite (find_hit_vertex_none _ _ _ _ _ Hvd Hfar) in Hf.
      by injection Hf. }
    unfold on_press, mbind, Py_bind, get, lift. rewrite Hc, Hx, Hy, Hf.
    by destruct hv; destruct w.
Qed.

(** *** Release *)

Lemma on_release_falsy w event :
  truthy (vertex (fig w)) = false → on_release event w = (w, Returned ()).
Proof.
  unfold on_release, mbind, Py_bind, get.
  by destruct (vertex (fig w)) as [[|n]|].
Qed.

Lemma on_release_truthy w event n l2 :
  vertex (fig w) = Some (S n) →
  written (lens (fig w)) (type_sel (fig w)) (S n) (ev_xdata event) (ev_ydata event) l2 →
  let inv := opt_inv_of (seq_model (fig w)) in
  let l3 := apply_data (fig w) l2 (S n) inv in
  on_release event w
  = ({| fig := set_vertex None
                 (refresh_gui
                    (set_seq_model
                       (paraxial_lens_to_seq_model (seq_model (fig w)) l3)
                       (set_lens l3 (fig w))));
        trace := trace w ++ [CallApplyData (S n) inv; CallLensToSeqModel;
                             CallRefreshGui] |},
     Returned ()).
Proof.
  intros Hv (rowp & arrp & rowa & arra & Hrp & Hap & Hlp & Hra & Haa & Hla & ->).
  unfold on_release, lens_setitem, on_fig, call, mbind, Py_bind, get, gets,
    modify, lift, setitem.
  rewrite Hv. simpl.
  rewrite (getitem_Some _ _ _ Hrp). simpl.
  rewrite (getitem_Some _ _ _ Hap). simpl.
  rewrite decide_True by done. simpl.
  rewrite (getitem_Some _ _ _ Hra). simpl.
  rewrite (getitem_Some _ _ _ Haa). simpl.
  rewrite decide_True by done. simpl.
  by rewrite <- !app_assoc.
Qed.

(** With a non-zero vertex stored, [on_release] either raises or makes its
    three calls. *)
Lemma on_release_truthy_cases w event n :
  vertex (fig w) = Some (S n) →
  (∃ w' e, on_release event w = (w', Raised e))
  ∨ (∃ f', on_release event w
           = ({| fig := f';
                 trace := trace w ++ [CallApplyData (S n) (opt_inv_of (seq_model (fig w)));
                                      CallLensToSeqModel; CallRefreshGui] |},
              Returned ()) ∧ vertex f' = None).
Proof.
  intros Hv.
  unfold on_release, lens_setitem, on_fig, call, mbind, Py_bind, get, gets,
    modify, lift, setitem.
  rewrite Hv. simpl.
  destruct (getitem (lens (fig w)) pr) as [rowp|e]; simpl; [|left; eauto].
  destruct (getitem rowp (type_sel (fig w))) as [arrp|e]; simpl; [|left; eauto].
  case_decide; simpl; [|left; eauto].
  match goal with |- context [getitem ?l ax] =>
    destruct (getitem l ax) as [rowa|e]; simpl; [|left; eauto] end.
  destruct (getitem rowa (type_sel (fig w))) as [arra|e]; simpl; [|left; eauto].
  case_decide; simpl; [|left; eauto].
  right. eexists. rewrite <- !app_assoc. simpl. split; reflexivity.
Qed.

Lemma written_lens_at l ts v x y l2 :
  written l ts v x y l2 →
  lens_at l2 ax ts v = Some y ∧ (ax ≠ pr → lens_at l2 pr ts v = Some x).
Proof.
  intros (rowp & arrp & rowa & arra & Hrp & Hap & Hlp & Hra & Haa & Hla & ->).
  pose proof (lookup_lt_Some _ _ _ Hrp) as Hlrp.
  pose proof (lookup_lt_Some _ _ _ Hap) as Hlap.
  pose proof (lookup_lt_Some _ _ _ Hra) as Hlra.
  pose proof (lookup_lt_Some _ _ _ Haa) as Hlaa.
  unfold lens_at, Lens in *. split.
  - rewrite (list_lookup_insert_eq _ ax) by done. simpl.
    rewrite (list_lookup_insert_eq _ ts) by done. simpl.
    by rewrite list_lookup_insert_eq.
  - intros Hne. rewrite (list_lookup_insert_ne _ ax pr) by done.
    rewrite (list_lookup_insert_eq _ pr) by done. simpl.
    rewrite (list_lookup_insert_eq _ ts) by done. simpl.
    by rewrite list_lookup_insert_eq.
Qed.

(** With a non-zero vertex stored, [on_release] either raises or writes
    the two lens entries and goes on to the end. *)
Lemma on_release_truthy_written w event n :
  vertex (fig w) = Some (S n) →
  (∃ w' e, on_release event w = (w', Raised e))
  ∨ (∃ l2, written (lens (fig w)) (type_sel (fig w)) (S n)
             (ev_xdata event) (ev_ydata event) l2).
Proof.
  intros Hv.
  destruct (getitem (lens (fig w)) pr) as [rowp|e] eqn:Hrp.
  2:{ left. unfold on_release, lens_setitem, mbind, Py_bind, get, lift.
      rewrite Hv. cbn. rewrite Hrp. cbn. eauto. }
  destruct (getitem rowp (type_sel (fig w))) as [arrp|e] eqn:Hap.
  2:{ left. unfold on_release, lens_setitem, mbind, Py_bind, get, lift.
      rewrite Hv. cbn. rewrite Hrp. cbn. rewrite Hap. cbn. eauto. }
  destruct (decide (S n < length arrp)) as [Hlp|Hlp].
  2:{ left. unfold on_release, lens_setitem, mbind, Py_bind, get, lift, setitem.
      rewrite Hv. cbn. rewrite Hrp. cbn. rewrite Hap. cbn.
      rewrite decide_False by done. cbn. eauto. }
  set (l1 := <[pr := <[type_sel (fig w) := <[S n := ev_xdata event]> arrp]> rowp]>
               (lens (fig w))).
  destruct (getitem l1 ax) as [rowa|e] eqn:Hra.
  2:{ left. unfold on_release, lens_setitem, on_fig, mbind, Py_bind, get, lift,
        modify, setitem.
      rewrite Hv. cbn. rewrite Hrp. cbn. rewrite Hap. cbn.
      rewrite decide_True by done. cbn. fold l1. rewrite Hra. cbn. eauto. }
  destruct (getitem rowa (type_sel (fig w))) as [arra|e] eqn:Haa.
  2:{ left. unfold on_release, lens_setitem, on_fig, mbind, Py_bind, get, lift,
        modify, setitem.
      rewrite Hv. cbn. rewrite Hrp. cbn. rewrite Hap. cbn.
      rewrite decide_True by done. cbn. fold l1. rewrite Hra. cbn.
      rewrite Haa. cbn. eauto. }
  destruct (decide (S n < length arra)) as [Hla|Hla].
  2:{ left. unfold on_release, lens_setitem, on_fig, mbind, Py_bind, get, lift,
        modify, setitem.
      rewrite Hv. cbn. rewrite Hrp. cbn. rewrite Hap. cbn.
      rewrite decide_True by done. cbn. fold l1. rewrite Hra. cbn.
      rewrite Haa. cbn. rewrite decide_False by done. cbn. eauto. }
  right. eexists. exists rowp, arrp, rowa, arra.
  apply getitem_Returned in Hrp, Hap, Hra, Haa.
  split_and!; [exact Hrp|exact Hap|exact Hlp|exact Hra|exact Haa|exact Hla|reflexivity].
Qed.

(** C8.  [on_release] does nothing exactly when the stored vertex is not
    truthy ([None] or the index 0).  With a non-zero index it raises or
    finds the two lens entries; when they exist it writes the event's data
    coordinates into them, applies [apply_data] to the lens so written,
    hands the result to [paraxial_lens_to_seq_model], calls [refresh_gui]
    and resets the vertex.  In the slope diagram the data slice starts at
    0, so a press whose hit test picks the first vertex stores index 0, and
    the release that follows edits nothing, calls nothing and leaves the
    stored vertex at 0. *)
Theorem on_release_edits_iff_vertex_truthy (w : World) (event : MouseEvent) :
  (truthy (vertex (fig w)) = false ↔ on_release event w = (w, Returned ()))
  ∧ (∀ n, vertex (fig w) = Some (S n) →
       (∃ w' e, on_release event w = (w', Raised e))
       ∨ (∃ l2, written (lens (fig w)) (type_sel (fig w)) (S n)
                  (ev_xdata event) (ev_ydata event) l2))
  ∧ (∀ n l2,
       vertex (fig w) = Some (S n) →
       written (lens (fig w)) (type_sel (fig w)) (S n)
         (ev_xdata event) (ev_ydata event) l2 →
       lens_at l2 ax (type_sel (fig w)) (S n) = Some (ev_ydata event)
       ∧ (ax ≠ pr → lens_at l2 pr (type_sel (fig w)) (S n) = Some (ev_xdata event))
       ∧ ∃ l3,
           l3 = apply_data (fig w) l2 (S n) (opt_inv_of (seq_model (fig w))) ∧
           on_release event w
           = ({| fig := set_vertex None
                          (refresh_gui
                             (set_seq_model
                                (paraxial_lens_to_seq_model (seq_model (fig w)) l3)
                                (set_lens l3 (fig w))));
                 trace := trace w
                          ++ [CallApplyData (S n) (opt_inv_of (seq_model (fig w)));
                              CallLensToSeqModel; CallRefreshGui] |},
              Returned ()))
  ∧ (∀ f0 p hit_list x_data y_data,
       fig w = setup_dgm_type slp_dgm f0 →
       contains (line (fig w)) p = (true, hit_list) →
       lens_data (fig w) pr = Returned x_data →
       lens_data (fig w) ax = Returned y_data →
       find_hit_vertex x_data y_data p (pickradius (line (fig w)) ^ 2)%Q hit_list
       = Returned (Some 0%nat) →
       on_press p w = ({| fig := set_vertex (Some 0%nat) (fig w); trace := trace w |},
                       Returned ())
       ∧ press_release p event w
         = ({| fig := set_vertex (Some 0%nat) (fig w); trace := trace w |},
            Returned ())).
Proof.
  split_and!.
  - split; [apply on_release_falsy|].
    intros Hr. destruct (vertex (fig w)) as [[|n]|] eqn:Hv; [done| |done].
    destruct (on_release_truthy_cases w event n Hv)
      as [(w' & e & He)|(f' & He & _)]; rewrite He in Hr; [done|].
    apply (f_equal (λ x, length (trace x.1))) in Hr. simpl in Hr.
    rewrite length_app in Hr. simpl in Hr. lia.
  - intros n Hv. by apply on_release_truthy_written.
  - intros n l2 Hv Hw. destruct (written_lens_at _ _ _ _ _ _ Hw) as [Hy Hx].
    split_and!; [exact Hy|exact Hx|].
    eexists. split; [reflexivity|]. by apply on_release_truthy.
  - intros f0 p hit_list x_data y_data Hf Hc Hx Hy Hh.
    assert (Hp : on_press p w
                 = ({| fig := set_vertex (Some 0%nat) (fig w); trace := trace w |},
                    Returned ())).
    { unfold on_press, mbind, Py_bind, get, lift. rewrite Hc, Hx, Hy, Hh.
      simpl. unfold on_fig, modify. by rewrite Hf. }
    split; [done|].
    unfold press_release, mbind, Py_bind. rewrite Hp.
    by apply on_release_falsy.
Qed.

(** X1.  With a non-zero vertex index stored whose two lens entries exist,
    [on_release] returns normally, having written the event's data
    coordinates into [lens[pr][type_sel][vertex]] and
    [lens[ax][type_sel][vertex]], applied [apply_data] to that lens with the
    vertex and the optical invariant of the sequential model, handed the
    lens to [paraxial_lens_to_seq_model], called [refresh_gui], and set the
    vertex to [None]. *)
Theorem release_applies_edit (w : World) (event : MouseEvent) (n : nat) (l2 : Lens) :
  vertex (fig w) = Some (S n) →
  written (lens (fig w)) (type_sel (fig w)) (S n) (ev_xdata event) (ev_ydata event) l2 →
  lens_at l2 ax (type_sel (fig w)) (S n) = Some (ev_ydata event)
  ∧ (ax ≠ pr → lens_at l2 pr (type_sel (fig w)) (S n) = Some (ev_xdata event))
  ∧ on_release event w
    = ({| fig := set_vertex None
                   (refresh_gui
                      (set_seq_model
                         (paraxial_lens_to_seq_model (seq_model (fig w))
                            (apply_data (fig w) l2 (S n)
                               (opt_inv_of (seq_model (fig w)))))
                         (set_lens
                            (apply_data (fig w) l2 (S n)
                               (opt_inv_of (seq_model (fig w))))
                            (fig w))));
          trace := trace w ++ [CallApplyData (S n) (opt_inv_of (seq_model (fig w)));
                               CallLensToSeqModel; CallRefreshGui] |},
       Returned ()).
Proof.
  intros Hv Hw. destruct (written_lens_at _ _ _ _ _ _ Hw) as [Hy Hx].
  split_and!; [done|done|by apply on_release_truthy].
Qed.

Lemma on_press_hits_no_vertex w p :
  hits_no_vertex w p → on_press p w = (w, Returned ()).
Proof.
  unfold on_press, mbind, Py_bind, get, lift.
  intros [[hl Hc]|(hl & x & y & Hc & Hx & Hy & Hv & Hfar)]; rewrite Hc; [done|].
  rewrite Hx, Hy. by rewrite (find_hit_vertex_none _ _ _ _ _ Hv Hfar).
Qed.

(** C7 (amended).  A press that hits nothing stores no vertex: it returns
    and leaves the figure as it was, the stored vertex included.  The
    release that follows then does what a release alone does: when no
    non-zero vertex index is left over from an earlier press, it changes
    neither the lens, nor the sequential model, nor the stored vertex, and
    makes no call ([refresh_gui] included). *)
Theorem press_without_vertex_edits_nothing (w : World) (p r : MouseEvent) :
  hits_no_vertex w p →
  on_press p w = (w, Returned ())
  ∧ press_release p r w = on_release r w
  ∧ (truthy (vertex (fig w)) = false → press_release p r w = (w, Returned ())).
Proof.
  intros Hm. pose proof (on_press_hits_no_vertex w p Hm) as Hp.
  assert (Hpr : press_release p r w = on_release r w).
  { unfold press_release, mbind, Py_bind. by rewrite Hp. }
  split_and!; [exact Hp|exact Hpr|].
  intros Hf. rewrite Hpr. by apply on_release_falsy.
Qed.

(** *** The plotted line and the lens *)

Lemma getslice_from_1 {A} (l : list A) :
  getslice {| start := 1; stop := None |} l = drop 1 l.
Proof.
  unfold getslice. cbn [start stop]. destruct l as [|x l]; [done|].
  apply take_ge. rewrite length_drop. cbn [length]. lia.
Qed.

Lemma getslice_to_last {A} (l : list A) :
  getslice {| start := 0; stop := Some (-1)%Z |} l = take (length l - 1) l.
Proof.
  unfold getslice. cbn [start stop]. rewrite Nat.min_0_l, Nat.sub_0_r.
  cbn [drop]. f_equal. change (-1 <? 0)%Z with true. cbn match. lia.
Qed.

(** Entry [i] of a slice is entry [i + start] of the sequence. *)
Lemma getslice_lookup {A} (s : slice) (l : list A) i x :
  getslice s l !! i = Some x → l !! (i + start s)%nat = Some x.
Proof.
  unfold getslice. intros [Hd _]%lookup_take_Some.
  rewrite lookup_drop in Hd.
  pose proof (lookup_lt_Some _ _ _ Hd) as Hlt.
  rewrite Nat.min_l in Hd by lia. by rewrite Nat.add_comm.
Qed.

Lemma getitem_Raised {A} (l : list A) i e :
  getitem l i = Raised e → e = IndexError.
Proof. unfold getitem. destruct (l !! i); by intros [= <-]. Qed.

Lemma lens_data_Returned (f : Figure) ray xs :
  lens_data f ray = Returned xs →
  ∃ row arr, lens f !! ray = Some row ∧ row !! type_sel f = Some arr ∧
             xs = getslice (data_slice f) arr.
Proof.
  unfold lens_data.
  destruct (getitem (lens f) ray) as [row|e] eqn:Hr; simpl; [|done].
  destruct (getitem row (type_sel f)) as [arr|e] eqn:Ha; simpl; [|done].
  intros [= <-]. apply getitem_Returned in Hr, Ha. by eauto.
Qed.

Lemma lens_data_rows (f : Figure) ray row arr :
  lens f !! ray = Some row → row !! type_sel f = Some arr →
  lens_data f ray = Returned (getslice (data_slice f) arr).
Proof.
  intros Hr Ha. unfold lens_data.
  rewrite (getitem_Some _ _ _ Hr). simpl. by rewrite (getitem_Some _ _ _ Ha).
Qed.

(** X3.  [plot] draws the line through the points
    [lens[pr][type_sel][data_slice]], [lens[ax][type_sel][data_slice]] with
    pick radius 6 and changes nothing else: all entries but the first in
    the height diagram, all but the last in the slope diagram; point [i] of
    the line is entry [i + data_slice.start] of the lens rows. *)
Theorem plot_shows_sliced_lens_data
    (w : World) (d : dgm_type) (f0 : Figure) (rowp rowa : list (list Q))
    (arrp arra : list Q) :
  fig w = setup_dgm_type d f0 →
  lens (fig w) !! pr = Some rowp → rowp !! type_sel (fig w) = Some arrp →
  lens (fig w) !! ax = Some rowa → rowa !! type_sel (fig w) = Some arra →
  ∃ w', plot w = (w', Returned ()) ∧
        trace w' = trace w ∧ lens (fig w') = lens (fig w) ∧
        seq_model (fig w') = seq_model (fig w) ∧
        vertex (fig w') = vertex (fig w) ∧
        data_slice (fig w') = data_slice (fig w) ∧
        type_sel (fig w') = type_sel (fig w) ∧
        pickradius (line (fig w')) = 6%Q ∧
        xdata (line (fig w'))
        = match d with
          | ht_dgm => drop 1 arrp
          | slp_dgm => take (length arrp - 1) arrp
          end ∧
        ydata (line (fig w'))
        = match d with
          | ht_dgm => drop 1 arra
          | slp_dgm => take (length arra - 1) arra
          end ∧
        (∀ i x, xdata (line (fig w')) !! i = Some x →
                arrp !! (i + start (data_slice (fig w)))%nat = Some x) ∧
        (∀ i y, ydata (line (fig w')) !! i = Some y →
                arra !! (i + start (data_slice (fig w)))%nat = Some y).
Proof.
  intros Hf Hrp Hap Hra Haa.
  unfold plot, on_fig, mbind, Py_bind, get, lift, modify.
  rewrite (lens_data_rows _ _ _ _ Hrp Hap), (lens_data_rows _ _ _ _ Hra Haa).
  eexists. split; [reflexivity|]. simpl.
  split_and!; try done.
  - rewrite Hf. destruct d; simpl; [apply getslice_from_1|apply getslice_to_last].
  - rewrite Hf. destruct d; simpl; [apply getslice_from_1|apply getslice_to_last].
  - intros i x. apply getslice_lookup.
  - intros i y. apply getslice_lookup.
Qed.

(** *** A press and its release *)

Lemma line_hits_Returned x_data y_data hit_list lh :
  line_hits x_data y_data hit_list = Returned lh →
  valid_hits x_data y_data hit_list.
Proof.
  unfold line_hits, valid_hits. revert lh.
  induction hit_list as [|h hl IH]; intros lh; simpl.
  { intros _ i Hi. by apply elem_of_nil in Hi. }
  destruct (getitem x_data h) as [x|] eqn:Hx; simpl; [|done].
  destruct (getitem y_data h) as [y|] eqn:Hy; simpl; [|done].
  destruct (mapM_outcome _ hl) as [bs|e] eqn:Hm; simpl; [|done].
  apply getitem_Returned in Hx, Hy.
  intros _ i [->|Hi]%elem_of_cons; [|by eapply IH].
  split; by eapply lookup_lt_Some.
Qed.

Lemma line_hits_length x_data y_data hit_list lh :
  line_hits x_data y_data hit_list = Returned lh → length lh = length hit_list.
Proof.
  unfold line_hits. revert lh.
  induction hit_list as [|h hl IH]; intros lh; simpl; [by intros [= <-]|].
  destruct (getitem x_data h) as [x|]; simpl; [|done].
  destruct (getitem y_data h) as [y|]; simpl; [|done].
  destruct (mapM_outcome _ hl) as [bs|e] eqn:Hm; simpl; [|done].
  intros [= <-]. simpl. f_equal. by apply IH.
Qed.

(** A vertex the hit test returns is one of the candidates, and a vertex
    of the data. *)
Lemma find_hit_vertex_Some x_data y_data event r2 hit_list hv :
  find_hit_vertex x_data y_data event r2 hit_list = Returned (Some hv) →
  hv ∈ hit_list ∧ valid_hits x_data y_data hit_list.
Proof.
  unfold find_hit_vertex.
  destruct (line_hits x_data y_data hit_list) as [lh|e] eqn:Hl; simpl; [|done].
  intros [= Hh]. split; [|by eapply line_hits_Returned].
  match type of Hh with (hit_loop ?hp ?r ?hs ?h0 ?m).1 = _ =>
    destruct (hit_loop_spec hp r hs h0 m) as [[Hr _]|(h & pt & Hin & _ & _ & _ & Hr)]
  end.
  - rewrite Hr in Hh. done.
  - rewrite Hr in Hh. destruct (Qlt_le_dec _ _); [|done].
    injection Hh as <-. by apply elem_of_zip_l in Hin.
Qed.

Lemma written_exists (l : Lens) ts v x y rowp arrp rowa arra :
  l !! pr = Some rowp → rowp !! ts = Some arrp → (v < length arrp)%nat →
  l !! ax = Some rowa → rowa !! ts = Some arra → (v < length arra)%nat →
  ∃ l2, written l ts v x y l2.
Proof.
  intros Hrp Hap Hlp Hra Haa Hla.
  pose proof (lookup_lt_Some _ _ _ Hrp) as Hlrp.
  pose proof (lookup_lt_Some _ _ _ Hap) as Hlap.
  unfold written, Lens in *.
  destruct (decide (ax = pr)) as [He|Hne].
  - eexists _, rowp, arrp, _, _. split_and!; [done|done|done| | | |reflexivity].
    + rewrite He. by apply list_lookup_insert_eq.
    + by apply list_lookup_insert_eq.
    + by rewrite length_insert.
  - eexists _, rowp, arrp, rowa, arra. split_and!; [done|done|done| |done|done|reflexivity].
    by rewrite list_lookup_insert_ne.
Qed.

(** X4.  A press that picks vertex [hv] of the plotted data stores the
    index [hv + data_slice.start], the index of that vertex in the lens
    rows.  When that index is not 0 (always in the height diagram, whose
    slice starts at 1) the two lens entries exist, so the release that
    follows returns normally after writing the release coordinates there,
    making its three calls and resetting the vertex. *)
Theorem press_release_edits_picked_vertex
    (w : World) (p r : MouseEvent) (hit_list : list nat)
    (x_data y_data : list Q) (hv : nat) :
  contains (line (fig w)) p = (true, hit_list) →
  lens_data (fig w) pr = Returned x_data →
  lens_data (fig w) ax = Returned y_data →
  find_hit_vertex x_data y_data p (pickradius (line (fig w)) ^ 2)%Q hit_list
  = Returned (Some hv) →
  let v := (hv + start (data_slice (fig w)))%nat in
  let w1 := {| fig := set_vertex (Some v) (fig w); trace := trace w |} in
  (∃ x y, x_data !! hv = Some x ∧ y_data !! hv = Some y ∧
          lens_at (lens (fig w)) pr (type_sel (fig w)) v = Some x ∧
          lens_at (lens (fig w)) ax (type_sel (fig w)) v = Some y)
  ∧ on_press p w = (w1, Returned ())
  ∧ (v ≠ 0%nat →
     ∃ l2,
       written (lens (fig w)) (type_sel (fig w)) v (ev_xdata r) (ev_ydata r) l2 ∧
       lens_at l2 ax (type_sel (fig w)) v = Some (ev_ydata r) ∧
       press_release p r w
       = ({| fig := set_vertex None
                      (refresh_gui
                         (set_seq_model
                            (paraxial_lens_to_seq_model (seq_model (fig w))
                               (apply_data (fig w) l2 v (opt_inv_of (seq_model (fig w)))))
                            (set_lens
                               (apply_data (fig w) l2 v (opt_inv_of (seq_model (fig w))))
                               (fig w1))));
             trace := trace w ++ [CallApplyData v (opt_inv_of (seq_model (fig w)));
                                  CallLensToSeqModel; CallRefreshGui] |},
          Returned ()))
  ∧ (∀ f0, fig w = setup_dgm_type ht_dgm f0 → v ≠ 0%nat).
Proof.
  intros Hc Hx Hy Hh v w1.
  destruct (find_hit_vertex_Some _ _ _ _ _ _ Hh) as [Hin Hval].
  destruct (Hval hv Hin) as [Hlx Hly].
  apply lookup_lt_is_Some_2 in Hlx as [x Hxv].
  apply lookup_lt_is_Some_2 in Hly as [y Hyv].
  destruct (lens_data_Returned _ _ _ Hx) as (rowp & arrp & Hrp & Hap & ->).
  destruct (lens_data_Returned _ _ _ Hy) as (rowa & arra & Hra & Haa & ->).
  pose proof (getslice_lookup _ _ _ _ Hxv) as Hxl.
  pose proof (getslice_lookup _ _ _ _ Hyv) as Hyl.
  fold v in Hxl, Hyl.
  assert (Hp : on_press p w = (w1, Returned ())).
  { unfold on_press, mbind, Py_bind, get, lift. rewrite Hc, Hx, Hy, Hh. done. }
  split_and!.
  - exists x, y. unfold lens_at. rewrite Hrp, Hra. simpl. rewrite Hap, Haa. done.
  - done.
  - intros Hv.
    destruct (written_exists (lens (fig w)) (type_sel (fig w)) v
                (ev_xdata r) (ev_ydata r) rowp arrp rowa arra) as [l2 Hw];
      [done|done|by eapply lookup_lt_Some|done|done|by eapply lookup_lt_Some|].
    exists l2. split; [done|].
    split; [by apply (written_lens_at _ _ _ _ _ _ Hw)|].
    unfold press_release, mbind, Py_bind. rewrite Hp.
    destruct v as [|n] eqn:Hvn; [done|].
    by rewrite (on_release_truthy w1 r n l2 eq_refl Hw).
  - intros f0 Hf. subst v. rewrite Hf. simpl. lia.
Qed.

(** *** Errors of the hit test *)

(** X5.  [process_hit_location] returns normally exactly when the hit list
    is not empty and all its indices are indices of the line's data;
    otherwise it raises [IndexError], and nothing else is ever raised. *)
Theorem process_hit_location_raises_iff
    (el : EditableLine) (event : MouseEvent) (hit_list : list nat) :
  ((∃ r, process_hit_location el event hit_list = Returned r)
   ↔ hit_list ≠ [] ∧ valid_hits (xdata (e_line el)) (ydata (e_line el)) hit_list)
  ∧ (∀ e, process_hit_location el event hit_list = Raised e → e = IndexError)
  ∧ process_hit_location el event [] = Raised IndexError.
Proof.
  split_and!.
  - split.
    + intros [r Hr]. unfold process_hit_location, get_data in Hr.
      destruct (find_hit_vertex _ _ event (pick_radius_sqr el) hit_list)
        as [hv|e] eqn:Hf; simpl in Hr; [|done].
      assert (Hval : valid_hits (xdata (e_line el)) (ydata (e_line el)) hit_list).
      { unfold find_hit_vertex in Hf.
        destruct (line_hits _ _ hit_list) as [lh|e] eqn:Hl; simpl in Hf; [|done].
        by eapply line_hits_Returned. }
      split; [|done]. intros ->. unfold find_hit_vertex in Hf. simpl in Hf.
      injection Hf as <-. done.
    + intros [Hne Hval].
      destruct (find_hit_vertex_spec _ _ event (pick_radius_sqr el) _ Hval)
        as (hv & Hf & Hsel).
      unfold process_hit_location, get_data. rewrite Hf. simpl.
      destruct hv as [v|].
      * destruct Hsel as [Hin _]. destruct (Hval v Hin) as [Hlx Hly].
        apply lookup_lt_is_Some_2 in Hlx as [x Hlx].
        apply lookup_lt_is_Some_2 in Hly as [y Hly].
        rewrite (getitem_Some _ _ _ Hlx), (getitem_Some _ _ _ Hly). by eexists.
      * destruct hit_list as [|h hl]; [done|]. by eexists.
  - intros e. unfold process_hit_location, get_data, find_hit_vertex, line_hits.
    assert (Hm : ∀ e', mapM_outcome
                   (λ i, x ← getitem (xdata (e_line el)) i;
                         y ← getitem (ydata (e_line el)) i; Returned (x, y))
                   hit_list = Raised e' → e' = IndexError).
    { induction hit_list as [|h hl IH]; intros e'; simpl; [done|].
      destruct (getitem (xdata (e_line el)) h) as [x|e1] eqn:H1; simpl;
        [|intros [= <-]; by eapply getitem_Raised].
      destruct (getitem (ydata (e_line el)) h) as [y|e2] eqn:H2; simpl;
        [|intros [= <-]; by eapply getitem_Raised].
      destruct (mapM_outcome _ hl) as [bs|e3]; simpl; [done|].
      intros [= <-]. by apply IH. }
    destruct (mapM_outcome _ hit_list) as [lh|e'] eqn:Hl; simpl.
    + destruct (hit_loop _ _ _ _ _).1 as [v|].
      * destruct (getitem (xdata (e_line el)) v) as [x|e1] eqn:H1; simpl;
          [|intros [= <-]; by eapply getitem_Raised].
        destruct (getitem (ydata (e_line el)) v) as [y|e2] eqn:H2; simpl;
          [done|intros [= <-]; by eapply getitem_Raised].
      * destruct (getitem hit_list 0) as [h|e1] eqn:H1; simpl;
          [done|intros [= <-]; by eapply getitem_Raised].
    + intros [= <-]. by apply Hm.
  - done.
Qed.

(** X6.  [EditableLine.on_press] only ever assigns [self.press] and
    [on_motion] only the markers; outside the axes both leave the object as
    it is, and off the line [on_motion] empties the marker data.  After a
    press, whatever it did, [on_release] leaves [self.press] at [None] and
    everything else as it was before the press. *)
Theorem editable_line_press_motion_release
    (el : EditableLine) (p m r : MouseEvent) :
  (ev_inaxes p = false → EditableLine_on_press p el = (el, Returned ()))
  ∧ (ev_inaxes m = false → EditableLine_on_motion m el = (el, Returned ()))
  ∧ (∀ hit_list, ev_inaxes m = true →
       contains (e_line el) m = (false, hit_list) →
       EditableLine_on_motion m el
       = (set_markers {| m_xdata := Arr []; m_ydata := Arr [];
                         m_marker := m_marker (markers el);
                         m_linestyle := m_linestyle (markers el) |} el,
          Returned ()))
  ∧ (∃ pd, (EditableLine_on_press p el).1 = set_press pd el)
  ∧ (∃ mk, (EditableLine_on_motion m el).1 = set_markers mk el)
  ∧ (EditableLine_on_release r (EditableLine_on_press p el).1)
    = (set_press None el, Returned ()).
Proof.
  assert (Hp : el = set_press (press el) el) by by destruct el.
  assert (Hm : el = set_markers (markers el) el) by by destruct el.
  unfold EditableLine_on_press, EditableLine_on_motion, EditableLine_on_release.
  unfold mbind, mret, Py_bind, Py_ret, get, modify, lift.
  split_and!.
  - by intros ->.
  - by intros ->.
  - intros hl -> ->. done.
  - destruct (ev_inaxes p); cbn [fst snd negb]; [|by eexists].
    destruct (contains (e_line el) p) as [[] hl]; cbn [fst snd negb]; [|by eexists].
    destruct (process_hit_location el p hl) as [[[xd yd] mk]|e]; cbn [fst snd];
      by eexists.
  - destruct (ev_inaxes m); cbn [fst snd negb]; [|by eexists].
    destruct (contains (e_line el) m) as [[] hl]; cbn [fst snd negb]; [|by eexists].
    destruct (process_hit_location el m hl) as [[[xd yd] mk]|e]; cbn [fst snd];
      by eexists.
  - destruct (ev_inaxes p); simpl; [|done].
    destruct (contains (e_line el) p) as [[] hl]; simpl; [|done].
    by destruct (process_hit_location el p hl) as [[[xd yd] mk]|e].
Qed.

Lemma line_hits_Raised x_data y_data hit_list e :
  line_hits x_data y_data hit_list = Raised e → e = IndexError.
Proof.
  unfold line_hits. induction hit_list as [|h hl IH]; simpl; [done|].
  destruct (getitem x_data h) as [x|e1] eqn:H1; simpl;
    [|intros [= <-]; by eapply getitem_Raised].
  destruct (getitem y_data h) as [y|e2] eqn:H2; simpl;
    [|intros [= <-]; by eapply getitem_Raised].
  destruct (mapM_outcome _ hl) as [bs|e3]; simpl; [done|].
  intros [= <-]. by apply IH.
Qed.

Lemma lens_data_Raised (f : Figure) ray e :
  lens_data f ray = Raised e → e = IndexError.
Proof.
  unfold lens_data.
  destruct (getitem (lens f) ray) as [row|e1] eqn:H1; simpl;
    [|intros [= <-]; by eapply getitem_Raised].
  destruct (getitem row (type_sel f)) as [arr|e2] eqn:H2; simpl; [done|].
  intros [= <-]. by eapply getitem_Raised.
Qed.

(** X23.  [ParaxialDesignFigure.on_press] assigns at most [self.vertex]:
    it never touches the lens or the sequential model and calls none of
    [apply_data], [paraxial_lens_to_seq_model] and [refresh_gui].  It
    returns normally or raises [IndexError] (a lens without the rows it
    reads, or a hit index outside the data), and when it raises, or the
    line does not contain the cursor, the figure is as it was. *)
Theorem on_press_changes_only_vertex (w : World) (p : MouseEvent) :
  (∃ v, (on_press p w).1 = {| fig := set_vertex v (fig w); trace := trace w |})
  ∧ ((on_press p w).2 = Returned () ∨ (on_press p w).2 = Raised IndexError)
  ∧ (∀ e, (on_press p w).2 = Raised e → (on_press p w).1 = w)
  ∧ (∀ hit_list, contains (line (fig w)) p = (false, hit_list) →
       on_press p w = (w, Returned ())).
Proof.
  assert (Hw : w = {| fig := set_vertex (vertex (fig w)) (fig w); trace := trace w |}).
  { destruct w as [[] ?]. reflexivity. }
  unfold on_press, mbind, mret, Py_bind, Py_ret, get, lift, on_fig, modify.
  destruct (contains (line (fig w)) p) as [[] hit_list]; cbn [fst snd].
  2: { split_and!; [by eexists|by left|done|done]. }
  destruct (lens_data (fig w) pr) as [x_data|e1] eqn:Hx; cbn [fst snd].
  2: { apply lens_data_Raised in Hx as ->.
       split_and!; [by eexists|by right|done|done]. }
  destruct (lens_data (fig w) ax) as [y_data|e2] eqn:Hy; cbn [fst snd].
  2: { apply lens_data_Raised in Hy as ->.
       split_and!; [by eexists|by right|done|done]. }
  destruct (find_hit_vertex x_data y_data p _ hit_list) as [[hv|]|e3] eqn:Hf;
    cbn [fst snd].
  - split_and!; [by eexists|by left|done|done].
  - split_and!; [by eexists|by left|done|done].
  - assert (e3 = IndexError) as ->.
    { unfold find_hit_vertex in Hf.
      destruct (line_hits x_data y_data hit_list) as [lh|e] eqn:Hl; simpl in Hf;
        [done|]. injection Hf as <-. by eapply line_hits_Raised. }
    split_and!; [by eexists|by right|done|done].
Qed.

End figure.

#[local] Existing Instance sample_collaborators.

Ltac elem_cases H :=
  repeat (apply elem_of_cons in H as [->|H]); [..|by apply elem_of_nil in H].

(** Two vertices lie within the pick radius 6 of the cursor at (3, 3); the
    nearer one, at (4, 3), is the hit vertex. *)
Lemma hit_test_selects_nearest_vertex_witness :
  contains (line (fig sample_ht_world)) (cursor 3 3) = (true, [0; 1]%nat)
  ∧ lens_data (fig sample_ht_world) pr = Returned [0; 4; 60]%Q
  ∧ lens_data (fig sample_ht_world) ax = Returned [0; 3; 0]%Q
  ∧ (∃ hv,
       selects [0; 4; 60]%Q [0; 3; 0]%Q (cursor 3 3)
         (pick_radius_sqr (EditableLine_init (line (fig sample_ht_world))))
         [0; 1]%nat hv ∧
       match hv with
       | Some v =>
           ∃ x y, [0; 4; 60]%Q !! v = Some x ∧ [0; 3; 0]%Q !! v = Some y ∧
                  process_hit_location
                    (EditableLine_init (line (fig sample_ht_world))) (cursor 3 3)
                    [0; 1]%nat
                  = Returned (Scalar x, Scalar y, "s")
       | None =>
           ∃ h, head [0; 1]%nat = Some h ∧
                process_hit_location
                  (EditableLine_init (line (fig sample_ht_world))) (cursor 3 3)
                  [0; 1]%nat
                = Returned (Arr (take 2 (drop h [0; 4; 60]%Q)),
                            Arr (take 2 (drop h [0; 3; 0]%Q)), "")
       end)
  ∧ (∃ hv,
       selects [0; 4; 60]%Q [0; 3; 0]%Q (cursor 3 3)
         (6 ^ 2)%Q [0; 1]%nat hv ∧
       on_press (cursor 3 3) sample_ht_world
       = (match hv with
          | Some v =>
              {| fig := set_vertex (Some (v + 1)%nat) (fig sample_ht_world);
                 trace := trace sample_ht_world |}
          | None => sample_ht_world
          end, Returned ())).
Proof.
  assert (Hv : valid_hits [0; 4; 60]%Q [0; 3; 0]%Q [0; 1]%nat).
  { intros i Hi. elem_cases Hi; simpl; lia. }
  destruct (hit_test_selects_nearest_vertex
              (EditableLine_init (line (fig sample_ht_world))) sample_ht_world
              (cursor 3 3) [0; 1]%nat [0; 4; 60]%Q [0; 3; 0]%Q)
    as [(hv1 & Hs1 & _ & Hr1) (hv2 & Hs2 & _ & Hr2)]; [done..|].
  split_and!; [reflexivity..| |]; [by exists hv1|by exists hv2].
Defined.

(** The initial [min_hit_dist] of 1e10 bounds the search: the only candidate
    lies within the pick radius (squared distance 2.25e10 below the squared
    pick radius 4e10), yet it is not selected, because its distance is not
    below 1e10: [process_hit_location] reports an edge and [on_press] stores
    nothing. *)
Lemma hit_test_far_vertex_not_selected :
  contains far_line (cursor 150000 0) = (true, [0%nat])
  ∧ vertex_dist [0%Q] [0%Q] (cursor 150000 0) 0
    = Some 22500000000%Q
  ∧ (22500000000 < pick_radius_sqr (EditableLine_init far_line))%Q
  ∧ process_hit_location (EditableLine_init far_line)
      (cursor 150000 0) [0%nat]
    = Returned (Arr [0%Q], Arr [0%Q], "")
  ∧ lens_data (fig far_world) pr = Returned [0%Q]
  ∧ lens_data (fig far_world) ax = Returned [0%Q]
  ∧ on_press (cursor 150000 0) far_world = (far_world, Returned ()).
Proof. by vm_compute. Qed.

(** C2 fails on the first vertex of the slope diagram: the press at (1, 2)
    picks vertex 0 of the line, and the release that follows writes nothing
    into the lens, makes no call, and leaves the stored vertex at 0. *)
Lemma release_after_first_slope_vertex :
  contains (line (fig sample_slp_world)) (cursor 1 2) = (true, [0%nat])
  ∧ vertex (fig (on_press (cursor 1 2) sample_slp_world).1) = Some 0%nat
  ∧ (press_release (cursor 1 2) (cursor 7 9) sample_slp_world).2 = Returned ()
  ∧ lens (fig (press_release (cursor 1 2) (cursor 7 9) sample_slp_world).1)
    = lens (fig sample_slp_world)
  ∧ trace (press_release (cursor 1 2) (cursor 7 9) sample_slp_world).1 = []
  ∧ vertex (fig (press_release (cursor 1 2) (cursor 7 9) sample_slp_world).1)
    = Some 0%nat.
Proof. by vm_compute. Qed.

(** On the height diagram the release after the press on the vertex at
    (4, 3) makes the three calls; on the slope diagram the release after the
    press on the first vertex does nothing. *)
Lemma on_release_edits_iff_vertex_truthy_witness :
  vertex (fig sample_pressed) = Some 2%nat
  ∧ lens (fig sample_pressed)
    = [ [ [0; 0; 3; 0]; [1; 2; 3; 4] ]; [ [0; 0; 4; 60]; [0; 10; 20; 30] ] ]%Q
  ∧ (∃ w', on_release (cursor 7 9) sample_pressed = (w', Returned ()) ∧
           lens (fig w')
           = [ [ [0; 0; 9; 0]; [1; 2; 3; 4] ]; [ [0; 0; 7; 60]; [0; 10; 20; 30] ] ]%Q ∧
           trace w'
           = trace sample_pressed
             ++ [CallApplyData 2 1; CallLensToSeqModel; CallRefreshGui] ∧
           vertex (fig w') = None)
  ∧ find_hit_vertex [0; 10; 20]%Q [1; 2; 3]%Q (cursor 1 2)
      (6 ^ 2)%Q [0%nat] = Returned (Some 0%nat)
  ∧ press_release (cursor 1 2) (cursor 7 9) sample_slp_world
    = ({| fig := set_vertex (Some 0%nat) (fig sample_slp_world);
          trace := trace sample_slp_world |}, Returned ()).
Proof.
  destruct (on_release_edits_iff_vertex_truthy sample_pressed (cursor 7 9))
    as (_ & _ & Hedit & _).
  destruct (Hedit 1%nat
              [ [ [0; 0; 9; 0]; [1; 2; 3; 4] ]; [ [0; 0; 7; 60]; [0; 10; 20; 30] ] ]%Q
              eq_refl)
    as (_ & _ & l3 & -> & Hr).
  { exists [ [0; 0; 4; 60]; [0; 10; 20; 30] ]%Q, [0; 0; 4; 60]%Q,
      [ [0; 0; 3; 0]; [1; 2; 3; 4] ]%Q, [0; 0; 3; 0]%Q.
    split_and!; try reflexivity; simpl; lia. }
  destruct (on_release_edits_iff_vertex_truthy sample_slp_world (cursor 7 9))
    as (_ & _ & _ & Hslope).
  destruct (Hslope (fig sample_slp_world) (cursor 1 2) [0%nat]
              [0; 10; 20]%Q [1; 2; 3]%Q eq_refl eq_refl eq_refl eq_refl eq_refl)
    as [_ Hpr].
  split_and!; [reflexivity|reflexivity| |reflexivity|exact Hpr].
  eexists. split; [exact Hr|]. by split_and!.
Defined.

(** The release at (7, 9) after the press on the vertex at (4, 3). *)
Lemma release_applies_edit_witness :
  vertex (fig sample_pressed) = Some 2%nat
  ∧ (on_release (cursor 7 9) sample_pressed).2 = Returned ()
  ∧ lens (fig (on_release (cursor 7 9) sample_pressed).1)
    = [ [ [0; 0; 9; 0]; [1; 2; 3; 4] ]; [ [0; 0; 7; 60]; [0; 10; 20; 30] ] ]%Q.
Proof.
  destruct (release_applies_edit
              sample_pressed (cursor 7 9) 1%nat
              [ [ [0; 0; 9; 0]; [1; 2; 3; 4] ]; [ [0; 0; 7; 60]; [0; 10; 20; 30] ] ]%Q
              eq_refl)
    as (_ & _ & Hr).
  { exists [ [0; 0; 4; 60]; [0; 10; 20; 30] ]%Q, [0; 0; 4; 60]%Q,
      [ [0; 0; 3; 0]; [1; 2; 3; 4] ]%Q, [0; 0; 3; 0]%Q.
    split_and!; try reflexivity; simpl; lia. }
  rewrite Hr. by split_and!.
Defined.

(** C7 fails as stated: after a press that stored vertex 2, a second press
    far from the line stores nothing, and the release that follows writes
    its coordinates into the lens and calls [refresh_gui]. *)
Lemma stale_vertex_is_edited :
  vertex (fig sample_pressed) = Some 2%nat
  ∧ contains (line (fig sample_pressed)) (cursor 200 200) = (false, [])
  ∧ on_press (cursor 200 200) sample_pressed = (sample_pressed, Returned ())
  ∧ lens (fig sample_pressed)
    = [ [ [0; 0; 3; 0]; [1; 2; 3; 4] ]; [ [0; 0; 4; 60]; [0; 10; 20; 30] ] ]%Q
  ∧ lens (fig (press_release (cursor 200 200) (cursor 7 9) sample_pressed).1)
    = [ [ [0; 0; 9; 0]; [1; 2; 3; 4] ]; [ [0; 0; 7; 60]; [0; 10; 20; 30] ] ]%Q
  ∧ trace (press_release (cursor 200 200) (cursor 7 9) sample_pressed).1
    = [CallApplyData 2 1; CallLensToSeqModel; CallRefreshGui].
Proof. by vm_compute. Qed.

(** An edge-only press on the height diagram: the cursor at (32, 1.5) lies
    on the segment from (4, 3) to (60, 0), far from both ends. *)
Lemma press_without_vertex_edits_nothing_witness :
  hits_no_vertex
    sample_ht_world (cursor 32 1.5)
  ∧ truthy (vertex (fig sample_ht_world)) = false
  ∧ on_press (cursor 32 1.5) sample_ht_world = (sample_ht_world, Returned ())
  ∧ press_release (cursor 32 1.5) (cursor 7 9) sample_ht_world
    = (sample_ht_world, Returned ()).
Proof.
  assert (Hm : hits_no_vertex
                 sample_ht_world (cursor 32 1.5)).
  { right. exists [1%nat], [0; 4; 60]%Q, [0; 3; 0]%Q.
    split_and!; [reflexivity..| |].
    - intros i Hi. elem_cases Hi; simpl; lia.
    - intros u du Hu Hdu. elem_cases Hu. injection Hdu as <-. by vm_compute. }
  destruct (press_without_vertex_edits_nothing
              sample_ht_world (cursor 32 1.5) (cursor 7 9) Hm)
    as (Hp & _ & Hr).
  split_and!; [exact Hm|reflexivity|exact Hp|exact (Hr eq_refl)].
Defined.

(** The slope diagram of the sample lens shows all but the last entry of
    the slope rows. *)
Lemma plot_shows_sliced_lens_data_witness :
  ∃ w', plot (ParaxialDesignFigure_init sample_lens slp_dgm) = (w', Returned ()) ∧
        xdata (line (fig w')) = [0; 10; 20]%Q ∧
        ydata (line (fig w')) = [1; 2; 3]%Q ∧
        pickradius (line (fig w')) = 6%Q.
Proof.
  destruct (plot_shows_sliced_lens_data
              (ParaxialDesignFigure_init sample_lens slp_dgm) slp_dgm
              (fig (ParaxialDesignFigure_init sample_lens slp_dgm))
              [ [0; 0; 4; 60]; [0; 10; 20; 30] ]%Q [ [0; 0; 3; 0]; [1; 2; 3; 4] ]%Q
              [0; 10; 20; 30]%Q [1; 2; 3; 4]%Q)
    as (w' & Hp & _ & _ & _ & _ & _ & _ & Hr & Hx & Hy & _); [reflexivity..|].
  exists w'. split_and!; [exact Hp|exact Hx|exact Hy|exact Hr].
Defined.

(** On the height diagram the press at (3, 3) picks the vertex at (4, 3),
    the second point of the line and the third entry of the lens rows; the
    release at (7, 9) writes it. *)
Lemma press_release_edits_picked_vertex_witness :
  contains (line (fig sample_ht_world)) (cursor 3 3) = (true, [0; 1]%nat)
  ∧ find_hit_vertex [0; 4; 60]%Q [0; 3; 0]%Q (cursor 3 3) (6 ^ 2)%Q [0; 1]%nat
    = Returned (Some 1%nat)
  ∧ lens_at (lens (fig sample_ht_world)) pr ht 2 = Some 4%Q
  ∧ vertex (fig (on_press (cursor 3 3) sample_ht_world).1) = Some 2%nat
  ∧ (press_release (cursor 3 3) (cursor 7 9) sample_ht_world).2 = Returned ()
  ∧ trace (press_release (cursor 3 3) (cursor 7 9) sample_ht_world).1
    = [CallApplyData 2 1; CallLensToSeqModel; CallRefreshGui].
Proof.
  destruct (press_release_edits_picked_vertex
              sample_ht_world (cursor 3 3) (cursor 7 9) [0; 1]%nat
              [0; 4; 60]%Q [0; 3; 0]%Q 1%nat)
    as (_ & Hp & Hr & _); [reflexivity..|].
  destruct Hr as (l2 & _ & _ & Hr); [done|].
  rewrite Hp, Hr. by split_and!.
Defined.

End ParaxDgnFacts.

(** * Properties of src/rayoptics/mpl/interactivefigure.py *)

Module IFigFacts.
Import IFig.

Section figure.
Context `{!Toolkit}.

(** *** Highlighting is undone by unhighlighting *)

Lemma polygon_unhighlight_highlight p :
  polygon_unhighlight (polygon_highlight p) = Returned (set_unhilite PyNone p).
Proof. by destruct p as [k [[[r g] b] a] ec c lw hc u z sh pk]. Qed.

Lemma line_unhighlight_highlight p :
  line_unhighlight (line_highlight p) = Returned (set_unhilite PyNone p).
Proof. by destruct p. Qed.

Lemma kind_polygon_highlight p : kind (polygon_highlight p) = kind p.
Proof. by destruct p as [k [[[r g] b] a] ec c lw hc u z sh pk]. Qed.

Lemma unhighlight_highlight p :
  unhighlight (highlight p) = Returned (set_unhilite PyNone p).
Proof.
  unfold unhighlight, highlight. destruct (kind p) eqn:Hk.
  - rewrite kind_polygon_highlight, Hk. apply polygon_unhighlight_highlight.
  - replace (kind (line_highlight p)) with Polyline by (by destruct p; simpl in *).
    apply line_unhighlight_highlight.
  - replace (kind (line_highlight p)) with Vertex by (by destruct p; simpl in *).
    apply line_unhighlight_highlight.
Qed.

(** C5.  For an artist made by [create_polygon], [create_polyline] or
    [create_vertex], as created or in whatever style it has by now,
    [unhighlight] after [highlight] returns normally and leaves the artist
    as it was before [highlight] (face colour, edge colour, colour, line
    width and all the rest), except that [unhilite] is now [None]. *)
Theorem unhighlight_after_highlight_restores_style :
  (∀ p : Artist,
     ∃ p', unhighlight (highlight p) = Returned p' ∧
           p' = set_unhilite PyNone p ∧
           facecolor p' = facecolor p ∧ edgecolor p' = edgecolor p ∧
           color p' = color p ∧ a_linewidth p' = a_linewidth p ∧
           unhilite p' = PyNone)
  ∧ (∀ fig_linewidth fill_color kw_linewidth kw_zorder,
       unhighlight (highlight (create_polygon fig_linewidth fill_color
                                 kw_linewidth kw_zorder))
       = Returned (set_unhilite PyNone
                     (create_polygon fig_linewidth fill_color kw_linewidth kw_zorder)))
  ∧ (∀ fig_linewidth kw_color kw_hilite kw_linewidth kw_zorder,
       unhighlight (highlight (create_polyline fig_linewidth kw_color kw_hilite
                                 kw_linewidth kw_zorder))
       = Returned (set_unhilite PyNone
                     (create_polyline fig_linewidth kw_color kw_hilite
                        kw_linewidth kw_zorder)))
  ∧ (∀ fig_linewidth kw_color kw_hilite kw_linewidth kw_zorder,
       unhighlight (highlight (create_vertex fig_linewidth kw_color kw_hilite
                                 kw_linewidth kw_zorder))
       = Returned (set_unhilite PyNone
                     (create_vertex fig_linewidth kw_color kw_hilite
                        kw_linewidth kw_zorder))).
Proof.
  split_and!; [|intros; apply unhighlight_highlight..].
  intros p. exists (set_unhilite PyNone p).
  split_and!; [apply unhighlight_highlight|done..].
Qed.

(** *** Connecting and disconnecting events *)

Lemma connect_event_fold l f :
  event_dict (foldl connect_event f l)
  = foldl (λ m ea, <[ea.1 := ea.2]> m) (event_dict f) l
  ∧ (is_Has (callback_ids f) → is_Has (callback_ids (foldl connect_event f l))).
Proof.
  revert f. induction l as [|[e a] l IH]; intros f; cbn [foldl]; [done|].
  destruct (IH (connect_event f (e, a))) as [IH1 IH2].
  rewrite IH1. split.
  - f_equal. unfold connect_event. simpl. by destruct (callback_ids f).
  - intros Hh. apply IH2. unfold connect_event. simpl.
    by destruct (callback_ids f).
Qed.

Lemma insert_fold_union (l : list (string * Handler)) (m : gmap string Handler) :
  NoDup l.*1 →
  foldl (λ m ea, <[ea.1 := ea.2]> m) m l = list_to_map l ∪ m.
Proof.
  revert m. induction l as [|[k v] l IH]; intros m Hnd; simpl.
  { by rewrite (left_id_L ∅ (∪)). }
  apply NoDup_cons in Hnd as [Hk Hnd]. rewrite (IH _ Hnd).
  rewrite <- insert_union_l. rewrite insert_union_r; [done|].
  by apply not_elem_of_list_to_map_1.
Qed.

Lemma event_dict_connect_events ad f :
  event_dict (connect_events (Some ad) f) = ad ∪ event_dict f.
Proof.
  unfold connect_events. simpl.
  destruct (connect_event_fold (map_to_list ad) (set_callback_ids (Has []) f)) as [-> _].
  rewrite insert_fold_union by apply NoDup_fst_map_to_list.
  by rewrite list_to_map_to_list.
Qed.

Lemma callback_ids_connect_events ad f :
  is_Has (callback_ids (connect_events ad f)).
Proof.
  unfold connect_events.
  by apply (connect_event_fold _ (set_callback_ids (Has []) f)).
Qed.

Lemma disconnect_events_connected f ids :
  callback_ids f = Has ids →
  disconnect_events f
  = (set_event_dict ∅
       (set_callback_ids PyNone
          (set_canvas (foldl (λ c clbk, mpl_disconnect clbk c) (canvas f) ids) f)),
     Returned (event_dict f)).
Proof.
  intros Hc. unfold disconnect_events, mbind, Py_bind, get, modify.
  by rewrite Hc.
Qed.

Lemma update_axis_limits_ok f a b :
  ax f = Some a →
  update_axis_limits (Some b) f
  = (set_ax (Some (set_ylim b.1.2 b.2.2 (set_xlim b.1.1 b.2.1 a))) f, Returned ()).
Proof.
  intros Ha. unfold update_axis_limits, mbind, Py_bind, get, modify. by rewrite Ha.
Qed.

(** C10.  On a figure whose events are connected ([callback_ids] is a
    list), [disconnect_events] returns the figure's [event_dict] and leaves
    an empty one, and [connect_events] of the returned mapping makes
    [event_dict] what it was.  What is returned after
    [connect_events(action_dict)] on an empty [event_dict] is [action_dict].
    [ZoomBoxAction] saves the mapping when it is made and, on release of the
    zoom box, has connected it again before it calls [action_complete]. *)
Theorem disconnect_then_connect_restores_event_dict (f : Fig) (ids : list nat) :
  callback_ids f = Has ids →
  (∃ f', disconnect_events f = (f', Returned (event_dict f)) ∧
         event_dict f' = ∅ ∧
         event_dict (connect_events (Some (event_dict f)) f') = event_dict f)
  ∧ (∀ action_dict,
       event_dict f = ∅ →
       (disconnect_events (connect_events (Some action_dict) f)).2
       = Returned action_dict)
  ∧ (∀ a press_event release_event,
       ax f = Some a →
       ∃ z f1 f2,
         ZoomBoxAction_init f = (f1, Returned z) ∧
         saved_events z = event_dict f ∧ event_dict f1 = ∅ ∧
         ZoomBoxAction_on_release z press_event release_event f1
         = (action_complete f2, Returned ()) ∧
         event_dict f2 = event_dict f).
Proof.
  intros Hc. pose proof (disconnect_events_connected f ids Hc) as Hd.
  split_and!.
  - eexists. split; [exact Hd|]. split; [done|].
    rewrite event_dict_connect_events. simpl. by rewrite (right_id_L ∅ (∪)).
  - intros ad He.
    pose proof (callback_ids_connect_events (Some ad) f) as Hh.
    destruct (callback_ids (connect_events (Some ad) f)) as [| |ids'] eqn:Hc';
      [done|done|].
    rewrite (disconnect_events_connected _ ids' Hc'). simpl.
    rewrite event_dict_connect_events, He. by rewrite (right_id_L ∅ (∪)).
  - intros a pe re Ha.
    eexists {| saved_events := event_dict f |}, _, _. split_and!.
    + unfold ZoomBoxAction_init, mbind, Py_bind. rewrite Hd.
      unfold get, modify, mret, Py_ret. simpl. rewrite Ha. reflexivity.
    + done.
    + done.
    + unfold ZoomBoxAction_on_release, set_view_bbox, mbind, Py_bind, modify.
      simpl. erewrite update_axis_limits_ok by (simpl; exact Ha). simpl.
      reflexivity.
    + rewrite event_dict_connect_events. simpl. by rewrite (right_id_L ∅ (∪)).
Qed.

(** *** Plotting and zooming *)


Lemma highlight_highlighted p : highlighted (highlight p) ∧ well_saved (highlight p).
Proof.
  unfold highlighted, well_saved, highlight.
  destruct p as [k [[[r g] b] a] ec c lw hc u z sh pk]. by destruct k.
Qed.

Lemma unhighlight_highlighted p :
  highlighted p → well_saved p →
  ∃ p', unhighlight p = Returned p' ∧ ¬ highlighted p' ∧ well_saved p'.
Proof.
  unfold highlighted, well_saved, unhighlight, polygon_unhighlight, line_unhighlight.
  destruct (unhilite p) as [| |[fc ec lw|c lw]]; [done|done|..]; intros _ Hk.
  - rewrite Hk. eexists. split; [done|]. unfold highlighted. simpl. tauto.
  - destruct (kind p); [done|..]; (eexists; split; [done|]; unfold highlighted; simpl; tauto).
Qed.

Lemma hilite_inv_frame f f' :
  store f' = store f → hilited f' = hilited f → hilite_inv f → hilite_inv f'.
Proof. intros Hs Hh [H1 H2 H3]. split; rewrite ?Hs, ?Hh; done. Qed.

(** A figure none of whose artists has been highlighted yet, as after
    construction ([create_polygon], [create_polyline] and [create_vertex]
    make artists without [unhilite]). *)
Lemma fresh_hilite_inv f :
  hilited f = None →
  (∀ id p, store f !! id = Some p → unhilite p = Missing) →
  hilite_inv f.
Proof.
  intros Hh Hall. split.
  - intros id p Hp. rewrite Hh. unfold highlighted.
    rewrite (Hall id p Hp). split; [intros []|intros [=]].
  - intros h. rewrite Hh. intros [=].
  - intros id p Hp. unfold well_saved. rewrite (Hall id p Hp). exact I.
Qed.

Lemma InteractiveFigure_init_inv frame axes oversize aspect bbox scale c :
  hilite_inv (InteractiveFigure_init frame axes oversize aspect bbox scale c).
Proof. apply fresh_hilite_inv; [done|]. intros id p Hp. by simpl in Hp. Qed.

(** *** The handlers, piece by piece *)

Lemma find_artists_at_location_ok event f a :
  ax f = Some a →
  find_artists_at_location event f
  = (f, Returned (sorted_desc (zorder_of (store f))
                    (omap (select_info f a event) (children a)))).
Proof.
  intros Ha. unfold find_artists_at_location, mbind, Py_bind, get. by rewrite Ha.
Qed.

Lemma select_info_Some f a event id s :
  select_info f a event id = Some s →
  artist s = id ∧
  ∃ p, store f !! id = Some p ∧ is_Some (shape p) ∧ (contains a id p event).1 = true.
Proof.
  unfold select_info. destruct (store f !! id) as [p|]; [|done].
  destruct (shape p) eqn:Hs; [|done].
  destruct (contains a id p event) as [[] i] eqn:Hc; [|done].
  intros [= <-]. split; [done|]. exists p. rewrite Hs, Hc. by split_and!.
Qed.

Lemma insert_desc_head {A} (key : A → Q) x l :
  head (insert_desc key x l)
  = Some match head l with
         | Some y => if Qlt_le_dec (key x) (key y) then y else x
         | None => x
         end.
Proof. destruct l as [|y l]; simpl; [done|]. by destruct (Qlt_le_dec _ _). Qed.

(** The first of the sorted list is an element of greatest key. *)
Lemma sorted_desc_head {A} (key : A → Q) (l : list A) :
  match head (sorted_desc key l) with
  | Some x => x ∈ l ∧ ∀ y, y ∈ l → (key y <= key x)%Q
  | None => l = []
  end.
Proof.
  induction l as [|x l IH]; [done|].
  unfold sorted_desc in *. cbn [foldr]. rewrite insert_desc_head.
  destruct (head (foldr (insert_desc key) [] l)) as [y|].
  - destruct IH as [Hy Hmax]. destruct (Qlt_le_dec (key x) (key y)) as [Hlt|Hge].
    + split; [by right|]. intros z [->|Hz]%elem_of_cons; [lra|by apply Hmax].
    + split; [by left|]. intros z [->|Hz]%elem_of_cons; [lra|].
      specialize (Hmax z Hz). lra.
  - subst l. split; [by left|]. intros z [->|Hz]%elem_of_cons; [lra|].
    by apply elem_of_nil in Hz.
Qed.

Lemma select_info_at_cursor f a event id :
  at_cursor f a event id ↔
  ∃ s, s ∈ omap (select_info f a event) (children a) ∧ artist s = id.
Proof.
  split.
  - intros (Hin & p & Hp & [sh Hsh] & Hc).
    exists {| artist := id; info := (contains a id p event).2 |}. split; [|done].
    apply list_elem_of_omap. exists id. split; [done|].
    unfold select_info. rewrite Hp, Hsh.
    destruct (contains a id p event) as [inside i]. simpl in *. by rewrite Hc.
  - intros (s & (id' & Hin & Hs)%list_elem_of_omap & <-).
    apply select_info_Some in Hs as (-> & p & Hp & Hsh & Hc).
    split; [done|]. by exists p.
Qed.

(** It is an artist at the cursor of greatest z-order, and there is none
    exactly when no artist is at the cursor. *)
Lemma next_hilited_topmost f a event :
  match next_hilited f a event with
  | Some n =>
      at_cursor f a event (artist n) ∧
      ∃ pn, store f !! artist n = Some pn ∧
            ∀ id p, at_cursor f a event id → store f !! id = Some p →
                    (zorder p <= zorder pn)%Q
  | None => ∀ id, ¬ at_cursor f a event id
  end.
Proof.
  unfold next_hilited.
  pose proof (sorted_desc_head (zorder_of (store f))
                (omap (select_info f a event) (children a))) as Hh.
  destruct (head _) as [n|].
  - destruct Hh as [Hn Hmax].
    assert (Hat : at_cursor f a event (artist n)).
    { apply select_info_at_cursor. by exists n. }
    split; [done|]. destruct Hat as (_ & pn & Hpn & _). exists pn. split; [done|].
    intros id p (s & Hs & <-)%select_info_at_cursor Hp.
    specialize (Hmax s Hs). unfold zorder_of in Hmax. by rewrite Hp, Hpn in Hmax.
  - intros id (s & Hs & _)%select_info_at_cursor. rewrite Hh in Hs.
    by apply elem_of_nil in Hs.
Qed.

(** [on_motion] with nothing selected, on a plotted figure in a state the
    handlers themselves produce. *)
Lemma on_motion_hover event f a :
  selected f = None → ax f = Some a → hilite_inv f →
  ∃ f', on_motion event f = (f', Returned ()) ∧
    (artist <$> next_hilited f a event = artist <$> hilited f → f' = f) ∧
    (artist <$> next_hilited f a event ≠ artist <$> hilited f →
       hilited f' = next_hilited f a event ∧
       (∀ h p, hilited f = Some h → store f !! artist h = Some p →
               ∃ p', unhighlight p = Returned p' ∧ ¬ highlighted p' ∧ well_saved p' ∧
                     store f' !! artist h = Some p') ∧
       (∀ n p, next_hilited f a event = Some n → store f !! artist n = Some p →
               store f' !! artist n = Some (highlight p)) ∧
       (∀ id, artist <$> hilited f ≠ Some id →
              artist <$> next_hilited f a event ≠ Some id →
              store f' !! id = store f !! id) ∧
       f' = set_hilited (next_hilited f a event) (set_store (store f') f)).
Proof.
  intros Hsel Ha Hinv.
  pose proof (next_hilited_topmost f a event) as Htop.
  unfold on_motion, mbind, Py_bind, get. rewrite Hsel.
  rewrite (find_artists_at_location_ok event f a Ha).
  fold (next_hilited f a event). simpl.
  destruct (decide (artist <$> next_hilited f a event = artist <$> hilited f))
    as [Heq|Hne].
  { exists f. split; [done|]. split; [done|]. intros Hne. by destruct Hne. }
  destruct (hilited f) as [h|] eqn:Hh.
  - destruct (inv_present f Hinv h Hh) as [p Hp].
    destruct (unhighlight_highlighted p) as (p' & Hu & Hnh' & Hws').
    { apply (inv_hilited f Hinv _ _ Hp). by rewrite Hh. }
    { by apply (inv_saved f Hinv _ _ Hp). }
    unfold artist_unhighlight, mbind, Py_bind, get, lift, modify.
    rewrite Hp, Hu. simpl.
    destruct (next_hilited f a event) as [n|] eqn:Hn.
    + destruct Htop as (_ & pn & Hpn & _).
      assert (Hnh : artist h ≠ artist n) by (intros Hc; apply Hne; simpl; by rewrite Hc).
      unfold artist_highlight, mbind, Py_bind, get, modify. simpl.
      rewrite lookup_insert_ne, Hpn by done. simpl.
      eexists. split; [reflexivity|]. split; [done|]. intros _. simpl.
      split_and!; [done| | | |done].
      * intros h' q [= <-]. rewrite Hp. intros [= <-]. exists p'.
        split_and!; [done..|].
        rewrite lookup_insert_ne by done. apply lookup_insert_eq.
      * intros n' q [= <-]. rewrite Hpn. intros [= <-]. apply lookup_insert_eq.
      * intros id Hi1 Hi2. rewrite !lookup_insert_ne; [done|congruence|congruence].
    + simpl. eexists. split; [reflexivity|]. split; [done|]. intros _. simpl.
      split_and!; [done| |done| |done].
      * intros h' q [= <-]. rewrite Hp. intros [= <-]. exists p'.
        split_and!; [done..|]. apply lookup_insert_eq.
      * intros id Hi1 _. rewrite lookup_insert_ne; [done|congruence].
  - simpl. destruct (next_hilited f a event) as [n|] eqn:Hn; [|done].
    destruct Htop as (_ & pn & Hpn & _).
    unfold artist_highlight, mbind, Py_bind, get, modify. simpl.
    rewrite Hpn. simpl.
    eexists. split; [reflexivity|]. split; [done|]. intros _. simpl.
    split_and!; [done|done| | |done].
    * intros n' q [= <-]. rewrite Hpn. intros [= <-]. apply lookup_insert_eq.
    * intros id _ Hi2. rewrite lookup_insert_ne; [done|congruence].
Qed.

(** The sorted list has the elements of the list, in descending order. *)
Lemma insert_desc_perm {A} (key : A → Q) x l : insert_desc key x l ≡ₚ x :: l.
Proof.
  induction l as [|y l IH]; simpl; [done|].
  destruct (Qlt_le_dec _ _); [|done]. rewrite IH. apply Permutation_swap.
Qed.

Lemma sorted_desc_perm {A} (key : A → Q) (l : list A) : sorted_desc key l ≡ₚ l.
Proof.
  induction l as [|x l IH]; [done|].
  unfold sorted_desc in *. cbn [foldr]. by rewrite insert_desc_perm, IH.
Qed.

Lemma insert_desc_sorted {A} (key : A → Q) x l :
  StronglySorted (λ u v, (key v <= key u)%Q) l →
  StronglySorted (λ u v, (key v <= key u)%Q) (insert_desc key x l).
Proof.
  induction 1 as [|y l Hs IH Hall]; simpl; [by repeat constructor|].
  destruct (Qlt_le_dec (key x) (key y)) as [Hlt|Hge].
  - constructor; [done|].
    rewrite insert_desc_perm. constructor; [lra|done].
  - constructor; [by constructor|].
    constructor; [done|].
    eapply Forall_impl; [exact Hall|]. intros z Hz. simpl in Hz. lra.
Qed.

Lemma sorted_desc_sorted {A} (key : A → Q) (l : list A) :
  StronglySorted (λ u v, (key v <= key u)%Q) (sorted_desc key l).
Proof.
  induction l as [|x l IH]; [constructor|].
  unfold sorted_desc in *. cbn [foldr]. by apply insert_desc_sorted.
Qed.

(** C3.  On a motion event while nothing is selected (on a plotted figure
    in a state the handlers produce): [find_artists_at_location] returns
    the artists at the cursor sorted by descending z-order; [on_motion]
    takes the first, an artist at the cursor of greatest z-order (none when
    the cursor is over nothing).  If that is the artist already hilited,
    nothing changes; otherwise the old one (if any) is unhighlighted, the
    new one (if any) is highlighted, no other artist changes, and
    [self.hilited] becomes the new hit (or [None]). *)
Theorem on_motion_highlights_topmost_artist (event : MouseEvent) (f : Fig) (a : Axes) :
  selected f = None → ax f = Some a → hilite_inv f →
  (∃ hits,
     find_artists_at_location event f = (f, Returned hits) ∧
     hits ≡ₚ omap (select_info f a event) (children a) ∧
     StronglySorted (λ u v, (zorder_of (store f) v <= zorder_of (store f) u)%Q) hits ∧
     head hits = next_hilited f a event)
  ∧ match next_hilited f a event with
    | Some n =>
        at_cursor f a event (artist n) ∧
        ∃ pn, store f !! artist n = Some pn ∧
              ∀ id p, at_cursor f a event id → store f !! id = Some p →
                      (zorder p <= zorder pn)%Q
    | None => ∀ id, ¬ at_cursor f a event id
    end
  ∧ ∃ f', on_motion event f = (f', Returned ()) ∧
      (artist <$> next_hilited f a event = artist <$> hilited f → f' = f) ∧
      (artist <$> next_hilited f a event ≠ artist <$> hilited f →
         hilited f' = next_hilited f a event ∧
         (∀ h p, hilited f = Some h → store f !! artist h = Some p →
                 ∃ p', unhighlight p = Returned p' ∧ ¬ highlighted p' ∧
                       well_saved p' ∧ store f' !! artist h = Some p') ∧
         (∀ n p, next_hilited f a event = Some n → store f !! artist n = Some p →
                 store f' !! artist n = Some (highlight p)) ∧
         (∀ id, artist <$> hilited f ≠ Some id →
                artist <$> next_hilited f a event ≠ Some id →
                store f' !! id = store f !! id) ∧
         f' = set_hilited (next_hilited f a event) (set_store (store f') f)).
Proof.
  intros Hsel Ha Hinv. split_and!.
  - eexists. split; [by apply find_artists_at_location_ok|].
    split; [apply sorted_desc_perm|]. split; [apply sorted_desc_sorted|done].
  - apply next_hilited_topmost.
  - by apply on_motion_hover.
Qed.

Ltac unfold_py :=
  unfold mbind, mret, Py_bind, Py_ret, get, gets, modify, lift in *.

Lemma on_press_pan_started event f :
  pan_registered f → pan_started (on_press event f).1.
Proof.
  intros [[pa Hp] [a Ha]].
  unfold on_press, call_do_action, PanAction_actions, PanAction_on_press.
  unfold_py. simpl. rewrite Hp. simpl. rewrite Ha. simpl.
  split; [split|]; simpl; by eauto.
Qed.

Lemma on_motion_pan_started event f :
  pan_started f → pan_started (on_motion event f).1.
Proof.
  intros [[[pa Hp] [a Ha]] Hs].
  unfold on_motion, find_artists_at_location, artist_unhighlight, artist_highlight,
    call_do_action, PanAction_actions, PanAction_on_drag.
  unfold_py. unfold pan_started, pan_registered.
  destruct (selected f) as [sel|] eqn:Hsel; simpl; rewrite ?Hp, ?Ha; simpl;
    repeat (case_match; simpl; rewrite ?Hsel, ?Hp, ?Ha; simpl);
    simplify_eq/=; rewrite ?Hp, ?Ha; by eauto.
Qed.

Lemma pan_started_run event drags f :
  pan_registered f →
  pan_started (run_events f (ButtonPress event :: map MotionNotify drags)).
Proof.
  intros Hr. unfold run_events. cbn [foldl dispatch].
  pose proof (on_press_pan_started event f Hr) as Hs.
  generalize dependent ((on_press event f).1). clear Hr.
  induction drags as [|d drags IH]; intros g Hg; cbn [map foldl dispatch]; [done|].
  by apply IH, on_motion_pan_started.
Qed.

Lemma on_release_pan event f a :
  pan_started f → ax f = Some a →
  ∃ f1, on_release event f = (action_complete f1, Returned ()) ∧
        ax f1 = Some (end_pan a) ∧
        view_bbox f1
        = Some (((get_bound (xlim (end_pan a))).1, (get_bound (ylim (end_pan a))).1),
                ((get_bound (xlim (end_pan a))).2, (get_bound (ylim (end_pan a))).2)).
Proof.
  intros [[[pa Hp] _] Hs] Ha.
  unfold on_release, call_do_action, PanAction_actions, PanAction_on_release.
  unfold_py. rewrite Hp, Ha. simpl.
  destruct (get_bound (xlim (end_pan a))) as [x_min x_max].
  destruct (get_bound (ylim (end_pan a))) as [y_min y_max]. simpl.
  destruct (save_do_scale_bounds f) as [| |b]; [done|done|]. simpl.
  eexists. split; [reflexivity|]. by simpl.
Qed.

(** C6.  With a [PanAction] registered on a plotted figure, after a press
    and any number of motion events the release handler ends the pan and,
    before it calls [action_complete], has set [view_bbox] to
    [[[x_min, y_min], [x_max, y_max]]], the x and y bounds of the axes as the
    pan left them. *)
Theorem pan_release_sets_view_bbox
    (f : Fig) (action_obj : PanAction) (a : Axes)
    (press_event release_event : MouseEvent) (drags : list MouseEvent) :
  do_action f = DoCommandAction action_obj → ax f = Some a →
  ∃ a0 f1,
    ax (run_events f (ButtonPress press_event :: map MotionNotify drags)) = Some a0 ∧
    on_release release_event
      (run_events f (ButtonPress press_event :: map MotionNotify drags))
    = (action_complete f1, Returned ()) ∧
    ax f1 = Some (end_pan a0) ∧
    view_bbox f1
    = Some (((get_bound (xlim (end_pan a0))).1, (get_bound (ylim (end_pan a0))).1),
            ((get_bound (xlim (end_pan a0))).2, (get_bound (ylim (end_pan a0))).2)).
Proof.
  intros Hp Ha.
  assert (Hs : pan_started
                 (run_events f (ButtonPress press_event :: map MotionNotify drags))).
  { apply pan_started_run. split; by eauto. }
  destruct Hs as [[Hpa [a0 Ha0]] Hsv].
  destruct (on_release_pan release_event
              (run_events f (ButtonPress press_event :: map MotionNotify drags)) a0)
    as (f1 & Hr & Hax & Hv); [by split_and!; eauto|done|].
  by exists a0, f1.
Qed.

(** *** The highlight invariant *)

Lemma on_motion_hover_inv event f a :
  selected f = None → ax f = Some a → hilite_inv f →
  hilite_inv (on_motion event f).1.
Proof.
  intros Hsel Ha Hinv.
  destruct (on_motion_hover event f a Hsel Ha Hinv) as (f' & Hm & Heq & Hne).
  rewrite Hm. simpl.
  destruct (decide (artist <$> next_hilited f a event = artist <$> hilited f))
    as [He|He]; [by rewrite (Heq He)|].
  destruct (Hne He) as (Hh & Hold & Hnew & Hoth & _).
  pose proof (next_hilited_topmost f a event) as Htop.
  assert (Hcases : ∀ id q, store f' !! id = Some q →
            (artist <$> next_hilited f a event = Some id ∧
               ∃ pn, q = highlight pn)
            ∨ (artist <$> next_hilited f a event ≠ Some id ∧
               ¬ highlighted q ∧ well_saved q)).
  { intros id q Hq.
    destruct (decide (artist <$> next_hilited f a event = Some id)) as [Hn|Hn].
    - left. split; [done|].
      destruct (next_hilited f a event) as [n|]; [|done]. injection Hn as <-.
      destruct Htop as (_ & pn & Hpn & _). exists pn.
      rewrite (Hnew n pn eq_refl Hpn) in Hq. by injection Hq.
    - right. split; [done|].
      destruct (decide (artist <$> hilited f = Some id)) as [Ho|Ho].
      + destruct (hilited f) as [h|] eqn:Hhf; [|done]. injection Ho as <-.
        destruct (inv_present f Hinv h Hhf) as [p Hp].
        destruct (Hold h p eq_refl Hp) as (p' & _ & Hnh & Hws & Hp').
        rewrite Hp' in Hq. by injection Hq as <-.
      + rewrite (Hoth id Ho Hn) in Hq. split.
        * intros Hhl. by apply (inv_hilited f Hinv _ _ Hq) in Hhl.
        * by apply (inv_saved f Hinv _ _ Hq). }
  split.
  - intros id q Hq. rewrite Hh.
    destruct (Hcases id q Hq) as [[Hn (pn & ->)]|(Hn & Hnh & _)].
    + split; [done|]. intros _. apply highlight_highlighted.
    + split; [by intros ?|by intros ?].
  - intros h' Hh'. rewrite Hh in Hh'. rewrite Hh' in Htop, Hnew.
    destruct Htop as (_ & pn & Hpn & _). rewrite (Hnew h' pn eq_refl Hpn). by eexists.
  - intros id q Hq.
    destruct (Hcases id q Hq) as [[Hn (pn & ->)]|(_ & _ & Hws)]; [|done].
    apply highlight_highlighted.
Qed.

Lemma pan_action_frame action_obj event_key event f :
  store (PanAction_actions action_obj event_key event f).1 = store f ∧
  hilited (PanAction_actions action_obj event_key event f).1 = hilited f.
Proof.
  unfold PanAction_actions, PanAction_on_press, PanAction_on_drag, PanAction_on_release.
  unfold_py.
  destruct event_key; simpl; repeat (case_match; simpl); by simplify_eq/=.
Qed.

(** While an artist is selected, [on_motion] does what the action does and
    nothing more. *)
Lemma on_motion_selected event f sel :
  selected f = Some sel →
  (on_motion event f).1 = (call_do_action event (Some sel) Drag f).1.
Proof.
  intros Hsel. unfold on_motion. unfold_py. rewrite Hsel.
  destruct (call_do_action event (Some sel) Drag f) as [f' [[]|e]]; simpl; [|done].
  by repeat (case_match; simpl).
Qed.

(** *** Highlighting a polygon *)

(** X7.  Highlighting a polygon whose face alpha lies in [0, 1] moves the
    alpha by one half: up when that stays within 1, down otherwise, so the
    new alpha lies in (0, 1].  The colour components, the edge colour and
    the line width stay, and the old style is kept in [unhilite]. *)
Theorem polygon_highlight_shifts_alpha (p : Artist) (r g b a : Q) :
  kind p = Polygon → facecolor p = (r, g, b, a) → (0 <= a)%Q → (a <= 1)%Q →
  ∃ a', facecolor (highlight p) = (r, g, b, a') ∧
        (0 < a')%Q ∧ (a' <= 1)%Q ∧
        ((a <= 0.5)%Q → a' = (a + 0.5)%Q) ∧
        ((0.5 < a)%Q → a' = (a + 0.5 - 1.0)%Q ∧ (a' == a - 0.5)%Q) ∧
        edgecolor (highlight p) = edgecolor p ∧
        a_linewidth (highlight p) = a_linewidth p ∧
        unhilite (highlight p)
        = Has (SavedPolygon (r, g, b, a) (edgecolor p) (a_linewidth p)).
Proof.
  intros Hk Hf H0 H1. unfold highlight, polygon_highlight. rewrite Hk, Hf.
  destruct (Qlt_le_dec 1.0 (a + 0.5)) as [Hgt|Hle]; simpl.
  - exists (a + 0.5 - 1.0)%Q. split_and!; try done; try lra.
    intros _. split; [done|lra].
  - exists (a + 0.5)%Q. split_and!; try done; lra.
Qed.

(** X8.  [unhighlight] returns normally exactly on an artist that holds
    the tuple its own [highlight] saved.  On an artist that was never
    highlighted (as every artist just created) it raises [AttributeError];
    once it has returned, a second [unhighlight] raises [TypeError]. *)
Theorem unhighlight_needs_highlight :
  (∀ p, (∃ p', unhighlight p = Returned p') ↔ highlighted p ∧ well_saved p)
  ∧ (∀ p, unhilite p = Missing → unhighlight p = Raised AttributeError)
  ∧ (∀ p, unhilite p = PyNone → unhighlight p = Raised TypeError)
  ∧ (∀ p p', unhighlight p = Returned p' → unhighlight p' = Raised TypeError)
  ∧ (∀ fig_linewidth fill_color kw_linewidth kw_zorder,
       unhighlight (create_polygon fig_linewidth fill_color kw_linewidth kw_zorder)
       = Raised AttributeError)
  ∧ (∀ fig_linewidth kw_color kw_hilite kw_linewidth kw_zorder,
       unhighlight (create_polyline fig_linewidth kw_color kw_hilite
                      kw_linewidth kw_zorder)
       = Raised AttributeError)
  ∧ (∀ fig_linewidth kw_color kw_hilite kw_linewidth kw_zorder,
       unhighlight (create_vertex fig_linewidth kw_color kw_hilite
                      kw_linewidth kw_zorder)
       = Raised AttributeError).
Proof.
  split_and!; try done.
  - intros p. split.
    + intros [p' Hp]. revert Hp.
      unfold unhighlight, polygon_unhighlight, line_unhighlight, highlighted, well_saved.
      destruct (kind p) eqn:Hk; destruct (unhilite p) as [| |[fc ec lw|c lw]];
        simpl; try done.
    + intros [Hh Hw].
      destruct (unhighlight_highlighted p Hh Hw) as (p' & Hp & _). by exists p'.
  - intros p Hu. unfold unhighlight, polygon_unhighlight, line_unhighlight.
    rewrite Hu. by destruct (kind p).
  - intros p Hu. unfold unhighlight, polygon_unhighlight, line_unhighlight.
    rewrite Hu. by destruct (kind p).
  - intros p p'. unfold unhighlight, polygon_unhighlight, line_unhighlight.
    destruct (kind p) eqn:Hk; destruct (unhilite p) as [| |[fc ec lw|c lw]];
      simpl; try done; intros [= <-]; simpl; by rewrite ?Hk.
Qed.

(** X9.  The getter of [is_unit_aspect_ratio] returns what the setter was
    given; setting the property to what the getter returns leaves [aspect]
    as it was exactly when it was ['equal'] or ['auto'] (a numeric aspect
    becomes ['auto']). *)
Theorem is_unit_aspect_ratio_round_trip :
  (∀ value, is_unit_aspect_ratio (set_is_unit_aspect_ratio value) = value)
  ∧ (∀ aspect,
       set_is_unit_aspect_ratio (is_unit_aspect_ratio aspect) = aspect
       ↔ aspect = AspectName "equal" ∨ aspect = AspectName "auto")
  ∧ (∀ ratio, set_is_unit_aspect_ratio (is_unit_aspect_ratio (AspectRatio ratio))
              = AspectName "auto").
Proof.
  split_and!.
  - by intros [].
  - intros [name|ratio]; unfold set_is_unit_aspect_ratio, is_unit_aspect_ratio.
    + case_bool_decide as Hn.
      * subst name. split; [by left|done].
      * split; [intros [= <-]; by right|].
        intros [[= ->]|[= ->]]; done.
    + split; [done|]. by intros [|].
  - done.
Qed.

(** *** What plotting does to the axes, the artists and the events *)

(** The loop of [plot] over [self.artists]. *)
Lemma add_artists_spec (l : list nat) (f : Fig) :
  foldl (λ f a, set_ax (add_artist a <$> ax f)
                  (set_store (alter (set_picker 5) a (store f)) f)) f l
  = set_ax ((λ a, {| xlim := xlim a; ylim := ylim a;
                     children := children a ++ l |}) <$> ax f)
      (set_store (foldl (λ st a, alter (set_picker 5) a st) (store f) l) f).
Proof.
  revert f. induction l as [|i l IH]; intros f; cbn [foldl].
  - destruct f as [? ? ? ? ? ? ? ? ? ? ? ? ? ? [[? ? ?]|] ? ?];
      unfold set_ax, set_store; simpl; by rewrite ?app_nil_r.
  - rewrite IH.
    destruct f as [? ? ? ? ? ? ? ? ? ? ? ? ? ? [[? ? ?]|] ? ?];
      unfold set_ax, set_store, add_artist; simpl; by rewrite <- ?app_assoc.
Qed.

Lemma set_picker_store (l : list nat) (st : gmap nat Artist) (id : nat) :
  foldl (λ st a, alter (set_picker 5) a st) st l !! id
  = if decide (id ∈ l) then set_picker 5 <$> st !! id else st !! id.
Proof.
  revert st. induction l as [|i l IH]; intros st; cbn [foldl].
  { rewrite decide_False; [done|]. apply not_elem_of_nil. }
  rewrite IH. destruct (decide (id = i)) as [->|Hne].
  - rewrite lookup_alter_eq. rewrite (decide_True (P := i ∈ i :: l)) by by left.
    destruct (decide (i ∈ l)); [|done]. by destruct (st !! i).
  - rewrite lookup_alter_ne by done.
    destruct (decide (id ∈ l)) as [Hin|Hnin].
    + rewrite decide_True; [done|by right].
    + rewrite decide_False; [done|]. by intros [?|?]%elem_of_cons.
Qed.

(** [connect_events] touches the event dictionary, the connection ids and
    the canvas, and nothing else. *)
Lemma connect_event_fold_frame (l : list (string * Handler)) (f : Fig) ids0 :
  callback_ids f = Has ids0 →
  ∃ c ids ed,
    foldl connect_event f l
    = set_canvas c (set_callback_ids (Has ids) (set_event_dict ed f)).
Proof.
  revert f ids0. induction l as [|[e h] l IH]; intros f ids0 Hc; cbn [foldl].
  - exists (canvas f), ids0, (event_dict f). rewrite <- Hc. destruct f. reflexivity.
  - destruct (IH (connect_event f (e, h)) (ids0 ++ [next_cid (canvas f)]))
      as (c & ids & ed & ->).
    { unfold connect_event, mpl_connect. cbn [callback_ids set_canvas set_event_dict].
      rewrite Hc. reflexivity. }
    exists c, ids, ed. unfold connect_event, mpl_connect.
    cbn [callback_ids set_canvas set_event_dict]. rewrite Hc. reflexivity.
Qed.

Lemma connect_events_frame ad f :
  ∃ c ids ed,
    connect_events ad f
    = set_canvas c (set_callback_ids (Has ids) (set_event_dict ed f)).
Proof.
  unfold connect_events. generalize (map_to_list (default default_action_dict ad)).
  intros l.
  destruct (connect_event_fold_frame l (set_callback_ids (Has []) f) [])
    as (c & ids & ed & ->); [reflexivity|].
  exists c, ids, ed. reflexivity.
Qed.

Lemma event_dict_connect_default f :
  event_dict (connect_events None f) = default_action_dict ∪ event_dict f.
Proof.
  unfold connect_events. cbn [from_option].
  generalize default_action_dict. intros ad.
  destruct (connect_event_fold (map_to_list ad) (set_callback_ids (Has []) f)) as [-> _].
  rewrite insert_fold_union by apply NoDup_fst_map_to_list.
  by rewrite list_to_map_to_list.
Qed.

(** Running a method step by step. *)
Lemma bind_Returned {S A B} (m : Py S A) (k : A → Py S B) (s s' : S) (x : A) :
  m s = (s', Returned x) → (m ≫= k) s = k x s'.
Proof. intros Hm. unfold mbind, Py_bind. by rewrite Hm. Qed.

Lemma bind_Raised {S A B} (m : Py S A) (k : A → Py S B) (s s' : S) (e : exn) :
  m s = (s', Raised e) → (m ≫= k) s = (s', Raised e).
Proof. intros Hm. unfold mbind, Py_bind. by rewrite Hm. Qed.

Lemma set_ax_same (f : Fig) (a : Axes) : ax f = Some a → set_ax (Some a) f = f.
Proof. destruct f. cbn. by intros ->. Qed.

Lemma call_axes_ok (c : AxesCall) (f : Fig) (a : Axes) :
  ax f = Some a → call_axes c f = (set_ax (Some (called c a)) f, Returned ()).
Proof. intros Ha. unfold call_axes, mbind, Py_bind, get, modify. by rewrite Ha. Qed.

Lemma draw_frame_ok (b : bool) (f : Fig) (a : Axes) :
  ax f = Some a →
  draw_frame b f = (set_ax (Some (frame_drawn b a)) f, Returned ()).
Proof.
  intros Ha. unfold draw_frame, frame_drawn. destruct b.
  - by apply call_axes_ok.
  - erewrite bind_Returned by (apply call_axes_ok; exact Ha). reflexivity.
Qed.

Lemma draw_label_ok (label : option string) (c : string → AxesCall) (f : Fig) (a : Axes) :
  ax f = Some a →
  draw_label label c f = (set_ax (Some (label_drawn label c a)) f, Returned ()).
Proof.
  intros Ha. unfold draw_label, label_drawn. destruct label.
  - by apply call_axes_ok.
  - by rewrite (set_ax_same f a Ha).
Qed.

Lemma draw_axes_ok (f : Fig) (a : Axes) :
  ax f = Some a →
  draw_axes (do_draw_axes f) f = (set_ax (Some (axes_drawn f a)) f, Returned ()).
Proof.
  intros Ha. unfold draw_axes, axes_drawn.
  destruct (do_draw_axes f); [|by apply call_axes_ok].
  erewrite bind_Returned by (apply call_axes_ok; exact Ha). cbv beta.
  erewrite bind_Returned by (apply call_axes_ok; reflexivity). cbv beta.
  erewrite bind_Returned by (apply call_axes_ok; reflexivity). cbv beta.
  erewrite bind_Returned by reflexivity. cbv beta.
  erewrite bind_Returned by (apply draw_label_ok; reflexivity). cbv beta.
  erewrite bind_Returned by (apply draw_label_ok; reflexivity). cbv beta.
  erewrite draw_label_ok by reflexivity. reflexivity.
Qed.


Lemma set_ax_set_ax v w (f : Fig) : set_ax v (set_ax w f) = set_ax v f.
Proof. reflexivity. Qed.

(** The first two steps of [plot]: fresh axes holding the artists, every
    artist pickable. *)
Lemma plot_adds (f : Fig) :
  let f1 := set_ax (Some match ax f with Some a => cla a | None => add_subplot end) f in
  foldl (λ f a, set_ax (add_artist a <$> ax f)
                  (set_store (alter (set_picker 5) a (store f)) f)) f1 (artists f1)
  = set_ax (Some {| xlim := (0, 1)%Q; ylim := (0, 1)%Q; children := artists f |})
      (set_store (foldl (λ st a, alter (set_picker 5) a st) (store f) (artists f)) f).
Proof.
  cbv zeta. rewrite add_artists_spec. by destruct (ax f).
Qed.

Lemma plot_from_box (g : Fig) (a : Axes) (b : BBox) (ce : Fig → Fig) :
  ax g = Some a → view_bbox g = Some b →
  (f ← get;
   call_axes (SetAspect (aspect f));;
   f ← get;
   update_axis_limits (view_bbox f);;
   f ← get;
   draw_frame (do_draw_frame f);;
   call_axes SetFacecolor;;
   f ← get;
   draw_axes (do_draw_axes f);;
   modify ce) g
  = (ce (set_ax (Some (finished g
                         (set_ylim b.1.2 b.2.2
                            (set_xlim b.1.1 b.2.1
                               (called (SetAspect (aspect g)) a))))) g),
     Returned ()).
Proof.
  intros Ha Hv.
  erewrite bind_Returned by reflexivity. cbv beta.
  erewrite bind_Returned by (apply call_axes_ok; exact Ha). cbv beta.
  erewrite bind_Returned by reflexivity. cbv beta.
  cbn [view_bbox set_ax]. rewrite Hv.
  erewrite bind_Returned by (apply update_axis_limits_ok; reflexivity). cbv beta.
  erewrite bind_Returned by reflexivity. cbv beta.
  erewrite bind_Returned by (apply draw_frame_ok; reflexivity). cbv beta.
  erewrite bind_Returned by (apply call_axes_ok; reflexivity). cbv beta.
  erewrite bind_Returned by reflexivity. cbv beta.
  erewrite bind_Returned by (apply draw_axes_ok; reflexivity). cbv beta.
  reflexivity.
Qed.

(** [plot] from beginning to end, when it has a box to take the axis
    limits from. *)
Lemma plot_ok (f : Fig) (b : BBox) :
  plotted_bbox f = Some b →
  plot f
  = (connect_events None
       (set_ax (Some (plotted_axes f b))
          (set_view_bbox_field (Some b)
             (set_store (foldl (λ st a, alter (set_picker 5) a st)
                           (store f) (artists f)) f))),
     Returned ()).
Proof.
  intros Hb. unfold plot. generalize (connect_events None). intros ce.
  erewrite bind_Returned by reflexivity. cbv beta.
  erewrite bind_Returned by reflexivity. cbv beta.
  rewrite plot_adds.
  erewrite bind_Returned by reflexivity. cbv beta.
  unfold plotted_bbox in Hb.
  cbn [do_scale_bounds sys_bbox oversize_factor set_ax set_store].
  destruct (do_scale_bounds f).
  - destruct (sys_bbox f) as [sb|]; [|discriminate Hb]. cbn in Hb. injection Hb as <-.
    erewrite bind_Returned by reflexivity. cbv beta.
    erewrite plot_from_box by reflexivity. reflexivity.
  - erewrite bind_Returned by reflexivity. cbv beta.
    erewrite plot_from_box by (reflexivity || exact Hb).
    rewrite <- Hb. destruct f. reflexivity.
Qed.

(** [plot] without a box to take the limits from. *)
Lemma plot_without_box (f : Fig) :
  plotted_bbox f = None →
  plot f
  = (set_ax (Some (if do_scale_bounds f
                   then {| xlim := (0, 1)%Q; ylim := (0, 1)%Q; children := artists f |}
                   else called (SetAspect (aspect f))
                          {| xlim := (0, 1)%Q; ylim := (0, 1)%Q;
                             children := artists f |}))
       (set_store (foldl (λ st a, alter (set_picker 5) a st)
                     (store f) (artists f)) f),
     Raised (if do_scale_bounds f then AttributeError else TypeError)).
Proof.
  intros Hb. unfold plot. generalize (connect_events None). intros ce.
  erewrite bind_Returned by reflexivity. cbv beta.
  erewrite bind_Returned by reflexivity. cbv beta.
  rewrite plot_adds.
  erewrite bind_Returned by reflexivity. cbv beta.
  unfold plotted_bbox in Hb.
  cbn [do_scale_bounds sys_bbox oversize_factor set_ax set_store].
  destruct (do_scale_bounds f).
  - destruct (sys_bbox f) as [sb|]; [discriminate Hb|].
    erewrite bind_Raised by reflexivity. reflexivity.
  - erewrite bind_Returned by reflexivity. cbv beta.
    erewrite bind_Returned by reflexivity. cbv beta.
    erewrite bind_Returned by (apply call_axes_ok; reflexivity). cbv beta.
    erewrite bind_Returned by reflexivity. cbv beta.
    cbn [view_bbox set_ax set_store]. rewrite Hb.
    erewrite bind_Raised by reflexivity. reflexivity.
Qed.

Lemma connect_events_view ad (f : Fig) :
  view_bbox (connect_events ad f) = view_bbox f ∧
  ax (connect_events ad f) = ax f ∧
  do_scale_bounds (connect_events ad f) = do_scale_bounds f.
Proof. by destruct (connect_events_frame ad f) as (c & ids & ed & ->). Qed.

(** What [plot] shows when it has a box. *)
Lemma plot_shows (f : Fig) (b : BBox) :
  plotted_bbox f = Some b →
  ∃ f', plot f = (f', Returned ()) ∧ view_bbox f' = Some b ∧
        do_scale_bounds f' = do_scale_bounds f ∧
        ax f' = Some (plotted_axes f b).
Proof.
  intros Hb. rewrite (plot_ok f b Hb). eexists. split; [reflexivity|].
  match goal with |- context [connect_events None ?g] =>
    destruct (connect_events_view None g) as (-> & -> & ->) end.
  done.
Qed.




Lemma children_finished (f : Fig) (a : Axes) : children (finished f a) = children a.
Proof.
  unfold finished, axes_drawn, frame_drawn, label_drawn.
  by destruct (do_draw_frame f), (do_draw_axes f), (header f), (x_label f), (y_label f).
Qed.

Lemma children_plotted_axes (f : Fig) (b : BBox) :
  children (plotted_axes f b) = artists f.
Proof. unfold plotted_axes. by rewrite children_finished. Qed.

(** X10.  [plot], given a box for the axis limits (the view box, or the
    scaled system box when [do_scale_bounds] is set), returns normally; the
    children of the axes are then [self.artists] in their order, those
    artists have pick radius 5 and are otherwise as they were, the three
    mouse handlers are in [event_dict], and the artists at the cursor are
    the artists of the list that carry a shape and contain the event.
    Plotting again gives the same children and artists. *)
Theorem plot_adds_artists (f : Fig) (b : BBox) :
  plotted_bbox f = Some b →
  ∃ f' a',
    plot f = (f', Returned ()) ∧ ax f' = Some a' ∧
    children a' = artists f ∧ artists f' = artists f ∧
    (∀ id, store f' !! id
           = if decide (id ∈ artists f) then set_picker 5 <$> store f !! id
             else store f !! id) ∧
    hilited f' = hilited f ∧ selected f' = selected f ∧
    event_dict f' = default_action_dict ∪ event_dict f ∧
    (∀ event id,
       at_cursor f' a' event id
       ↔ id ∈ artists f ∧
         ∃ p, store f !! id = Some p ∧ is_Some (shape p) ∧
              (contains a' id (set_picker 5 p) event).1 = true) ∧
    ∃ f'' a'', plot f' = (f'', Returned ()) ∧ ax f'' = Some a'' ∧
               children a'' = artists f ∧ store f'' = store f'.
Proof.
  intros Hb. rewrite (plot_ok f b Hb).
  match goal with |- context [connect_events None ?g] =>
    destruct (connect_events_frame None g) as (c & ids & ed & Hce);
    pose proof (event_dict_connect_default g) as Hed end.
  rewrite Hce in Hed. rewrite Hce. clear Hce.
  cbn [set_canvas set_callback_ids set_event_dict set_ax set_view_bbox_field set_store
       event_dict] in Hed.
  eexists _, _. split; [reflexivity|].
  cbn [ax store hilited selected artists event_dict set_canvas set_callback_ids
       set_event_dict set_ax set_view_bbox_field set_store children].
  split; [reflexivity|]. split; [apply children_plotted_axes|].
  split; [reflexivity|].
  split; [intros id; apply set_picker_store|].
  split; [reflexivity|]. split; [reflexivity|]. split; [exact Hed|]. split.
  - intros event id. unfold at_cursor.
    cbn [store set_canvas set_callback_ids set_event_dict set_ax
         set_view_bbox_field set_store].
    rewrite children_plotted_axes, set_picker_store. split.
    + intros (Hin & p' & Hp' & Hsh & Hc). split; [exact Hin|].
      rewrite decide_True in Hp' by exact Hin.
      destruct (store f !! id) as [p|]; [|discriminate Hp']. injection Hp' as <-.
      exists p. split; [reflexivity|]. split; [exact Hsh|exact Hc].
    + intros (Hin & p & Hp & Hsh & Hc). split; [exact Hin|].
      exists (set_picker 5 p). rewrite decide_True by exact Hin. rewrite Hp.
      split; [reflexivity|]. split; [exact Hsh|exact Hc].
  - match goal with |- context [plot ?g] =>
      assert (Hb' : plotted_bbox g = Some b) end.
    { unfold plotted_bbox in *.
      cbn [do_scale_bounds sys_bbox view_bbox oversize_factor set_canvas
           set_callback_ids set_event_dict set_ax set_view_bbox_field set_store].
      destruct (do_scale_bounds f); [exact Hb|reflexivity]. }
    rewrite (plot_ok _ b Hb').
    match goal with |- context [connect_events None ?g] =>
      destruct (connect_events_frame None g) as (c2 & ids2 & ed2 & Hce2) end.
    rewrite Hce2. clear Hce2.
    eexists _, _. split; [reflexivity|].
    cbn [ax store artists set_canvas set_callback_ids set_event_dict set_ax
         set_view_bbox_field set_store].
    split; [reflexivity|]. split; [by rewrite children_plotted_axes|].
    apply map_eq. intros id. rewrite !set_picker_store.
    destruct (decide (id ∈ artists f)); [|reflexivity].
    destruct (store f !! id); reflexivity.
Qed.

(** *** Zooming, step by step *)

Lemma zoom_plots (f : Fig) (factor : Q) (bbox : BBox) (a : Axes) :
  view_bbox f = Some bbox → ax f = Some a →
  zoom factor f
  = plot (set_ax (Some (set_ylim (zoomed factor bbox).1.2 (zoomed factor bbox).2.2
                          (set_xlim (zoomed factor bbox).1.1
                             (zoomed factor bbox).2.1 a)))
            (set_view_bbox_field (Some (zoomed factor bbox)) f)).
Proof.
  intros Hv Ha. unfold zoom.
  erewrite bind_Returned by reflexivity. cbv beta. rewrite Hv. cbv zeta.
  unfold set_view_bbox.
  erewrite bind_Returned; [reflexivity|].
  erewrite bind_Returned by reflexivity. cbv beta.
  by apply update_axis_limits_ok.
Qed.

Lemma zoom_unscaled (f : Fig) (factor : Q) (bbox : BBox) (a : Axes) :
  view_bbox f = Some bbox → ax f = Some a → do_scale_bounds f = false →
  ∃ f' a', zoom factor f = (f', Returned ()) ∧
           view_bbox f' = Some (zoomed factor bbox) ∧
           do_scale_bounds f' = false ∧ ax f' = Some a' ∧
           a' = plotted_axes f (zoomed factor bbox).
Proof.
  intros Hv Ha Hd. rewrite (zoom_plots f factor bbox a Hv Ha).
  match goal with |- context [plot ?g] =>
    destruct (plot_shows g (zoomed factor bbox)) as (f' & Hp & Hv' & Hd' & Ha')
  end.
  { unfold plotted_bbox.
    cbn [do_scale_bounds view_bbox set_ax set_view_bbox_field]. by rewrite Hd. }
  exists f', (plotted_axes f (zoomed factor bbox)). rewrite Hp, Hd'.
  cbn [do_scale_bounds set_ax set_view_bbox_field]. by split_and!.
Qed.




Lemma zoomed_twice k1 k2 bbox :
  (cen_x (zoomed k2 (zoomed k1 bbox)) == cen_x bbox)%Q ∧
  (cen_y (zoomed k2 (zoomed k1 bbox)) == cen_y bbox)%Q ∧
  (hlf_x (zoomed k2 (zoomed k1 bbox)) == k1 * k2 * hlf_x bbox)%Q ∧
  (hlf_y (zoomed k2 (zoomed k1 bbox)) == k1 * k2 * hlf_y bbox)%Q.
Proof.
  destruct bbox as [[x0 y0] [x1 y1]].
  unfold zoomed. unfold cen_x, cen_y, hlf_x, hlf_y.
  cbn [fst snd]. split_and!; field.
Qed.

(** X11.  Zooms compose by multiplying their factors: on a plotted figure
    with [do_scale_bounds] off, [zoom(k1)] followed by [zoom(k2)] leaves a
    view box with the centre of the first one and half-widths [k1 * k2]
    times the first ones (in exact arithmetic).  So [zoom_out] does not undo
    [zoom_in]: the two leave the box at 0.96 of its size. *)
Theorem zoom_composes (f : Fig) (k1 k2 : Q) (bbox : BBox) (a : Axes) :
  view_bbox f = Some bbox → ax f = Some a → do_scale_bounds f = false →
  (∃ f1 f2 nb,
     zoom k1 f = (f1, Returned ()) ∧ zoom k2 f1 = (f2, Returned ()) ∧
     view_bbox f2 = Some nb ∧
     (cen_x nb == cen_x bbox)%Q ∧ (cen_y nb == cen_y bbox)%Q ∧
     (hlf_x nb == k1 * k2 * hlf_x bbox)%Q ∧ (hlf_y nb == k1 * k2 * hlf_y bbox)%Q)
  ∧ (∃ f2 nb,
       (zoom_in;; zoom_out) f = (f2, Returned ()) ∧ view_bbox f2 = Some nb ∧
       (cen_x nb == cen_x bbox)%Q ∧ (cen_y nb == cen_y bbox)%Q ∧
       (hlf_x nb == 0.96 * hlf_x bbox)%Q ∧ (hlf_y nb == 0.96 * hlf_y bbox)%Q).
Proof.
  intros Hv Ha Hd.
  assert (Hgen : ∀ k1 k2, ∃ f1 f2,
            zoom k1 f = (f1, Returned ()) ∧ zoom k2 f1 = (f2, Returned ()) ∧
            view_bbox f2 = Some (zoomed k2 (zoomed k1 bbox))).
  { intros j1 j2.
    destruct (zoom_unscaled f j1 bbox a Hv Ha Hd) as (f1 & a1 & Hz1 & Hv1 & Hd1 & Ha1 & _).
    destruct (zoom_unscaled f1 j2 _ a1 Hv1 Ha1 Hd1) as (f2 & a2 & Hz2 & Hv2 & _).
    by exists f1, f2. }
  split.
  - destruct (Hgen k1 k2) as (f1 & f2 & Hz1 & Hz2 & Hv2).
    exists f1, f2, (zoomed k2 (zoomed k1 bbox)).
    destruct (zoomed_twice k1 k2 bbox) as (? & ? & ? & ?). by split_and!.
  - destruct (Hgen 0.8%Q 1.2%Q) as (f1 & f2 & Hz1 & Hz2 & Hv2).
    exists f2, (zoomed 1.2%Q (zoomed 0.8%Q bbox)).
    destruct (zoomed_twice 0.8%Q 1.2%Q bbox) as (Hcx & Hcy & Hhx & Hhy).
    split_and!; [|done|done|done|rewrite Hhx; ring|rewrite Hhy; ring].
    unfold zoom_in, zoom_out, mbind, Py_bind. by rewrite Hz1.
Qed.

(** X12.  What [zoom] and [set_view_bbox] do on a figure that cannot show
    the box: without a view box [zoom] raises [TypeError] and changes
    nothing; before the first [plot] (no axes yet) both raise
    [AttributeError] after they have stored the new view box; and
    [set_view_bbox(None)] on a plotted figure stores [None] and raises
    [TypeError]. *)
Theorem zoom_before_plot_raises (f : Fig) (factor : Q) :
  (view_bbox f = None → zoom factor f = (f, Raised TypeError))
  ∧ (∀ bbox, view_bbox f = Some bbox → ax f = None →
       zoom factor f
       = (set_view_bbox_field (Some (zoomed factor bbox)) f, Raised AttributeError))
  ∧ (∀ bbox, ax f = None →
       set_view_bbox bbox f = (set_view_bbox_field bbox f, Raised AttributeError))
  ∧ (∀ a, ax f = Some a →
       set_view_bbox None f = (set_view_bbox_field None f, Raised TypeError)).
Proof.
  unfold zoom, set_view_bbox, update_axis_limits, mbind, Py_bind, get, modify, lift.
  split_and!.
  - by intros ->.
  - intros bbox -> Ha. cbn [fst snd ax set_view_bbox_field]. by rewrite Ha.
  - intros bbox Ha. cbn [fst snd ax set_view_bbox_field]. by rewrite Ha.
  - intros a Ha. cbn [fst snd ax set_view_bbox_field]. by rewrite Ha.
Qed.

(** X13.  With nothing to take the axis limits from, [plot] raises after
    it has made the axes and added the artists, and before it connects the
    events: [TypeError] without a view box ([do_scale_bounds] off),
    [AttributeError] without a system box ([do_scale_bounds] on).  A
    figure constructed without a view box is in the first case, the
    [fit_axis_limits] of the class returning [None]. *)
Theorem plot_without_box_raises (f : Fig) :
  plotted_bbox f = None →
  ∃ f' a', plot f
           = (f', Raised (if do_scale_bounds f then AttributeError else TypeError)) ∧
           ax f' = Some a' ∧ children a' = artists f ∧
           callback_ids f' = callback_ids f ∧ event_dict f' = event_dict f ∧
           canvas f' = canvas f ∧ view_bbox f' = view_bbox f.
Proof.
  intros Hb. rewrite (plot_without_box f Hb). eexists _, _.
  split; [reflexivity|].
  cbn [ax callback_ids event_dict canvas view_bbox set_ax set_store].
  split; [reflexivity|]. by destruct (do_scale_bounds f).
Qed.


(** *** The zoom box *)

Lemma register_zoom_box_ok (f : Fig) (cb : nat) (ids : list nat) (a : Axes) :
  callback_ids f = Has ids → ax f = Some a →
  register_zoom_box cb f
  = (set_on_finished (Some cb)
       (set_do_action DoNothing
          (set_zoom_box_action (Some {| saved_events := event_dict f |})
             (set_canvas
                (rubber_box_connect
                   (foldl (λ c clbk, mpl_disconnect clbk c) (canvas f) ids))
                (set_event_dict ∅ (set_callback_ids PyNone f))))),
     Returned ()).
Proof.
  intros Hc Ha. unfold register_zoom_box, ZoomBoxAction_init, mbind, Py_bind.
  rewrite (disconnect_events_connected f ids Hc).
  unfold get, modify, mret, Py_ret.
  cbn [fst snd ax set_event_dict set_callback_ids set_canvas]. rewrite Ha.
  destruct f. reflexivity.
Qed.

Lemma ZoomBoxAction_on_release_ok
    (z : ZoomBoxAction) (press_event release_event : MouseEvent) (f : Fig) (a : Axes) :
  ax f = Some a →
  ZoomBoxAction_on_release z press_event release_event f
  = (action_complete
       (connect_events (Some (saved_events z))
          (set_canvas (rubber_box_disconnect (canvas f))
             (set_ax (Some (set_ylim (ev_ydata press_event) (ev_ydata release_event)
                              (set_xlim (ev_xdata press_event) (ev_xdata release_event) a)))
                (set_view_bbox_field
                   (Some ((ev_xdata press_event, ev_ydata press_event),
                          (ev_xdata release_event, ev_ydata release_event))) f)))),
     Returned ()).
Proof.
  intros Ha. unfold ZoomBoxAction_on_release, set_view_bbox, mbind, Py_bind, modify.
  cbn [fst snd].
  erewrite update_axis_limits_ok by (cbn [ax set_view_bbox_field]; exact Ha).
  generalize (connect_events (Some (saved_events z))). intros ce.
  reflexivity.
Qed.

(** X15.  [register_zoom_box] on a plotted figure disconnects the figure's
    events, keeps them in the [ZoomBoxAction], and makes [do_action] do
    nothing.  When the rubber band is released, the view box is the box
    from the press to the release point in data coordinates, corner for
    corner as they came, the axis limits are set from it, the saved events
    are connected again, and [on_finished] is called and cleared. *)
Theorem zoom_box_release_sets_view
    (f : Fig) (cb : nat) (ids : list nat) (a : Axes)
    (press_event release_event : MouseEvent) :
  callback_ids f = Has ids → ax f = Some a →
  ∃ f1 z f2 a2,
    register_zoom_box cb f = (f1, Returned ()) ∧
    zoom_box_action f1 = Some z ∧ saved_events z = event_dict f ∧
    do_action f1 = DoNothing ∧ on_finished f1 = Some cb ∧
    event_dict f1 = ∅ ∧ callback_ids f1 = PyNone ∧
    view_bbox f1 = view_bbox f ∧ ax f1 = ax f ∧
    ZoomBoxAction_on_release z press_event release_event f1
    = (set_on_finished None (run_on_finished cb f2), Returned ()) ∧
    view_bbox f2
    = Some ((ev_xdata press_event, ev_ydata press_event),
            (ev_xdata release_event, ev_ydata release_event)) ∧
    ax f2 = Some a2 ∧
    xlim a2 = (ev_xdata press_event, ev_xdata release_event) ∧
    ylim a2 = (ev_ydata press_event, ev_ydata release_event) ∧
    children a2 = children a ∧
    event_dict f2 = event_dict f ∧ on_finished f2 = Some cb ∧
    do_action f2 = DoNothing.
Proof.
  intros Hc Ha. rewrite (register_zoom_box_ok f cb ids a Hc Ha).
  set (f1 := set_on_finished _ _).
  assert (Ha1 : ax f1 = Some a) by exact Ha.
  pose proof (ZoomBoxAction_on_release_ok {| saved_events := event_dict f |}
                press_event release_event f1 a Ha1) as Hrel.
  cbn [saved_events] in Hrel.
  match type of Hrel with context [connect_events ?ad ?g] =>
    destruct (connect_events_frame ad g) as (c & ids' & ed & Hce);
    pose proof (event_dict_connect_events (event_dict f) g) as Hed;
    set (f2 := connect_events ad g) in * end.
  assert (Hof : on_finished f2 = Some cb) by (by rewrite Hce).
  exists f1, {| saved_events := event_dict f |}, f2,
    (set_ylim (ev_ydata press_event) (ev_ydata release_event)
       (set_xlim (ev_xdata press_event) (ev_xdata release_event) a)).
  split; [reflexivity|].
  do 8 (split; [reflexivity|]).
  split. { rewrite Hrel. unfold action_complete. by rewrite Hof. }
  split; [by rewrite Hce|]. split; [by rewrite Hce|].
  do 3 (split; [reflexivity|]).
  split. { rewrite Hed. subst f1. cbn. by rewrite (right_id_L ∅ (∪)). }
  split; [exact Hof|]. by rewrite Hce.
Qed.

(** X16.  [disconnect_events] needs connected events.  Once it has
    returned, a second call raises [TypeError] ([callback_ids] is [None]) and
    changes nothing; so does a second [register_zoom_box] before the first
    zoom box is finished.  On a figure whose events were never connected
    both raise [AttributeError]. *)
Theorem disconnect_events_twice_raises (f : Fig) (cb cb' : nat) :
  (∀ ids f1, callback_ids f = Has ids →
     disconnect_events f = (f1, Returned (event_dict f)) →
     disconnect_events f1 = (f1, Raised TypeError))
  ∧ (∀ ids a f1, callback_ids f = Has ids → ax f = Some a →
       register_zoom_box cb f = (f1, Returned ()) →
       register_zoom_box cb' f1 = (f1, Raised TypeError) ∧
       on_finished f1 = Some cb)
  ∧ (callback_ids f = Missing →
     disconnect_events f = (f, Raised AttributeError) ∧
     register_zoom_box cb f = (f, Raised AttributeError))
  ∧ (callback_ids f = PyNone →
     disconnect_events f = (f, Raised TypeError) ∧
     register_zoom_box cb f = (f, Raised TypeError)).
Proof.
  assert (Hraise : ∀ g n e,
            (callback_ids g = PyNone ∧ e = TypeError)
            ∨ (callback_ids g = Missing ∧ e = AttributeError) →
            disconnect_events g = (g, Raised e) ∧
            register_zoom_box n g = (g, Raised e)).
  { intros g n e He.
    unfold register_zoom_box, ZoomBoxAction_init, disconnect_events,
      mbind, Py_bind, get, lift.
    by destruct He as [[-> ->]|[-> ->]]. }
  split_and!.
  - intros ids f1 Hc. rewrite (disconnect_events_connected f ids Hc).
    intros [= <-]. apply (Hraise _ 0%nat). by left.
  - intros ids a f1 Hc Ha. rewrite (register_zoom_box_ok f cb ids a Hc Ha).
    intros [= <-]. split; [|done]. apply (Hraise _ cb'). by left.
  - intros Hc. apply Hraise. by right.
  - intros Hc. apply Hraise. by left.
Qed.

(** *** Presses and releases *)

Lemma on_press_idle (event : MouseEvent) (f : Fig) :
  do_action f = DoNothing ∨ (do_action f = DoShapeAction ∧ hilited f = None) →
  on_press event f
  = (set_selected (hilited f)
       (set_do_scale_bounds false
          (set_save_do_scale_bounds (Has (do_scale_bounds f)) f)),
     Returned ()).
Proof.
  intros Hd. unfold on_press, call_do_action, do_shape_action. unfold_py.
  cbn [fst snd do_action hilited selected set_selected set_do_scale_bounds
       set_save_do_scale_bounds].
  by destruct Hd as [->|[-> ->]].
Qed.

Lemma on_release_idle (event : MouseEvent) (f : Fig) :
  do_action f = DoNothing ∨ (do_action f = DoShapeAction ∧ selected f = None) →
  on_release event f
  = match save_do_scale_bounds f with
    | Has b => (action_complete (set_selected None (set_do_scale_bounds b f)),
                Returned ())
    | _ => (f, Raised AttributeError)
    end.
Proof.
  intros Hd. unfold on_release, call_do_action, do_shape_action. unfold_py.
  cbn [fst snd].
  destruct Hd as [->|[-> ->]]; by destruct (save_do_scale_bounds f).
Qed.

(** X17.  [save_do_scale_bounds] exists only once a press has been
    handled: a release that arrives first (with nothing selected and the
    shape action, or no action, in place) raises [AttributeError] and
    leaves the figure as it is, [on_finished] not being called.  The
    figure as constructed is in that state. *)
Theorem release_before_press_raises (f : Fig) (event : MouseEvent) :
  save_do_scale_bounds f = Missing →
  do_action f = DoNothing ∨ (do_action f = DoShapeAction ∧ selected f = None) →
  on_release event f = (f, Raised AttributeError)
  ∧ (∀ frame axes oversize aspect bbox scale c,
       on_release event
         (InteractiveFigure_init frame axes oversize aspect bbox scale c)
       = (InteractiveFigure_init frame axes oversize aspect bbox scale c,
          Raised AttributeError)).
Proof.
  intros Hs Hd. split.
  - rewrite (on_release_idle event f Hd). by rewrite Hs.
  - intros frame axes oversize aspect bbox scale c.
    rewrite on_release_idle; [done|]. by right.
Qed.

(** X18.  [on_press] always overwrites the saved [do_scale_bounds] flag.
    With nothing hilited and the shape action in place, a press and its
    release hand to [action_complete] a figure with the flag as it was
    before the press; but when a second press arrives before the release,
    what is saved is the [False] that the first press set, and the release
    hands over a figure with the flag off, whatever it was. *)
Theorem second_press_forgets_scale_bounds (f : Fig) (p1 p2 r : MouseEvent) :
  do_action f = DoShapeAction → hilited f = None →
  (∃ f1, (on_press p1;; on_release r) f = (action_complete f1, Returned ()) ∧
         do_scale_bounds f1 = do_scale_bounds f)
  ∧ save_do_scale_bounds (on_press p2 (on_press p1 f).1).1 = Has false
  ∧ (∃ f2, (on_press p1;; on_press p2;; on_release r) f
           = (action_complete f2, Returned ()) ∧
           do_scale_bounds f2 = false).
Proof.
  intros Ha Hh.
  pose proof (on_press_idle p1 f (or_intror (conj Ha Hh))) as Hp1.
  split_and!.
  - unfold mbind at 1. unfold Py_bind. rewrite Hp1.
    rewrite on_release_idle by (right; by rewrite Hh).
    cbn [save_do_scale_bounds set_selected set_do_scale_bounds
         set_save_do_scale_bounds].
    eexists. split; [reflexivity|done].
  - rewrite Hp1. cbn [fst]. rewrite on_press_idle by (right; by rewrite Hh).
    done.
  - unfold mbind at 1. unfold Py_bind. rewrite Hp1.
    unfold mbind at 1. unfold Py_bind.
    rewrite on_press_idle by (right; by rewrite Hh).
    rewrite on_release_idle by (right; by rewrite Hh).
    cbn [save_do_scale_bounds set_selected set_do_scale_bounds
         set_save_do_scale_bounds do_scale_bounds].
    eexists. split; [reflexivity|done].
Qed.

(** *** The pan, drag by drag *)

Lemma on_press_pan (event : MouseEvent) (f : Fig) (action_obj : PanAction) (a : Axes) :
  do_action f = DoCommandAction action_obj → ax f = Some a →
  on_press event f
  = (set_ax (Some (start_pan (ev_x event) (ev_y event) (ev_button event) a))
       (set_do_action (DoCommandAction {| button_pressed := Has (ev_button event) |})
          (set_selected (hilited f)
             (set_do_scale_bounds false
                (set_save_do_scale_bounds (Has (do_scale_bounds f)) f)))),
     Returned ()).
Proof.
  intros Hp Ha.
  unfold on_press, call_do_action, PanAction_actions, PanAction_on_press.
  unfold_py.
  cbn [fst snd do_action ax hilited selected set_selected set_do_scale_bounds
       set_save_do_scale_bounds set_do_action].
  rewrite Hp.
  cbn [fst snd do_action ax hilited selected set_selected set_do_scale_bounds
       set_save_do_scale_bounds set_do_action].
  by rewrite Ha.
Qed.

Lemma on_motion_drag (event : MouseEvent) (f : Fig) (sel : SelectInfo)
    (button : nat) (a : Axes) :
  selected f = Some sel →
  do_action f = DoCommandAction {| button_pressed := Has button |} →
  ax f = Some a →
  (on_motion event f).1
  = set_ax (Some (drag_pan button (ev_key event) (ev_x event) (ev_y event) a)) f.
Proof.
  intros Hsel Hp Ha. rewrite (on_motion_selected event f sel Hsel).
  unfold call_do_action, PanAction_actions, PanAction_on_drag. unfold_py.
  rewrite Hp, Ha. reflexivity.
Qed.

(** With nothing selected, [on_motion] may change what is hilited and how
    the artists look, and nothing else. *)
Lemma on_motion_hover_frame (event : MouseEvent) (f : Fig) :
  selected f = None →
  ∃ h st, (on_motion event f).1 = set_hilited h (set_store st f).
Proof.
  intros Hsel.
  assert (Hleaf : ∀ g, (g = f ∨ ∃ st, g = set_store st f) →
            ∃ h st, g = set_hilited h (set_store st f)).
  { intros g [->|[st ->]].
    - exists (hilited f), (store f). by destruct f.
    - exists (hilited f), st. by destruct f. }
  assert (Hset : ∀ h g, (g = f ∨ ∃ st, g = set_store st f) →
            ∃ h' st, set_hilited h g = set_hilited h' (set_store st f)).
  { intros h g [->|[st ->]].
    - exists h, (store f). by destruct f.
    - by exists h, st. }
  unfold on_motion, find_artists_at_location, artist_unhighlight, artist_highlight.
  unfold_py. rewrite Hsel.
  destruct (ax f) as [a|]; cbn [fst snd]; [|apply Hleaf; by left].
  destruct (decide _) as [Heq|Hne]; cbn [fst snd]; [apply Hleaf; by left|].
  destruct (hilited f) as [h|] eqn:Hh; cbn [fst snd].
  - destruct (store f !! artist h) as [p|]; cbn [fst snd]; [|apply Hleaf; by left].
    destruct (unhighlight p) as [p'|e]; cbn [fst snd]; [|apply Hleaf; by left].
    destruct (head _) as [n|]; cbn [fst snd store set_store].
    + destruct (_ !! artist n) as [q|]; cbn [fst snd].
      * apply Hset. right. eexists. by destruct f.
      * apply Hleaf. right. by eexists.
    + apply Hset. right. by eexists.
  - destruct (head _) as [n|]; cbn [fst snd store set_store].
    + destruct (_ !! artist n) as [q|]; cbn [fst snd].
      * apply Hset. right. by eexists.
      * apply Hleaf. by left.
    + apply Hset. by left.
Qed.

(** The motion events of a pan: they drag the axes when the press selected
    an artist, and only hover when it did not. *)
Lemma pan_drags_run (button : nat) (drags : list MouseEvent) (f : Fig) (a : Axes) :
  do_action f = DoCommandAction {| button_pressed := Has button |} →
  ax f = Some a →
  let f' := foldl dispatch f (map MotionNotify drags) in
  do_action f' = do_action f ∧ selected f' = selected f ∧
  do_scale_bounds f' = do_scale_bounds f ∧
  save_do_scale_bounds f' = save_do_scale_bounds f ∧
  on_finished f' = on_finished f ∧ view_bbox f' = view_bbox f ∧
  ax f' = Some (match selected f with
                | Some _ => dragged button a drags
                | None => a
                end).
Proof.
  revert f a. induction drags as [|d drags IH]; intros f a Hp Ha;
    cbn [map foldl dispatch].
  { unfold dragged. cbn [foldl]. by destruct (selected f). }
  destruct (selected f) as [sel|] eqn:Hsel.
  - pose proof (on_motion_drag d f sel button a Hsel Hp Ha) as Hm.
    destruct (IH (on_motion d f).1
                (drag_pan button (ev_key d) (ev_x d) (ev_y d) a))
      as (H1 & H2 & H3 & H4 & H5 & H6 & H7); [by rewrite Hm..|].
    rewrite H1, H2, H3, H4, H5, H6, H7. rewrite Hm.
    cbn [do_action selected do_scale_bounds save_do_scale_bounds on_finished
         view_bbox set_ax]. rewrite Hsel. by split_and!.
  - destruct (on_motion_hover_frame d f Hsel) as (h & st & Hm).
    destruct (IH (on_motion d f).1 a) as (H1 & H2 & H3 & H4 & H5 & H6 & H7);
      [by rewrite Hm..|].
    rewrite H1, H2, H3, H4, H5, H6, H7. rewrite Hm.
    cbn [do_action selected do_scale_bounds save_do_scale_bounds on_finished
         view_bbox set_hilited set_store]. rewrite Hsel. by split_and!.
Qed.

Lemma on_release_pan_state (event : MouseEvent) (f : Fig) (action_obj : PanAction)
    (a : Axes) (b : bool) :
  do_action f = DoCommandAction action_obj → ax f = Some a →
  save_do_scale_bounds f = Has b →
  on_release event f
  = (action_complete
       (set_selected None
          (set_do_scale_bounds b
             (set_view_bbox_field
                (Some (((get_bound (xlim (end_pan a))).1, (get_bound (ylim (end_pan a))).1),
                       ((get_bound (xlim (end_pan a))).2, (get_bound (ylim (end_pan a))).2)))
                (set_ax (Some (end_pan a)) f)))),
     Returned ()).
Proof.
  intros Hp Ha Hs.
  unfold on_release, call_do_action, PanAction_actions, PanAction_on_release.
  unfold_py. rewrite Hp, Ha. cbn [fst snd ax set_ax].
  destruct (get_bound (xlim (end_pan a))) as [x_min x_max].
  destruct (get_bound (ylim (end_pan a))) as [y_min y_max].
  cbn [fst snd save_do_scale_bounds set_view_bbox_field set_ax]. by rewrite Hs.
Qed.

(** X19.  With a [PanAction] registered on a plotted figure, the press
    starts the pan; the motion events that follow drag the axes, with the
    button of the press, only if an artist was hilited when the button went
    down (the press selects it).  With nothing hilited the motion events
    are treated as hovering and [drag_pan] is never called: the axes stay
    where [start_pan] left them. *)
Theorem pan_drags_follow_selection
    (f : Fig) (action_obj : PanAction) (a : Axes)
    (press_event : MouseEvent) (drags : list MouseEvent) :
  do_action f = DoCommandAction action_obj → ax f = Some a →
  let a0 := start_pan (ev_x press_event) (ev_y press_event) (ev_button press_event) a in
  let f1 := run_events f (ButtonPress press_event :: map MotionNotify drags) in
  (is_Some (hilited f) → ax f1 = Some (dragged (ev_button press_event) a0 drags))
  ∧ (hilited f = None → ax f1 = Some a0)
  ∧ selected f1 = hilited f
  ∧ do_action f1
    = DoCommandAction {| button_pressed := Has (ev_button press_event) |}.
Proof.
  intros Hp Ha a0 f1. subst f1. unfold run_events. cbn [foldl dispatch].
  rewrite (on_press_pan press_event f action_obj a Hp Ha). cbn [fst].
  match goal with |- context [foldl dispatch ?g _] =>
    destruct (pan_drags_run (ev_button press_event) drags g a0)
      as (H1 & H2 & _ & _ & _ & _ & H7); [reflexivity..|] end.
  rewrite H1, H2, H7. cbn [selected do_action set_ax set_do_action set_selected].
  split_and!; [|by intros ->|done|done].
  by intros [h ->].
Qed.

(** X20.  During a pan [do_scale_bounds] is off and the flag of before
    the press is kept in [save_do_scale_bounds]; the release puts the flag
    back, clears the selection and leaves the [PanAction] registered, and
    only then is [on_finished] called: the figure itself never goes back to
    the shape action. *)
Theorem pan_gesture_restores_scale_bounds
    (f : Fig) (action_obj : PanAction) (a : Axes)
    (press_event release_event : MouseEvent) (drags : list MouseEvent) :
  do_action f = DoCommandAction action_obj → ax f = Some a →
  let f1 := run_events f (ButtonPress press_event :: map MotionNotify drags) in
  do_scale_bounds f1 = false
  ∧ save_do_scale_bounds f1 = Has (do_scale_bounds f)
  ∧ ∃ f2, on_release release_event f1 = (action_complete f2, Returned ()) ∧
          do_scale_bounds f2 = do_scale_bounds f ∧ selected f2 = None ∧
          on_finished f2 = on_finished f ∧
          do_action f2
          = DoCommandAction {| button_pressed := Has (ev_button press_event) |}.
Proof.
  intros Hp Ha f1. subst f1. unfold run_events. cbn [foldl dispatch].
  rewrite (on_press_pan press_event f action_obj a Hp Ha). cbn [fst].
  match goal with |- context [foldl dispatch ?g _] =>
    destruct (pan_drags_run (ev_button press_event) drags g
                (start_pan (ev_x press_event) (ev_y press_event)
                   (ev_button press_event) a))
      as (H1 & H2 & H3 & H4 & H5 & _ & H7); [reflexivity..|];
    set (f1 := foldl dispatch g _) in * end.
  cbn [selected do_action do_scale_bounds save_do_scale_bounds on_finished
       set_ax set_do_action set_selected set_do_scale_bounds
       set_save_do_scale_bounds] in H1, H3, H4, H5.
  split; [exact H3|]. split; [exact H4|].
  rewrite (on_release_pan_state release_event f1 _ _ _ H1 H7 H4).
  eexists. split; [reflexivity|].
  cbn [do_scale_bounds selected on_finished do_action set_selected
       set_do_scale_bounds set_view_bbox_field set_ax].
  by split_and!.
Qed.

(** *** Artists of equal z-order *)

(** The first of the sorted list is, among the elements of greatest key,
    the one that comes first in the list. *)
Lemma sorted_desc_head_first {A} (key : A → Q) (l : list A) (x : A) :
  head (sorted_desc key l) = Some x →
  ∃ l1 l2, l = l1 ++ x :: l2 ∧
           (∀ y, y ∈ l1 → (key y < key x)%Q) ∧
           (∀ y, y ∈ l2 → (key y <= key x)%Q).
Proof.
  revert x. induction l as [|a l IH]; intros x; [done|].
  pose proof (sorted_desc_head key l) as Hmax.
  unfold sorted_desc in *. cbn [foldr]. rewrite insert_desc_head.
  destruct (head (foldr (insert_desc key) [] l)) as [y|].
  - destruct (IH y eq_refl) as (l1 & l2 & -> & Hl1 & Hl2).
    destruct Hmax as [_ Hmax].
    destruct (Qlt_le_dec (key a) (key y)) as [Hlt|Hge]; intros [= <-].
    + exists (a :: l1), l2. split; [done|]. split; [|done].
      intros z [->|Hz]%elem_of_cons; [done|by apply Hl1].
    + exists [], (l1 ++ y :: l2). split; [done|].
      split; [intros z Hz; by apply elem_of_nil in Hz|].
      intros z Hz. specialize (Hmax z Hz). lra.
  - subst l. intros [= <-]. exists [], []. split; [done|].
    split; intros z Hz; by apply elem_of_nil in Hz.
Qed.

Lemma omap_app_cons_inv {A B} (g : A → option B) (l : list A) m1 x m2 :
  omap g l = m1 ++ x :: m2 →
  ∃ l1 i l2, l = l1 ++ i :: l2 ∧ omap g l1 = m1 ∧ g i = Some x ∧ omap g l2 = m2.
Proof.
  revert m1. induction l as [|a l IH]; intros m1; cbn [omap list_omap].
  { by destruct m1. }
  destruct (g a) as [b|] eqn:Hg.
  - destruct m1 as [|b' m1]; cbn [app].
    + intros [= -> Hm]. exists [], a, l. by split_and!.
    + intros [= -> Hm]. destruct (IH m1 Hm) as (l1 & i & l2 & -> & H1 & Hi & H2).
      exists (a :: l1), i, l2. split_and!; [done| |done|done].
      cbn [omap list_omap]. by rewrite Hg, H1.
  - intros Hm. destruct (IH m1 Hm) as (l1 & i & l2 & -> & H1 & Hi & H2).
    exists (a :: l1), i, l2. split_and!; [done| |done|done].
    cbn [omap list_omap]. by rewrite Hg.
Qed.

(** X21.  Among the artists at the cursor of the same, greatest z-order,
    [on_motion] turns to the one that was added to the axes first (the sort
    is stable): every artist at the cursor that comes before it among the
    children of the axes has a strictly smaller z-order, every one after it
    a z-order that is not greater. *)
Theorem topmost_tie_goes_to_first_child
    (f : Fig) (a : Axes) (event : MouseEvent) (n : SelectInfo) :
  next_hilited f a event = Some n →
  ∃ l1 l2 pn,
    children a = l1 ++ artist n :: l2 ∧ store f !! artist n = Some pn ∧
    (∀ id p, id ∈ l1 → at_cursor f a event id → store f !! id = Some p →
             (zorder p < zorder pn)%Q) ∧
    (∀ id p, id ∈ l2 → at_cursor f a event id → store f !! id = Some p →
             (zorder p <= zorder pn)%Q).
Proof.
  unfold next_hilited. intros Hn.
  destruct (sorted_desc_head_first _ _ _ Hn) as (m1 & m2 & Hm & Hm1 & Hm2).
  destruct (omap_app_cons_inv _ _ _ _ _ Hm) as (l1 & i & l2 & Hl & H1 & Hi & H2).
  apply select_info_Some in Hi as (Hai & pn & Hpn & _).
  assert (Hsel : ∀ id p, at_cursor f a event id → store f !! id = Some p →
            ∃ s, select_info f a event id = Some s ∧ zorder_of (store f) s = zorder p).
  { intros id p (_ & p' & Hp' & [sh Hsh] & Hc) Hp.
    rewrite Hp in Hp'. injection Hp' as <-.
    exists {| artist := id; info := (contains a id p event).2 |}.
    unfold select_info, zorder_of. rewrite Hp, Hsh. cbn [artist]. rewrite Hp.
    destruct (contains a id p event) as [inside inf]. cbn [fst snd] in *.
    by rewrite Hc. }
  assert (Hzn : zorder_of (store f) n = zorder pn).
  { unfold zorder_of. by rewrite Hai, Hpn. }
  exists l1, l2, pn. rewrite Hai. split; [done|]. split; [done|]. split.
  - intros id p Hin Hat Hp. destruct (Hsel id p Hat Hp) as (s & Hs & <-).
    rewrite <- Hzn. apply Hm1. rewrite <- H1. apply list_elem_of_omap. by exists id.
  - intros id p Hin Hat Hp. destruct (Hsel id p Hat Hp) as (s & Hs & <-).
    rewrite <- Hzn. apply Hm2. rewrite <- H2. apply list_elem_of_omap. by exists id.
Qed.

(** *** What the view commands leave alone *)

(** Setting the pick radius of some artists does not disturb the highlight
    state. *)
Lemma hilite_inv_restyle (f f' : Fig) (l : list nat) :
  hilited f' = hilited f →
  store f' = foldl (λ st a, alter (set_picker 5) a st) (store f) l →
  hilite_inv f → hilite_inv f'.
Proof.
  intros Hh Hs [H1 H2 H3].
  assert (Hp : ∀ id p', store f' !! id = Some p' →
            ∃ p, store f !! id = Some p ∧ unhilite p' = unhilite p ∧ kind p' = kind p).
  { intros id p'. rewrite Hs, set_picker_store.
    destruct (decide (id ∈ l)).
    - destruct (store f !! id) as [p|]; [|done]. intros [= <-]. by exists p.
    - intros Hp. by exists p'. }
  split.
  - intros id p' Hp'. destruct (Hp id p' Hp') as (p & Hpf & Hu & _).
    rewrite Hh. rewrite <- (H1 id p Hpf). unfold highlighted. by rewrite Hu.
  - intros h. rewrite Hh. intros Hhf. destruct (H2 h Hhf) as [p Hpf].
    rewrite Hs, set_picker_store. rewrite Hpf. by destruct (decide _).
  - intros id p' Hp'. destruct (Hp id p' Hp') as (p & Hpf & Hu & Hk).
    specialize (H3 id p Hpf). unfold well_saved in *. by rewrite Hu, Hk.
Qed.

Lemma plot_highlight_frame (f : Fig) :
  hilited (plot f).1 = hilited f ∧
  store (plot f).1
  = foldl (λ st a, alter (set_picker 5) a st) (store f) (artists f).
Proof.
  destruct (plotted_bbox f) as [b|] eqn:Hb.
  - rewrite (plot_ok f b Hb). cbn [fst].
    match goal with |- context [connect_events None ?g] =>
      destruct (connect_events_frame None g) as (c & ids & ed & ->) end.
    done.
  - by rewrite (plot_without_box f Hb).
Qed.

Lemma set_view_bbox_highlight_frame (bbox : option BBox) (f : Fig) :
  hilited (set_view_bbox bbox f).1 = hilited f ∧
  store (set_view_bbox bbox f).1 = store f ∧
  artists (set_view_bbox bbox f).1 = artists f.
Proof.
  unfold set_view_bbox, update_axis_limits, mbind, Py_bind, modify, get, lift.
  cbn [fst snd ax set_view_bbox_field].
  by destruct (ax f), bbox.
Qed.

Lemma zoom_highlight_frame (factor : Q) (f : Fig) :
  hilited (zoom factor f).1 = hilited f ∧
  ∃ l, store (zoom factor f).1
       = foldl (λ st a, alter (set_picker 5) a st) (store f) l.
Proof.
  unfold zoom, mbind, Py_bind, get, lift.
  destruct (view_bbox f) as [bbox|]; cbn [fst snd]; [|split; [done|by exists []]].
  match goal with |- context [set_view_bbox ?b f] =>
    destruct (set_view_bbox_highlight_frame b f) as (Hh & Hs & Ha);
    destruct (set_view_bbox b f) as [g [[]|e]] end; cbn [fst snd] in *.
  - destruct (plot_highlight_frame g) as [-> ->]. rewrite Hh, Hs, Ha.
    split; [done|by eexists].
  - rewrite Hh, Hs. split; [done|by exists []].
Qed.

Lemma register_zoom_box_highlight_frame (cb : nat) (f : Fig) :
  hilited (register_zoom_box cb f).1 = hilited f ∧
  store (register_zoom_box cb f).1 = store f.
Proof.
  unfold register_zoom_box, ZoomBoxAction_init, disconnect_events.
  unfold_py.
  destruct (callback_ids f); cbn [fst snd ax set_canvas set_callback_ids set_event_dict];
    try done.
  by destruct (ax f).
Qed.

(** *** The shape actions *)

(** X24.  With the shape action in place, the handlers hand the event to
    the action that the shape of the artist has for 'press', 'drag' or
    'release', with the artist's handle and the info kept since it became
    hilited; a shape without an action for the key is passed over
    ([KeyError] is caught).  The press action runs after the flag is saved
    and the artist selected; the release action runs before the flag is put
    back, the selection cleared and [on_finished] called. *)
Theorem shape_gesture_dispatch
    (f : Fig) (h : SelectInfo) (p : Artist) (shp : nat) (handle : string)
    (event : MouseEvent) :
  do_action f = DoShapeAction →
  store f !! artist h = Some p → shape p = Some (shp, handle) →
  (hilited f = Some h →
   on_press event f
   = (run_shape_action shp handle Press event (info h)
        (set_selected (Some h)
           (set_do_scale_bounds false
              (set_save_do_scale_bounds (Has (do_scale_bounds f)) f))),
      Returned ()))
  ∧ (selected f = Some h →
     (on_motion event f).1 = run_shape_action shp handle Drag event (info h) f)
  ∧ (selected f = Some h → ∀ b,
     save_do_scale_bounds (run_shape_action shp handle Release event (info h) f)
     = Has b →
     on_release event f
     = (action_complete
          (set_selected None
             (set_do_scale_bounds b
                (run_shape_action shp handle Release event (info h) f))),
        Returned ()))
  ∧ (∀ key g, shape_action shp key = None →
       run_shape_action shp handle key event (info h) g = g).
Proof.
  intros Hd Hp Hs.
  assert (Hcall : ∀ key g, do_action g = DoShapeAction →
            store g !! artist h = Some p →
            call_do_action event (Some h) key g
            = (run_shape_action shp handle key event (info h) g, Returned ())).
  { intros key g Hdg Hpg.
    unfold call_do_action, do_shape_action, run_shape_action. unfold_py.
    rewrite Hdg, Hpg. cbn [option_bind]. rewrite Hs.
    by destruct (shape_action shp key). }
  split_and!.
  - intros Hh. unfold on_press. unfold_py.
    cbn [fst snd selected hilited set_selected set_do_scale_bounds
         set_save_do_scale_bounds].
    rewrite Hh. by rewrite Hcall.
  - intros Hsel. rewrite (on_motion_selected event f h Hsel). by rewrite Hcall.
  - intros Hsel b Hb. unfold on_release. unfold_py. rewrite Hsel.
    rewrite Hcall by done. cbn [fst snd]. by rewrite Hb.
  - intros key g Hk. unfold run_shape_action. by rewrite Hk.
Qed.

Section invariant.

(** The shape actions and the [on_finished] callbacks are not part of the
    figure; they are taken to keep the invariant. *)
Hypothesis shape_action_inv :
  ∀ shp key action handle event i f,
    shape_action shp key = Some action →
    hilite_inv f → hilite_inv (action handle event i f).
Hypothesis on_finished_inv :
  ∀ cb f, hilite_inv f → hilite_inv (run_on_finished cb f).

Lemma call_do_action_inv event target event_key f :
  hilite_inv f → hilite_inv (call_do_action event target event_key f).1.
Proof.
  intros Hinv. unfold call_do_action. unfold_py.
  destruct (do_action f) as [|action_obj|]; [| |done].
  - unfold do_shape_action. unfold_py.
    repeat (case_match; simpl); try done. by eapply shape_action_inv.
  - destruct (pan_action_frame action_obj event_key event f) as [Hs Hh].
    by apply (hilite_inv_frame f).
Qed.

Lemma on_press_inv event f : hilite_inv f → hilite_inv (on_press event f).1.
Proof.
  intros Hinv. unfold on_press. unfold_py. simpl.
  apply call_do_action_inv. by apply (hilite_inv_frame f).
Qed.

Lemma on_motion_inv event f : hilite_inv f → hilite_inv (on_motion event f).1.
Proof.
  intros Hinv. destruct (selected f) as [sel|] eqn:Hsel.
  - rewrite (on_motion_selected event f sel Hsel). by apply call_do_action_inv.
  - destruct (ax f) as [a|] eqn:Ha; [by eapply on_motion_hover_inv|].
    unfold on_motion, find_artists_at_location. unfold_py. by rewrite Hsel, Ha.
Qed.

Lemma action_complete_inv f : hilite_inv f → hilite_inv (action_complete f).
Proof.
  intros Hinv. unfold action_complete. destruct (on_finished f) as [cb|]; [|done].
  apply (hilite_inv_frame (run_on_finished cb f)); [done..|].
  by apply on_finished_inv.
Qed.

Lemma on_release_inv event f : hilite_inv f → hilite_inv (on_release event f).1.
Proof.
  intros Hinv. unfold on_release. unfold_py. simpl.
  pose proof (call_do_action_inv event (selected f) Release f Hinv) as Hinv'.
  destruct (call_do_action event (selected f) Release f) as [f' [[]|e]]; simpl in *;
    [|done].
  destruct (save_do_scale_bounds f') as [| |b]; simpl; [done|done|].
  apply action_complete_inv. by apply (hilite_inv_frame f').
Qed.

(** C9.  Let the figure start with at most one artist highlighted, the one
    [self.hilited] refers to (as after construction, where there is none),
    and let the shape actions and [on_finished] callbacks keep that.  After
    any sequence of press, motion and release events, handlers that raise
    included: an artist is in the highlighted state if and only if
    [self.hilited] refers to it, so at most one is; and while an artist is
    selected [on_motion] only runs the drag action. *)
Theorem hilite_invariant (f : Fig) (events : list GuiEvent) :
  hilite_inv f →
  (∀ id p, store (run_events f events) !! id = Some p →
           (highlighted p ↔ artist <$> hilited (run_events f events) = Some id))
  ∧ (∀ id1 id2 p1 p2,
       store (run_events f events) !! id1 = Some p1 →
       store (run_events f events) !! id2 = Some p2 →
       highlighted p1 → highlighted p2 → id1 = id2)
  ∧ (∀ h, hilited (run_events f events) = Some h →
          ∃ p, store (run_events f events) !! artist h = Some p ∧ highlighted p)
  ∧ (∀ event sel,
       selected (run_events f events) = Some sel →
       (on_motion event (run_events f events)).1
       = (call_do_action event (Some sel) Drag (run_events f events)).1).
Proof.
  intros Hinv.
  assert (Hrun : hilite_inv (run_events f events)).
  { unfold run_events. revert f Hinv.
    induction events as [|g events IH]; intros f Hinv; cbn [foldl]; [done|].
    apply IH. destruct g; simpl;
      [by apply on_press_inv|by apply on_motion_inv|by apply on_release_inv]. }
  split_and!.
  - apply (inv_hilited _ Hrun).
  - intros id1 id2 p1 p2 H1 H2 Hh1 Hh2.
    apply (inv_hilited _ Hrun _ _ H1) in Hh1. apply (inv_hilited _ Hrun _ _ H2) in Hh2.
    congruence.
  - intros h Hh. destruct (inv_present _ Hrun h Hh) as [p Hp]. exists p.
    split; [done|]. apply (inv_hilited _ Hrun _ _ Hp). by rewrite Hh.
  - intros event sel Hsel. by apply on_motion_selected.
Qed.

(** The highlight state across the commands of the figure. *)
Lemma execute_inv (c : Command) (f : Fig) : hilite_inv f → hilite_inv (execute f c).
Proof.
  intros Hinv. destruct c as [g| |factor|bbox|cb|cb|pe re]; cbn [execute].
  - destruct g; cbn [dispatch];
      [by apply on_press_inv|by apply on_motion_inv|by apply on_release_inv].
  - destruct (plot_highlight_frame f) as [Hh Hs].
    by apply (hilite_inv_restyle f _ (artists f)).
  - destruct (zoom_highlight_frame factor f) as [Hh [l Hs]].
    by apply (hilite_inv_restyle f _ l).
  - destruct (set_view_bbox_highlight_frame bbox f) as (Hh & Hs & _).
    by apply (hilite_inv_frame f).
  - by apply (hilite_inv_frame f).
  - destruct (register_zoom_box_highlight_frame cb f) as [Hh Hs].
    by apply (hilite_inv_frame f).
  - destruct (zoom_box_action f) as [z|]; [|done].
    unfold ZoomBoxAction_on_release, mbind, Py_bind, modify.
    match goal with |- context [set_view_bbox ?b f] =>
      destruct (set_view_bbox_highlight_frame b f) as (Hh & Hs & _);
      destruct (set_view_bbox b f) as [g [[]|e]] end; cbn [fst snd] in *;
      [|by apply (hilite_inv_frame f)].
    apply action_complete_inv.
    match goal with |- context [connect_events ?ad ?h] =>
      destruct (connect_events_frame ad h) as (c & ids & ed & ->) end.
    by apply (hilite_inv_frame f).
Qed.

(** X22.  The highlight state survives the use of the figure, not only
    its mouse events: from a state with at most one artist highlighted, the
    one [self.hilited] refers to, and with shape actions and [on_finished]
    callbacks that keep this, any sequence of mouse events and calls of
    [plot], [zoom], [set_view_bbox], [register_pan], [register_zoom_box] and
    of the zoom box's release, calls that raise included, ends in such a
    state. *)
Theorem hilite_invariant_across_commands (f : Fig) (commands : list Command) :
  hilite_inv f →
  (∀ id p, store (run_commands f commands) !! id = Some p →
           (highlighted p ↔ artist <$> hilited (run_commands f commands) = Some id))
  ∧ (∀ id1 id2 p1 p2,
       store (run_commands f commands) !! id1 = Some p1 →
       store (run_commands f commands) !! id2 = Some p2 →
       highlighted p1 → highlighted p2 → id1 = id2)
  ∧ (∀ h, hilited (run_commands f commands) = Some h →
          ∃ p, store (run_commands f commands) !! artist h = Some p ∧ highlighted p)
  ∧ (∀ id p, store (run_commands f commands) !! id = Some p → well_saved p).
Proof.
  intros Hinv.
  assert (Hrun : hilite_inv (run_commands f commands)).
  { unfold run_commands. revert f Hinv.
    induction commands as [|c commands IH]; intros f Hinv; cbn [foldl]; [done|].
    by apply IH, execute_inv. }
  split_and!.
  - apply (inv_hilited _ Hrun).
  - intros id1 id2 p1 p2 H1 H2 Hh1 Hh2.
    apply (inv_hilited _ Hrun _ _ H1) in Hh1. apply (inv_hilited _ Hrun _ _ H2) in Hh2.
    congruence.
  - intros h Hh. destruct (inv_present _ Hrun h Hh) as [p Hp]. exists p.
    split; [done|]. apply (inv_hilited _ Hrun _ _ Hp). by rewrite Hh.
  - apply (inv_saved _ Hrun).
Qed.

End invariant.

End figure.

#[local] Existing Instance sample_toolkit.

Lemma sample_fig_inv : hilite_inv sample_fig.
Proof.
  apply fresh_hilite_inv; [by vm_compute|].
  apply (map_Forall_to_list (λ _ p, unhilite p = Missing)).
  vm_compute. by repeat constructor.
Qed.

Lemma sample_shape_action_inv shp key action handle event i f :
  shape_action shp key = Some action →
  hilite_inv f → hilite_inv (action handle event i f).
Proof.
  destruct key; [done|done|]. intros [= <-]. by apply hilite_inv_frame.
Qed.

Lemma sample_on_finished_inv (cb : nat) f :
  hilite_inv f → hilite_inv (run_on_finished cb f).
Proof. by apply hilite_inv_frame. Qed.

(** The cursor at x = 7 is over the polygon (z-order 1) and the polyline
    (z-order 2): the polyline is highlighted. *)
Lemma on_motion_highlights_topmost_artist_witness :
  selected sample_fig = None ∧ ax sample_fig = Some sample_axes
  ∧ hilite_inv sample_fig
  ∧ next_hilited sample_fig sample_axes (at_pixel 7 1)
    = Some {| artist := 1; info := None |}
  ∧ ∃ f', on_motion (at_pixel 7 1) sample_fig = (f', Returned ()) ∧
          hilited f' = Some {| artist := 1; info := None |} ∧
          ∀ p, store sample_fig !! 1%nat = Some p →
               store f' !! 1%nat = Some (highlight p).
Proof.
  assert (Hn : next_hilited sample_fig sample_axes (at_pixel 7 1)
               = Some {| artist := 1; info := None |}) by reflexivity.
  split_and!; [reflexivity|reflexivity|exact sample_fig_inv|exact Hn|].
  destruct (on_motion_highlights_topmost_artist
              (at_pixel 7 1) sample_fig sample_axes eq_refl eq_refl sample_fig_inv)
    as (_ & _ & f' & Hm & _ & Hne).
  exists f'. split; [exact Hm|].
  assert (Hcur : hilited sample_fig = None) by reflexivity.
  destruct Hne as (Hh & _ & Hnew & _); [rewrite Hn, Hcur; intros [=]|].
  split; [rewrite Hh; exact Hn|]. intros p Hp. exact (Hnew _ p Hn Hp).
Defined.





Lemma pan_release_sets_view_bbox_witness :
  do_action sample_pan_fig = DoCommandAction {| button_pressed := Missing |}
  ∧ ax sample_pan_fig = Some sample_axes
  ∧ ∃ a0 f1,
      ax (run_events sample_pan_fig
            [ButtonPress (at_pixel 12 1); MotionNotify (at_pixel 1 1);
             MotionNotify (at_pixel 2 3)]) = Some a0 ∧
      on_release (at_pixel 2 3)
        (run_events sample_pan_fig
           [ButtonPress (at_pixel 12 1); MotionNotify (at_pixel 1 1);
            MotionNotify (at_pixel 2 3)])
      = (action_complete f1, Returned ()) ∧
      ax f1 = Some (end_pan a0) ∧
      view_bbox f1
      = Some (((get_bound (xlim (end_pan a0))).1,
               (get_bound (ylim (end_pan a0))).1),
              ((get_bound (xlim (end_pan a0))).2,
               (get_bound (ylim (end_pan a0))).2)).
Proof.
  split_and!; [reflexivity..|].
  exact (pan_release_sets_view_bbox
           sample_pan_fig {| button_pressed := Missing |} sample_axes
           (at_pixel 12 1) (at_pixel 2 3) [at_pixel 1 1; at_pixel 2 3]
           eq_refl eq_refl).
Defined.

(** The pan above moved the limits by (1, 1) and then by (2, 3). *)
Lemma sample_pan_view_bbox :
  view_bbox (run_events sample_pan_fig
               [ButtonPress (at_pixel 12 1); MotionNotify (at_pixel 1 1);
                MotionNotify (at_pixel 2 3); ButtonRelease (at_pixel 2 3)])
  = Some ((0 - 1 - 2, 0 - 1 - 3), (20 - 1 - 2, 10 - 1 - 3))%Q.
Proof. reflexivity. Qed.

Lemma hilite_invariant_witness :
  hilite_inv sample_fig
  ∧ (∀ id p, store (run_events sample_fig sample_events) !! id = Some p →
             (highlighted p
              ↔ artist <$> hilited (run_events sample_fig sample_events) = Some id))
  ∧ (∀ id1 id2 p1 p2,
       store (run_events sample_fig sample_events) !! id1 = Some p1 →
       store (run_events sample_fig sample_events) !! id2 = Some p2 →
       highlighted p1 → highlighted p2 → id1 = id2)
  ∧ (∀ h, hilited (run_events sample_fig sample_events) = Some h →
          ∃ p, store (run_events sample_fig sample_events) !! artist h = Some p ∧
               highlighted p).
Proof.
  split; [exact sample_fig_inv|].
  destruct (hilite_invariant
              sample_shape_action_inv sample_on_finished_inv
              sample_fig sample_events sample_fig_inv)
    as (H1 & H2 & H3 & _).
  by split_and!.
Defined.

Lemma disconnect_then_connect_restores_event_dict_witness :
  callback_ids sample_fig = Has [0; 1; 2]%nat
  ∧ ∃ f', disconnect_events sample_fig = (f', Returned (event_dict sample_fig)) ∧
          event_dict f' = ∅ ∧
          event_dict (connect_events (Some (event_dict sample_fig)) f')
          = event_dict sample_fig.
Proof.
  split; [reflexivity|].
  exact (proj1 (disconnect_then_connect_restores_event_dict
                  sample_fig [0; 1; 2]%nat eq_refl)).
Defined.

(** The translucent polygon of alpha 0.25 is highlighted with alpha 0.75,
    and an artist of alpha 0.75 with alpha 0.25. *)
Lemma polygon_highlight_shifts_alpha_witness :
  facecolor (highlight sample_polygon) = (1, 0, 0, 0.25 + 0.5)%Q
  ∧ ∃ a', facecolor (highlight (set_facecolor (1, 0, 0, 0.75)%Q sample_polygon))
          = (1, 0, 0, a')%Q ∧ (a' == 0.25)%Q.
Proof.
  destruct (polygon_highlight_shifts_alpha sample_polygon 1 0 0 0.25)
    as (a1 & Hf1 & _ & _ & Hlo & _); [reflexivity|reflexivity|lra|lra|].
  destruct (polygon_highlight_shifts_alpha
              (set_facecolor (1, 0, 0, 0.75)%Q sample_polygon) 1 0 0 0.75)
    as (a2 & Hf2 & _ & _ & _ & Hhi & _); [reflexivity|reflexivity|lra|lra|].
  split.
  - rewrite Hf1. rewrite Hlo by lra. reflexivity.
  - exists a2. split; [exact Hf2|]. destruct Hhi as [_ Hhi]; [lra|].
    rewrite Hhi. lra.
Defined.

(** Plotting the sample layout. *)
Lemma plot_adds_artists_witness :
  plotted_bbox (sample_new false) = Some ((0, 0), (20, 10))%Q
  ∧ ∃ f' a', plot (sample_new false) = (f', Returned ()) ∧ ax f' = Some a' ∧
             children a' = [0; 1; 2]%nat ∧
             event_dict f' = default_action_dict ∪ ∅.
Proof.
  split; [reflexivity|].
  destruct (plot_adds_artists (sample_new false) ((0, 0), (20, 10))%Q eq_refl)
    as (f' & a' & Hp & Ha & Hc & _ & _ & _ & _ & He & _).
  exists f', a'. split_and!; [exact Hp|exact Ha|exact Hc|exact He].
Defined.

(** Zooming in and then out leaves the 20 by 10 box at 19.2 by 9.6. *)
Lemma zoom_composes_witness :
  ∃ f2 nb, (zoom_in;; zoom_out) sample_fig = (f2, Returned ()) ∧
           view_bbox f2 = Some nb ∧
           (hlf_x nb == 9.6)%Q ∧ (hlf_y nb == 4.8)%Q.
Proof.
  destruct (zoom_composes sample_fig 0.8 1.2 ((0, 0), (20, 10))%Q sample_axes)
    as [_ (f2 & nb & Hz & Hv & _ & _ & Hx & Hy)]; [by vm_compute..|].
  exists f2, nb. split_and!; [exact Hz|exact Hv|rewrite Hx|rewrite Hy]; by vm_compute.
Defined.

(** The figure as constructed, without a view box, cannot be plotted. *)
Lemma plot_without_box_raises_witness :
  ∃ f', plot (InteractiveFigure_init false false 0.05 (AspectName "equal")
                None false {| next_cid := 0; callbacks := ∅ |})
        = (f', Raised TypeError)
        ∧ is_Some (ax f') ∧ callback_ids f' = Missing ∧ event_dict f' = ∅.
Proof.
  destruct (plot_without_box_raises
              (InteractiveFigure_init false false 0.05 (AspectName "equal")
                 None false {| next_cid := 0; callbacks := ∅ |}) eq_refl)
    as (f' & a' & Hp & Ha & _ & Hc & He & _).
  exists f'. split_and!; [exact Hp|by rewrite Ha|exact Hc|exact He].
Defined.


(** A zoom box drawn from (2, 2) to (6, 4) on the sample layout. *)
Lemma zoom_box_release_sets_view_witness :
  callback_ids sample_fig = Has [0; 1; 2]%nat
  ∧ ∃ f1 z f2 a2,
      register_zoom_box 8 sample_fig = (f1, Returned ()) ∧
      zoom_box_action f1 = Some z ∧
      ZoomBoxAction_on_release z (at_pixel 2 2) (at_pixel 6 4) f1
      = (set_on_finished None (run_on_finished 8 f2), Returned ()) ∧
      view_bbox f2 = Some ((2, 2), (6, 4))%Q ∧
      ax f2 = Some a2 ∧ xlim a2 = (2, 6)%Q ∧ ylim a2 = (2, 4)%Q ∧
      event_dict f2 = event_dict sample_fig.
Proof.
  assert (Hc : callback_ids sample_fig = Has [0; 1; 2]%nat) by (by vm_compute).
  assert (Ha : ax sample_fig = Some sample_axes) by (by vm_compute).
  split; [exact Hc|].
  destruct (zoom_box_release_sets_view sample_fig 8 [0; 1; 2]%nat sample_axes
              (at_pixel 2 2) (at_pixel 6 4) Hc Ha)
    as (f1 & z & f2 & a2 & Hr & Hz & _ & _ & _ & _ & _ & _ & _ & Hrel & Hv & Ha2
        & Hx & Hy & _ & He & _).
  exists f1, z, f2, a2.
  split_and!; [exact Hr|exact Hz|exact Hrel|exact Hv|exact Ha2|exact Hx|exact Hy|exact He].
Defined.

(** A release on the sample layout before any press. *)
Lemma release_before_press_raises_witness :
  save_do_scale_bounds sample_fig = Missing
  ∧ on_release (at_pixel 1 1) sample_fig = (sample_fig, Raised AttributeError).
Proof.
  assert (Hs : save_do_scale_bounds sample_fig = Missing)
    by (vm_compute; reflexivity).
  assert (Hd : do_action sample_fig = DoShapeAction ∧ selected sample_fig = None)
    by (vm_compute; split; reflexivity).
  split; [exact Hs|].
  exact (proj1 (release_before_press_raises sample_fig (at_pixel 1 1) Hs
                  (or_intror Hd))).
Defined.

(** On the layout that scales its bounds, a second press before the
    release leaves [do_scale_bounds] off. *)
Lemma second_press_forgets_scale_bounds_witness :
  do_scale_bounds sample_scaled_fig = true
  ∧ (∃ f1, (on_press (at_pixel 30 1);; on_release (at_pixel 30 1)) sample_scaled_fig
           = (action_complete f1, Returned ()) ∧ do_scale_bounds f1 = true)
  ∧ (∃ f2, (on_press (at_pixel 30 1);; on_press (at_pixel 30 1);;
            on_release (at_pixel 30 1)) sample_scaled_fig
           = (action_complete f2, Returned ()) ∧ do_scale_bounds f2 = false).
Proof.
  assert (Hd : do_scale_bounds sample_scaled_fig = true) by (by vm_compute).
  assert (Ha : do_action sample_scaled_fig = DoShapeAction) by (by vm_compute).
  assert (Hh : hilited sample_scaled_fig = None) by (by vm_compute).
  destruct (second_press_forgets_scale_bounds sample_scaled_fig
              (at_pixel 30 1) (at_pixel 30 1) (at_pixel 30 1) Ha Hh)
    as ((f1 & Hr1 & Hd1) & _ & Hr2).
  split; [exact Hd|]. split; [|exact Hr2].
  exists f1. split; [exact Hr1|]. rewrite Hd1. exact Hd.
Defined.

(** With the vertex hilited the two drags move the axes; with nothing
    hilited they do not. *)
Lemma pan_drags_follow_selection_witness :
  is_Some (hilited sample_pan_fig) ∧ hilited sample_idle_pan_fig = None
  ∧ ax (run_events sample_pan_fig
          [ButtonPress (at_pixel 12 1); MotionNotify (at_pixel 1 1);
           MotionNotify (at_pixel 2 3)])
    = Some {| xlim := (0 - 1 - 2, 20 - 1 - 2)%Q; ylim := (0 - 1 - 3, 10 - 1 - 3)%Q;
              children := [0; 1; 2]%nat |}
  ∧ ax (run_events sample_idle_pan_fig
          [ButtonPress (at_pixel 30 1); MotionNotify (at_pixel 31 1);
           MotionNotify (at_pixel 32 3)])
    = Some sample_axes.
Proof.
  assert (Hh : is_Some (hilited sample_pan_fig)) by (by vm_compute; eexists).
  assert (Hn : hilited sample_idle_pan_fig = None) by (by vm_compute).
  destruct (pan_drags_follow_selection sample_pan_fig
              {| button_pressed := Missing |} sample_axes (at_pixel 12 1)
              [at_pixel 1 1; at_pixel 2 3]) as (Hdrag & _); [by vm_compute..|].
  destruct (pan_drags_follow_selection sample_idle_pan_fig
              {| button_pressed := Missing |} sample_axes (at_pixel 30 1)
              [at_pixel 31 1; at_pixel 32 3]) as (_ & Hidle & _); [by vm_compute..|].
  split; [exact Hh|]. split; [exact Hn|]. split.
  - cbn [map] in Hdrag. rewrite (Hdrag Hh). reflexivity.
  - cbn [map] in Hidle. rewrite (Hidle Hn). reflexivity.
Defined.

(** The pan on the layout that scales its bounds. *)
Lemma pan_gesture_restores_scale_bounds_witness :
  do_scale_bounds sample_scaled_pan_fig = true
  ∧ do_scale_bounds
      (run_events sample_scaled_pan_fig
         [ButtonPress (at_pixel 12 1); MotionNotify (at_pixel 1 1)]) = false
  ∧ ∃ f2, on_release (at_pixel 1 1)
            (run_events sample_scaled_pan_fig
               [ButtonPress (at_pixel 12 1); MotionNotify (at_pixel 1 1)])
          = (action_complete f2, Returned ()) ∧
          do_scale_bounds f2 = true ∧ selected f2 = None ∧
          on_finished f2 = Some 7%nat.
Proof.
  assert (Hd : do_scale_bounds sample_scaled_pan_fig = true)
    by (vm_compute; reflexivity).
  assert (Hf : on_finished sample_scaled_pan_fig = Some 7%nat)
    by (vm_compute; reflexivity).
  assert (Hp : do_action sample_scaled_pan_fig
               = DoCommandAction {| button_pressed := Missing |})
    by (vm_compute; reflexivity).
  assert (Ha : ∃ a, ax sample_scaled_pan_fig = Some a)
    by (vm_compute; eexists; reflexivity).
  destruct Ha as [a Ha].
  destruct (pan_gesture_restores_scale_bounds sample_scaled_pan_fig
              {| button_pressed := Missing |} a (at_pixel 12 1) (at_pixel 1 1)
              [at_pixel 1 1] Hp Ha)
    as (Hoff & _ & f2 & Hr & Hd2 & Hs2 & Hf2 & _).
  cbn [map] in Hoff, Hr.
  split; [exact Hd|]. split; [exact Hoff|].
  exists f2. split; [exact Hr|]. split; [rewrite Hd2; exact Hd|].
  split; [exact Hs2|]. rewrite Hf2. exact Hf.
Defined.

(** Over x = 7 the two polylines of z-order 2 overlap: the one added first
    is the one that is hilited. *)
Lemma topmost_tie_goes_to_first_child_witness :
  next_hilited sample_tie_fig sample_axes (at_pixel 7 1)
  = Some {| artist := 0; info := None |}
  ∧ zorder <$> store sample_tie_fig !! 0%nat = Some 2%Q
  ∧ zorder <$> store sample_tie_fig !! 1%nat = Some 2%Q
  ∧ at_cursor sample_tie_fig sample_axes (at_pixel 7 1) 1
  ∧ ∃ l1 l2 pn,
      children sample_axes = l1 ++ 0%nat :: l2 ∧
      store sample_tie_fig !! 0%nat = Some pn ∧
      (∀ id p, id ∈ l1 → at_cursor sample_tie_fig sample_axes (at_pixel 7 1) id →
               store sample_tie_fig !! id = Some p → (zorder p < zorder pn)%Q) ∧
      (∀ id p, id ∈ l2 → at_cursor sample_tie_fig sample_axes (at_pixel 7 1) id →
               store sample_tie_fig !! id = Some p → (zorder p <= zorder pn)%Q).
Proof.
  assert (Hn : next_hilited sample_tie_fig sample_axes (at_pixel 7 1)
               = Some {| artist := 0; info := None |})
    by (vm_compute; reflexivity).
  split; [exact Hn|]. split; [vm_compute; reflexivity|].
  split; [vm_compute; reflexivity|]. split.
  { clear Hn. split.
    - unfold sample_axes. cbn [children]. apply elem_of_cons. right.
      apply elem_of_cons. left. reflexivity.
    - eexists. split; [vm_compute; reflexivity|].
      split; [eexists; reflexivity|vm_compute; reflexivity]. }
  exact (topmost_tie_goes_to_first_child sample_tie_fig sample_axes (at_pixel 7 1)
           {| artist := 0; info := None |} Hn).
Defined.

(** After the sample session the vertex is the highlighted artist, and
    the only one. *)
Lemma hilite_invariant_across_commands_witness :
  hilite_inv sample_fig
  ∧ hilited (run_commands sample_fig sample_commands)
    = Some {| artist := 2; info := None |}
  ∧ (∀ id p, store (run_commands sample_fig sample_commands) !! id = Some p →
             (highlighted p
              ↔ artist <$> hilited (run_commands sample_fig sample_commands) = Some id))
  ∧ (∀ id1 id2 p1 p2,
       store (run_commands sample_fig sample_commands) !! id1 = Some p1 →
       store (run_commands sample_fig sample_commands) !! id2 = Some p2 →
       highlighted p1 → highlighted p2 → id1 = id2).
Proof.
  split; [exact sample_fig_inv|]. split; [vm_compute; reflexivity|].
  destruct (hilite_invariant_across_commands
              sample_shape_action_inv sample_on_finished_inv
              sample_fig sample_commands sample_fig_inv)
    as (H1 & H2 & _).
  split; [exact H1|exact H2].
Defined.

(** With the polyline hilited, the press selects it (its shape has no
    press action), and the release at (3, 4) runs the release action of the
    shape, which sets the view box. *)
Lemma shape_gesture_dispatch_witness :
  hilited sample_hover_fig = Some {| artist := 1; info := None |}
  ∧ selected (on_press (at_pixel 7 1) sample_hover_fig).1
    = Some {| artist := 1; info := None |}
  ∧ view_bbox (on_press (at_pixel 7 1) sample_hover_fig).1
    = Some ((0, 0), (20, 10))%Q
  ∧ view_bbox (run_events sample_hover_fig
                 [ButtonPress (at_pixel 7 1); ButtonRelease (at_pixel 3 4)])
    = Some ((0, 0), (3, 4))%Q.
Proof.
  assert (Hh : hilited sample_hover_fig = Some {| artist := 1; info := None |})
    by (vm_compute; reflexivity).
  assert (Hd : do_action sample_hover_fig = DoShapeAction)
    by (vm_compute; reflexivity).
  assert (Hp : ∃ p, store sample_hover_fig !! 1%nat = Some p ∧
                    shape p = Some (1%nat, "shape"))
    by (vm_compute; eexists; split; reflexivity).
  destruct Hp as (p & Hp & Hs).
  destruct (shape_gesture_dispatch sample_hover_fig {| artist := 1; info := None |}
              p 1 "shape" (at_pixel 7 1) Hd Hp Hs) as (Hpress & _ & _ & Hnone).
  split; [exact Hh|].
  rewrite (Hpress Hh). cbn [fst].
  rewrite Hnone by reflexivity.
  split; [reflexivity|]. split; [vm_compute; reflexivity|].
  vm_compute. reflexivity.
Defined.

End IFigFacts.
